(** * daad: the query engine of the catalogue server

    A shallow embedding of the server module (loader, title resolver, the
    programme and scholarship query handlers) together with the properties
    stated about it.

    Conventions of the model.
    - A JavaScript string is a [string]; the character [ascii_of_N n] stands
      for the code unit [n], so the model covers the code units 0..255.
    - Exceptions are the [Throw] result of the [result] monad.
    - The numbers of the pagination arithmetic are [num]: an integer or NaN.
      Numbers inside records are exact decimals [VNum m e] = m * 10^e.  The
      rounding and the overflow of doubles are not represented.
    - An object is the list of its own properties in the order of their
      creation; the order in which integer-like names are enumerated is not
      represented, and nothing below depends on it. *)

From Stdlib Require Import ZArith List Bool Ascii String Lia DecimalString DecimalN.
Import ListNotations.

Local Open Scope list_scope.
Local Open Scope string_scope.

(** ** Exceptions *)

Inductive result (A : Type) : Type :=
| Ok (a : A)
| Throw.
Arguments Ok {A} a.
Arguments Throw {A}.

Definition bind {A B} (r : result A) (f : A -> result B) : result B :=
  match r with
  | Ok a => f a
  | Throw => Throw
  end.

Notation "x <- c1 ;; c2" := (bind c1 (fun x => c2))
  (at level 61, c1 at next level, right associativity).

Fixpoint mapM {A B} (f : A -> result B) (l : list A) : result (list B) :=
  match l with
  | [] => Ok []
  | x :: xs => y <- f x ;; ys <- mapM f xs ;; Ok (y :: ys)
  end.

(** [Array.prototype.filter] with a predicate that may throw. *)
Fixpoint filterM {A} (f : A -> result bool) (l : list A) : result (list A) :=
  match l with
  | [] => Ok []
  | x :: xs => b <- f x ;; ys <- filterM f xs ;; Ok (if b then x :: ys else ys)
  end.

(** ** Characters and strings *)

Definition code (c : ascii) : N := N_of_ascii c.

(** The class [\s] of regular expressions, which is also the set removed by
    [String.prototype.trim]: TAB, LF, VT, FF, CR, SP and NBSP. *)
Definition isWhiteSpace (c : ascii) : bool :=
  match code c with
  | 9 | 10 | 11 | 12 | 13 | 32 | 160 => true
  | _ => false
  end%N.

(** The characters that [.] does not match: LF and CR. *)
Definition isLineTerminator (c : ascii) : bool :=
  match code c with
  | 10 | 13 => true
  | _ => false
  end%N.

Definition isDigit (c : ascii) : bool :=
  ((48 <=? code c) && (code c <=? 57))%N.

Definition digitVal (c : ascii) : Z := Z.of_N (code c) - 48.

Definition lowerChar (c : ascii) : ascii :=
  let n := code c in
  if ((65 <=? n) && (n <=? 90))%N then ascii_of_N (n + 32)
  else if ((192 <=? n) && (n <=? 222) && negb (n =? 215))%N then ascii_of_N (n + 32)
  else c.

Fixpoint toLowerCase (s : string) : string :=
  match s with
  | "" => ""
  | String c r => String (lowerChar c) (toLowerCase r)
  end.

Fixpoint trimStart (s : string) : string :=
  match s with
  | "" => ""
  | String c r => if isWhiteSpace c then trimStart r else s
  end.

Fixpoint trimEnd (s : string) : string :=
  match s with
  | "" => ""
  | String c r =>
      match trimEnd r with
      | "" => if isWhiteSpace c then "" else String c ""
      | r' => String c r'
      end
  end.

Definition trim (s : string) : string := trimEnd (trimStart s).

(** [s.includes(t)] *)
Fixpoint includes (s t : string) : bool :=
  prefix t s ||
  match s with
  | "" => false
  | String _ r => includes r t
  end.

(** [words.join(sep)] *)
Fixpoint join (sep : string) (l : list string) : string :=
  match l with
  | [] => ""
  | [w] => w
  | w :: ws => w ++ sep ++ join sep ws
  end.

(** [s.split(/\s+/)]: the pieces between the maximal runs of white space.
    [inrun] tells that the previous character belonged to a separator. *)
Fixpoint split_ws_from (inrun : bool) (s : string) : list string :=
  match s with
  | "" => [""]
  | String c r =>
      if isWhiteSpace c then
        if inrun then split_ws_from true r else "" :: split_ws_from true r
      else
        match split_ws_from false r with
        | w :: ws => String c w :: ws
        | [] => [String c ""]
        end
  end.

Definition split_ws (s : string) : list string := split_ws_from false s.

(** [text.split(/\r?\n/)]: a separator is LF, or CR immediately followed by
    LF; a CR that no LF follows stays inside its piece. *)
Fixpoint split_lines (s : string) : list string :=
  let cons_char c pieces :=
    match pieces with
    | l :: ls => String c l :: ls
    | [] => [String c ""]
    end in
  match s with
  | "" => [""]
  | String c r =>
      if (code c =? 10)%N then "" :: split_lines r
      else
        match r with
        | String c' r' =>
            if ((code c =? 13) && (code c' =? 10))%N then "" :: split_lines r'
            else cons_char c (split_lines r)
        | "" => cons_char c (split_lines r)
        end
  end.

(** [a >= b] on strings: the order of the code units, position by position. *)
Fixpoint str_ge (a b : string) : bool :=
  match a, b with
  | _, "" => true
  | "", String _ _ => false
  | String x a', String y b' =>
      if (code x =? code y)%N then str_ge a' b' else (code y <? code x)%N
  end.

(** ** Arrays: [slice] *)

(** The clamping of a relative index against the length. *)
Definition rel_index (len i : Z) : Z :=
  if (i <? 0)%Z then Z.max (len + i) 0 else Z.min i len.

Definition slice {A} (l : list A) (start end_ : Z) : list A :=
  let len := Z.of_nat (List.length l) in
  let k := rel_index len start in
  let final := rel_index len end_ in
  firstn (Z.to_nat (final - k)) (skipn (Z.to_nat k) l).

(** [l.slice(start)]: the end defaults to the length. *)
Definition slice_from {A} (l : list A) (start : Z) : list A :=
  slice l start (Z.of_nat (List.length l)).

(** ** Numbers *)

(** The numbers of the pagination arithmetic: what [parseInt], [Math.max],
    [Math.min], [-], [*] and [+] produce from a digit string.  The rounding
    of integers beyond 2^53 is not represented. *)
Inductive num : Set :=
| NaN
| Int (z : Z).

Definition Math_max (a b : num) : num :=
  match a, b with
  | Int x, Int y => Int (Z.max x y)
  | _, _ => NaN
  end.

Definition Math_min (a b : num) : num :=
  match a, b with
  | Int x, Int y => Int (Z.min x y)
  | _, _ => NaN
  end.

Definition num_sub (a b : num) : num :=
  match a, b with
  | Int x, Int y => Int (x - y)
  | _, _ => NaN
  end.

Definition num_mul (a b : num) : num :=
  match a, b with
  | Int x, Int y => Int (x * y)
  | _, _ => NaN
  end.

Definition num_add (a b : num) : num :=
  match a, b with
  | Int x, Int y => Int (x + y)
  | _, _ => NaN
  end.

(** ToIntegerOrInfinity, as applied by [slice] to its arguments. *)
Definition toInteger (a : num) : Z :=
  match a with
  | NaN => 0
  | Int z => z
  end.

Fixpoint read_digits (acc : Z) (s : string) : Z :=
  match s with
  | String c r => if isDigit c then read_digits (10 * acc + digitVal c) r else acc
  | "" => acc
  end.

(** [parseInt(s, 10)]: leading white space is skipped, one sign is read, then
    the longest run of decimal digits; no digit gives NaN. *)
Definition parseInt (s : string) : num :=
  let s1 := trimStart s in
  let '(neg, s2) :=
    match s1 with
    | String "-" r => (true, r)
    | String "+" r => (false, r)
    | _ => (false, s1)
    end in
  match s2 with
  | String c _ =>
      if isDigit c
      then Int (if neg : bool then - read_digits 0 s2 else read_digits 0 s2)
      else NaN
  | "" => NaN
  end.

Definition digits_of (n : N) : string := NilEmpty.string_of_uint (N.to_uint n).

Fixpoint zeros (n : nat) : string :=
  match n with
  | O => ""
  | S n' => String "0" (zeros n')
  end.

(** Removes the zeros at the end of a digit string and counts them. *)
Fixpoint strip_zeros_end (s : string) : string * nat :=
  match s with
  | "" => ("", O)
  | String c r =>
      match strip_zeros_end r with
      | ("", z) => if (code c =? 48)%N then ("", S z) else (String c "", z)
      | (r', z) => (String c r', z)
      end
  end.

(** Number::toString of the decimal [m * 10^e]. *)
Definition numberToString (m e : Z) : string :=
  if (m =? 0)%Z then "0" else
  let '(ds, z) := strip_zeros_end (digits_of (Z.abs_N m)) in
  let k := Z.of_nat (String.length ds) in
  let n := (k + (e + Z.of_nat z))%Z in
  let sign := if (m <? 0)%Z then "-" else "" in
  sign ++
  (if ((k <=? n) && (n <=? 21))%Z then ds ++ zeros (Z.to_nat (n - k))
   else if ((0 <? n) && (n <=? 21))%Z then
     substring 0 (Z.to_nat n) ds ++ "." ++ substring (Z.to_nat n) (Z.to_nat (k - n)) ds
   else if ((-6 <? n) && (n <=? 0))%Z then "0." ++ zeros (Z.to_nat (- n)) ++ ds
   else
     let x := (n - 1)%Z in
     let es := (if (x <? 0)%Z then "-" else "+") ++ digits_of (Z.abs_N x) in
     match ds with
     | String d "" => String d "" ++ "e" ++ es
     | String d rest => String d "" ++ "." ++ rest ++ "e" ++ es
     | "" => ""
     end).

(** Equality of two decimals as numbers. *)
Definition number_eqb (m1 e1 m2 e2 : Z) : bool :=
  let lo := Z.min e1 e2 in
  (m1 * 10 ^ (e1 - lo) =? m2 * 10 ^ (e2 - lo))%Z.

(** ** Values *)

Unset Elimination Schemes.
Inductive value : Type :=
| VUndef
| VNull
| VBool (b : bool)
| VNum (m e : Z)
| VStr (s : string)
| VArr (l : list value)
| VObj (o : list (string * value)).
Set Elimination Schemes.

(** An object is the list of its own properties, each name once. *)
Definition object := list (string * value).

Fixpoint lookup (k : string) (o : object) : option value :=
  match o with
  | [] => None
  | (k', v) :: o' => if String.eqb k k' then Some v else lookup k o'
  end.

Definition has_key (k : string) (o : object) : bool :=
  match lookup k o with
  | Some _ => true
  | None => false
  end.

(** [o[k] = v]: an existing property keeps its place, a new one goes last. *)
Fixpoint set_prop (k : string) (v : value) (o : object) : object :=
  match o with
  | [] => [(k, v)]
  | (k', v') :: o' =>
      if String.eqb k k' then (k', v) :: o' else (k', v') :: set_prop k v o'
  end.

Definition truthy (v : value) : bool :=
  match v with
  | VUndef | VNull => false
  | VBool b => b
  | VNum m _ => negb (m =? 0)%Z
  | VStr s => negb (s =? "")
  | VArr _ | VObj _ => true
  end.

Definition isArray (v : value) : bool :=
  match v with
  | VArr _ => true
  | _ => false
  end.

(** [String(v)].  An array is joined with commas, [null] and [undefined]
    elements giving the empty string.  An object read from JSON has no
    callable [toString] of its own: it inherits the one that answers
    [[object Object]], unless an own property named [toString] hides it, and
    then the conversion throws a TypeError. *)
Fixpoint ToString (v : value) : result string :=
  match v with
  | VUndef => Ok "undefined"
  | VNull => Ok "null"
  | VBool true => Ok "true"
  | VBool false => Ok "false"
  | VNum m e => Ok (numberToString m e)
  | VStr s => Ok s
  | VArr l =>
      let elem x :=
        match x with
        | VUndef | VNull => Ok ""
        | _ => ToString x
        end in
      (fix joined (l : list value) : result string :=
         match l with
         | [] => Ok ""
         | [x] => elem x
         | x :: xs => a <- elem x ;; b <- joined xs ;; Ok (a ++ "," ++ b)
         end) l
  | VObj o => if has_key "toString" o then Throw else Ok "[object Object]"
  end.

(** [v.k] for the property names the server reads; none of them is defined
    on a prototype, so only an own property of an object answers.  Reading a
    property of [null] or [undefined] throws. *)
Definition get (v : value) (k : string) : result value :=
  match v with
  | VUndef | VNull => Throw
  | VObj o =>
      Ok match lookup k o with
         | Some x => x
         | None => VUndef
         end
  | _ => Ok VUndef
  end.

(** [v?.k] *)
Definition get_opt (v : value) (k : string) : result value :=
  match v with
  | VUndef | VNull => Ok VUndef
  | _ => get v k
  end.

(** [a || b] and [a ?? b], the right operand being evaluated on demand. *)
Definition or_else (a : value) (b : result value) : result value :=
  if truthy a then Ok a else b.

Definition nullish (v : value) : bool :=
  match v with
  | VUndef | VNull => true
  | _ => false
  end.

Definition coalesce (a : value) (b : result value) : result value :=
  if nullish a then b else Ok a.

(** The key comparison of [Map], SameValueZero.  Arrays and objects are keys
    by identity, and two values read from the files are never the same
    object, so such a key equals no other. *)
Definition sameValueZero (a b : value) : bool :=
  match a, b with
  | VUndef, VUndef => true
  | VNull, VNull => true
  | VBool x, VBool y => Bool.eqb x y
  | VNum m1 e1, VNum m2 e2 => number_eqb m1 e1 m2 e2
  | VStr s, VStr t => (s =? t)
  | _, _ => false
  end.

(** ** [JSON.parse] *)

Module Json.

Definition isWs (c : ascii) : bool :=
  match code c with
  | 9 | 10 | 13 | 32 => true
  | _ => false
  end%N.

Fixpoint skip_ws (s : string) : string :=
  match s with
  | String c r => if isWs c then skip_ws r else s
  | "" => ""
  end.

Definition hexVal (c : ascii) : option N :=
  let n := code c in
  if ((48 <=? n) && (n <=? 57))%N then Some (n - 48)%N
  else if ((65 <=? n) && (n <=? 70))%N then Some (n - 55)%N
  else if ((97 <=? n) && (n <=? 102))%N then Some (n - 87)%N
  else None.

Definition hex4 (a b c d : ascii) : option N :=
  match hexVal a, hexVal b, hexVal c, hexVal d with
  | Some x, Some y, Some z, Some w => Some (((x * 16 + y) * 16 + z) * 16 + w)%N
  | _, _, _, _ => None
  end.

Definition simple_escape (c : ascii) : option ascii :=
  match code c with
  | 34 => Some (ascii_of_N 34)    (* quote *)
  | 92 => Some (ascii_of_N 92)    (* backslash *)
  | 47 => Some (ascii_of_N 47)    (* slash *)
  | 98 => Some (ascii_of_N 8)     (* escape b *)
  | 102 => Some (ascii_of_N 12)   (* escape f *)
  | 110 => Some (ascii_of_N 10)   (* escape n *)
  | 114 => Some (ascii_of_N 13)   (* escape r *)
  | 116 => Some (ascii_of_N 9)    (* escape t *)
  | _ => None
  end%N.

Definition cons_char (c : ascii) (r : option (string * string)) :=
  match r with
  | Some (s, rest) => Some (String c s, rest)
  | None => None
  end.

(** The characters of a string literal after its opening quote, up to the
    closing quote.  An escape for a code unit above 255 names a code unit
    that the model does not have. *)
Fixpoint parse_chars (s : string) : option (string * string) :=
  match s with
  | "" => None
  | String c r =>
      if (code c =? 34)%N then Some ("", r)
      else if (code c =? 92)%N then
        match r with
        | String e r1 =>
            match simple_escape e with
            | Some ch => cons_char ch (parse_chars r1)
            | None =>
                if (code e =? 117)%N then
                  match r1 with
                  | String h1 (String h2 (String h3 (String h4 r2))) =>
                      match hex4 h1 h2 h3 h4 with
                      | Some n =>
                          if (n <? 256)%N
                          then cons_char (ascii_of_N n) (parse_chars r2)
                          else None
                      | None => None
                      end
                  | _ => None
                  end
                else None
            end
        | "" => None
        end
      else if (code c <? 32)%N then None
      else cons_char c (parse_chars r)
  end.

(** The longest prefix of digits, and what follows it. *)
Fixpoint span_digits (s : string) : string * string :=
  match s with
  | String c r =>
      if isDigit c then let '(d, rest) := span_digits r in (String c d, rest)
      else ("", s)
  | "" => ("", "")
  end.

(** [s] without its first [n] characters. *)
Fixpoint drop (n : nat) (s : string) : string :=
  match n, s with
  | S n', String _ r => drop n' r
  | _, _ => s
  end.
Arguments drop : simpl never.

(** The decimal with the digits [ds] and the exponent [e], without zeros at
    the end of its mantissa. *)
Definition decimal (neg : bool) (ds : string) (e : Z) : value :=
  let '(ds', z) := strip_zeros_end ds in
  let m := read_digits 0 ds' in
  if (m =? 0)%Z then VNum 0 0
  else VNum (if neg then - m else m) (e + Z.of_nat z).

(** The exponent part of a number, if there is one: e or E, an optional
    sign, and at least one digit. *)
Definition parse_exponent (s : string) : option (Z * string) :=
  if prefix "e" s || prefix "E" s then
    let r := drop 1 s in
    let eneg := prefix "-" r in
    let r1 := if eneg || prefix "+" r then drop 1 r else r in
    let '(ed, rest) := span_digits r1 in
    if ed =? "" then None
    else Some (if eneg then (- read_digits 0 ed)%Z else read_digits 0 ed, rest)
  else Some (0%Z, s).

(** A number: an optional minus sign; the integer part, a single 0 or
    digits that do not start with 0; optionally a point and at least one
    digit; optionally an exponent. *)
Definition parse_number (s : string) : option (value * string) :=
  let neg := prefix "-" s in
  let s1 := if neg then drop 1 s else s in
  let '(ip, s2) := if prefix "0" s1 then ("0", drop 1 s1) else span_digits s1 in
  if ip =? "" then None
  else
    let '(fp, s3) := if prefix "." s2 then span_digits (drop 1 s2) else ("", s2) in
    if prefix "." s2 && (fp =? "") then None
    else
      match parse_exponent s3 with
      | None => None
      | Some (x, rest) =>
          Some (decimal neg (ip ++ fp) (x - Z.of_nat (String.length fp)), rest)
      end.

(** One value, then the elements of an array or the members of an object.
    The fuel bounds the nesting of the calls; twice the length of the text
    is enough of it ([parse_value_fuel] below). *)
Fixpoint parse_value (fuel : nat) (s : string) : option (value * string) :=
  match fuel with
  | O => None
  | S f =>
      match skip_ws s with
      | "" => None
      | String c r as s' =>
          if (code c =? 123)%N then
            if prefix "}" (skip_ws r) then Some (VObj [], drop 1 (skip_ws r))
            else parse_members f [] (skip_ws r)
          else if (code c =? 91)%N then
            if prefix "]" (skip_ws r) then Some (VArr [], drop 1 (skip_ws r))
            else parse_elements f [] (skip_ws r)
          else if (code c =? 34)%N then
            match parse_chars r with
            | Some (str, r') => Some (VStr str, r')
            | None => None
            end
          else if prefix "true" s' then Some (VBool true, drop 4 s')
          else if prefix "false" s' then Some (VBool false, drop 5 s')
          else if prefix "null" s' then Some (VNull, drop 4 s')
          else parse_number s'
      end
  end

with parse_elements (fuel : nat) (acc : list value) (s : string)
  : option (value * string) :=
  match fuel with
  | O => None
  | S f =>
      match parse_value f s with
      | None => None
      | Some (v, r) =>
          match skip_ws r with
          | "" => None
          | String c r' =>
              if (code c =? 44)%N then parse_elements f (acc ++ [v])%list r'
              else if (code c =? 93)%N then Some (VArr (acc ++ [v])%list, r')
              else None
          end
      end
  end

with parse_members (fuel : nat) (acc : object) (s : string)
  : option (value * string) :=
  match fuel with
  | O => None
  | S f =>
      match skip_ws s with
      | "" => None
      | String c r =>
          if (code c =? 34)%N then
            match parse_chars r with
            | None => None
            | Some (k, r1) =>
                match skip_ws r1 with
                | "" => None
                | String c1 r2 =>
                    if (code c1 =? 58)%N then
                      match parse_value f r2 with
                      | None => None
                      | Some (v, r3) =>
                          match skip_ws r3 with
                          | "" => None
                          | String c3 r4 =>
                              if (code c3 =? 44)%N
                              then parse_members f (set_prop k v acc) r4
                              else if (code c3 =? 125)%N
                              then Some (VObj (set_prop k v acc), r4)
                              else None
                          end
                      end
                    else None
                end
            end
          else None
      end
  end.

(** [JSON.parse(text)]: one value, white space around it, nothing else.
    [None] is the SyntaxError. *)
Definition parse (text : string) : option value :=
  match parse_value (2 * String.length text) text with
  | Some (v, r) =>
      match skip_ws r with
      | "" => Some v
      | _ => None
      end
  | None => None
  end.

End Json.

(** ** Title resolver *)

Fixpoint no_line_terminator (s : string) : bool :=
  match s with
  | "" => true
  | String c r => negb (isLineTerminator c) && no_line_terminator r
  end.

Fixpoint last_char (s : string) : option ascii :=
  match s with
  | "" => None
  | String c "" => Some c
  | String _ r => last_char r
  end.

(** What [\s*(.+)$] captures in the text after a colon.  The white space is
    taken greedily and [(.+)] must reach the end of the text without meeting
    a line terminator; when the text is white space only, the run gives its
    last character back to the group. *)
Definition after_colon (r : string) : option string :=
  let rest := trimStart r in
  if rest =? "" then
    match last_char r with
    | Some c => if isLineTerminator c then None else Some (String c "")
    | None => None
    end
  else if no_line_terminator rest then Some rest
  else None.

(** [s.match(/^(.+?):\s*(.+)$/)]: the two groups of the match.  The first
    group is lazy, so the earliest colon after which the rest of the pattern
    matches ends it; it has at least one character ([nonempty] tells that one
    was read) and no line terminator. *)
Fixpoint colon_match_from (nonempty : bool) (s : string) : option (string * string) :=
  match s with
  | "" => None
  | String c r =>
      let longer :=
        if isLineTerminator c then None
        else
          match colon_match_from true r with
          | Some (a, b) => Some (String c a, b)
          | None => None
          end in
      if (code c =? 58)%N && nonempty then
        match after_colon r with
        | Some b => Some ("", b)
        | None => longer
        end
      else longer
  end.

Definition colon_match (s : string) : option (string * string) :=
  colon_match_from false s.

(** The first rule of [cleanTitle]: the result it returns, if it returns. *)
Definition colon_rule (s : string) : option string :=
  match colon_match s with
  | Some (m1, m2) =>
      let A := trim m1 in
      let B := trim m2 in
      if includes (toLowerCase A) (toLowerCase B) then Some A else None
  | None => None
  end.

Definition window_suffix (words : list string) (k : nat) : string :=
  join " " (slice_from words (- Z.of_nat k)).

Definition window_prefix (words : list string) (k : nat) : string :=
  join " " (slice words 0 (- Z.of_nat k)).

Definition window_matches (words : list string) (k : nat) : bool :=
  includes (toLowerCase (window_prefix words k)) (toLowerCase (window_suffix words k)).

(** The loop [for (k = ...; k >= 2; k--)], entered with [k]. *)
Fixpoint window_loop (words : list string) (k : nat) : option string :=
  match k with
  | S (S _ as k') =>
      if window_matches words k then Some (trim (window_prefix words k))
      else window_loop words k'
  | _ => None
  end.

Definition window_start (words : list string) : nat :=
  Nat.min 8 (List.length words / 2).

Definition cleanTitle (s : value) : result string :=
  v <- or_else s (Ok (VStr "")) ;;
  s0 <- ToString v ;;
  let s := trim s0 in
  if s =? "" then Ok s
  else
    match colon_rule s with
    | Some A => Ok A
    | None =>
        let words := split_ws s in
        match window_loop words (window_start words) with
        | Some prefix => Ok prefix
        | None => Ok s
        end
    end.

Definition getTitle (country : string) (p : value) : result value :=
  if country =? "germany" then
    a <- get p "programme_title" ;;
    t <- or_else a (b <- get p "title" ;; or_else b (Ok (VStr ""))) ;;
    s <- cleanTitle t ;;
    Ok (VStr s)
  else if country =? "netherlands" then
    a <- get p "name" ;;
    or_else a (b <- get p "title" ;;
               or_else b (c <- get p "programTitle" ;; or_else c (Ok (VStr ""))))
  else if country =? "sweden" then
    a <- get p "title" ;;
    t <- or_else a (b <- get p "programme_title" ;;
                    or_else b (c <- get p "header_line" ;; or_else c (Ok (VStr "")))) ;;
    s <- cleanTitle t ;;
    Ok (VStr s)
  else if country =? "finland" then
    let nimi lang :=
      d <- get p "detail" ;; n <- get_opt d "nimi" ;; get_opt n lang in
    a <- get p "title" ;;
    t <- or_else a (b <- nimi "en" ;; or_else b (c <- nimi "fi" ;; or_else c (Ok (VStr "")))) ;;
    s <- cleanTitle t ;;
    Ok (VStr s)
  else Ok (VStr "").

(** [v.toLowerCase()]: only a string has the method. *)
Definition call_toLowerCase (v : value) : result string :=
  match v with
  | VStr s => Ok (toLowerCase s)
  | _ => Throw
  end.

(** ** Requests and responses *)

(** The query parameters the handlers read; a parameter is absent or a
    string. *)
Record query : Type := {
  q_country : option string;
  q_q : option string;
  q_page : option string;
  q_pageSize : option string;
  q_level : option string;
  q_deadline : option string
}.

(** [String(param || dflt)] *)
Definition param_or (p : option string) (dflt : string) : string :=
  match p with
  | Some s => if s =? "" then dflt else s
  | None => dflt
  end.

Record body : Type := {
  data : list value;
  total : nat;
  page : num;
  pageSize : num;
  country : option string
}.

Inductive response : Type :=
| Success (b : body)
| Failure (status : Z) (error : string).

Definition effective_page (p : option string) : num :=
  Math_max (Int 1) (parseInt (param_or p "1")).

Definition effective_pageSize (p : option string) : num :=
  Math_min (Int 50) (Math_max (Int 1) (parseInt (param_or p "20"))).

(** [filtered.slice(start, start + pageSize)] with
    [start = (page - 1) * pageSize]. *)
Definition page_slice (filtered : list value) (page pageSize : num) : list value :=
  let start := num_mul (num_sub page (Int 1)) pageSize in
  slice filtered (toInteger start) (toInteger (num_add start pageSize)).

(** The last three statements of both handlers: [total], [start], [data],
    and the object handed to [res.json]. *)
Definition page_body (filtered : list value) (page pageSize : num)
  (country : option string) : body :=
  {| data := page_slice filtered page pageSize;
     total := List.length filtered;
     page := page;
     pageSize := pageSize;
     country := country |}.

(** ** The origins *)

Definition COUNTRY_FILES : list (string * string) :=
  [ ("germany", "daad_programmes.jsonl");
    ("netherlands", "nl_programs.jsonl");
    ("sweden", "sweden_rendered_all.jsonl");
    ("finland", "studyinfoFin_programmes.jsonl") ].

Definition SCHOLAR_FILES_main : string := "scholarships_pk.jsonl".
Definition SCHOLAR_FILES_details : string := "scholar_details.jsonl".

(** The names every object literal inherits from [Object.prototype]; what
    they hold is a function or an object, never a string. *)
Definition Object_prototype : list string :=
  [ "constructor"; "__defineGetter__"; "__defineSetter__"; "hasOwnProperty";
    "__lookupGetter__"; "__lookupSetter__"; "isPrototypeOf";
    "propertyIsEnumerable"; "toString"; "valueOf"; "__proto__";
    "toLocaleString" ].

Inductive member : Type :=
| Own (fileName : string)
| Inherited
| Absent.

Fixpoint assoc (k : string) (l : list (string * string)) : option string :=
  match l with
  | [] => None
  | (k', v) :: l' => if k =? k' then Some v else assoc k l'
  end.

(** [COUNTRY_FILES[k]] *)
Definition COUNTRY_FILES_at (k : string) : member :=
  match assoc k COUNTRY_FILES with
  | Some f => Own f
  | None => if existsb (String.eqb k) Object_prototype then Inherited else Absent
  end.

(** ** The steps lookup: a [Map] *)

Definition map_t := list (value * value).

Fixpoint Map_set (k v : value) (m : map_t) : map_t :=
  match m with
  | [] => [(k, v)]
  | (k', v') :: m' =>
      if sameValueZero k' k then (k', v) :: m' else (k', v') :: Map_set k v m'
  end.

Fixpoint Map_get (k : value) (m : map_t) : value :=
  match m with
  | [] => VUndef
  | (k', v') :: m' => if sameValueZero k' k then v' else Map_get k m'
  end.

(** [d.id ?? d.scholarship_id] *)
Definition identifier (r : value) : result value :=
  a <- get r "id" ;; coalesce a (get r "scholarship_id").

(** The steps list a detail record carries. *)
Definition steps_of (d : value) : result value :=
  st <- get d "steps" ;;
  if isArray st then Ok st
  else
    ap <- get d "application_steps" ;;
    Ok (if isArray ap then ap else VArr []).

(** One turn of the loop over the detail records. *)
Definition add_detail (m : map_t) (d : value) : result map_t :=
  if negb (truthy d) then Ok m
  else
    did <- identifier d ;;
    if nullish did then Ok m
    else
      steps <- steps_of d ;;
      Ok (Map_set did steps m).

Fixpoint build_stepsById (m : map_t) (details : list value) : result map_t :=
  match details with
  | [] => Ok m
  | d :: ds => m' <- add_detail m d ;; build_stepsById m' ds
  end.

(** The own enumerable properties that [{...s}] copies. *)
Fixpoint indexed (i : nat) (l : list value) : object :=
  match l with
  | [] => []
  | x :: xs => (digits_of (N.of_nat i), x) :: indexed (S i) xs
  end.

Fixpoint chars (s : string) : list value :=
  match s with
  | "" => []
  | String c r => VStr (String c "") :: chars r
  end.

Definition spread (s : value) : object :=
  match s with
  | VObj o => o
  | VArr l => indexed 0 l
  | VStr str => indexed 0 (chars str)
  | _ => []
  end.

(** The function mapped over the main records. *)
Definition merge_one (stepsById : map_t) (s : value) : result value :=
  sid <- identifier s ;;
  st <- or_else (Map_get sid stepsById) (Ok (VArr [])) ;;
  Ok (VObj (set_prop "steps" st (spread s))).

Definition merge (main details : list value) : result (list value) :=
  stepsById <- build_stepsById [] details ;;
  mapM (merge_one stepsById) main.

(** ** The filters of the scholarship query *)

Definition or3 (s : value) (k1 k2 k3 : string) : result value :=
  a <- get s k1 ;;
  or_else a (b <- get s k2 ;; or_else b (get s k3)).

Definition country_pass (cc : string) (s : value) : result bool :=
  a <- get s "country" ;;
  v <- or_else a (b <- get s "country_region" ;;
                  or_else b (c <- get s "countryRegion" ;; or_else c (Ok (VStr "")))) ;;
  str <- ToString v ;;
  Ok (toLowerCase (trim str) =? cc).

Definition level_pass (lvl : string) (s : value) : result bool :=
  levels <- or3 s "degree_levels" "degreeLevels" "levels" ;;
  match levels with
  | VArr l => strs <- mapM ToString l ;; Ok (existsb (String.eqb lvl) strs)
  | VStr x => Ok (x =? lvl)
  | _ => Ok false
  end.

Definition deadline_pass (dl : string) (s : value) : result bool :=
  d <- get s "deadline" ;;
  if negb (truthy d) then Ok true
  else str <- ToString d ;; Ok (str_ge str dl).

Definition text_pass (qq : string) (s : value) : result bool :=
  a <- get s "name" ;;
  t <- or_else a (b <- get s "title" ;; or_else b (Ok (VStr ""))) ;;
  tstr <- ToString t ;;
  let title := toLowerCase tstr in
  c <- get s "provider" ;;
  p <- or_else c (d <- get s "organizer" ;; or_else d (Ok (VStr ""))) ;;
  pstr <- ToString p ;;
  let provider := toLowerCase pstr in
  Ok (includes title qq || includes provider qq).

(** [if (param) merged = merged.filter(pred)] *)
Definition filter_if (param : string) (pred : value -> result bool)
  (l : list value) : result (list value) :=
  if param =? "" then Ok l else filterM pred l.

Definition scholarship_filters (country level deadline q : string)
  (merged : list value) : result (list value) :=
  m1 <- filter_if country (country_pass (toLowerCase (trim country))) merged ;;
  m2 <- filter_if level (level_pass (trim level)) m1 ;;
  m3 <- filter_if deadline (deadline_pass deadline) m2 ;;
  filter_if q (text_pass (toLowerCase q)) m3.

(** The filter of the programme query. *)
Definition title_pass (country q : string) (p : value) : result bool :=
  t <- getTitle country p ;;
  v <- or_else t (Ok (VStr "")) ;;
  low <- call_toLowerCase v ;;
  Ok (includes low q).

Definition programme_filter (country q : string) (all : list value)
  : result (list value) :=
  filter_if q (title_pass country q) all.

(** ** The handlers *)

(** A handler runs against the file system and leaves the list of the files
    it asked for, in the order of the reads. *)
Definition io (A : Type) : Type := list string -> result A * list string.

Definition io_ret {A} (r : result A) : io A := fun log => (r, log).

Definition io_bind {A B} (c : io A) (f : A -> io B) : io B :=
  fun log =>
    match c log with
    | (Ok a, log') => f a log'
    | (Throw, log') => (Throw, log')
    end.

Notation "x <~ c1 ;; c2" := (io_bind c1 (fun x => c2))
  (at level 61, c1 at next level, right associativity).

(** [try { ... } catch (e) { res.status(500).json({ error: 'Server error' }) }] *)
Definition try_catch (c : io response) : response * list string :=
  match c [] with
  | (Ok r, log) => (r, log)
  | (Throw, log) => (Failure 500 "Server error", log)
  end.

(** [Promise.all([a, b])]: both computations are started; the result is
    there when both are, and fails when one of them fails. *)
Definition Promise_all2 {A} (a b : io A) : io (A * A) :=
  fun log =>
    let '(ra, log1) := a log in
    let '(rb, log2) := b log1 in
    (x <- ra ;; y <- rb ;; Ok (x, y), log2).

(** The body of the [forEach] of [loadJsonl]. *)
Definition push_line (out : list value) (line : string) : list value :=
  if trim line =? "" then out
  else
    match Json.parse line with
    | Some v => (out ++ [v])%list
    | None => out
    end.

Definition parse_lines (text : string) : list value :=
  fold_left push_line (split_lines text) [].

Section Server.

(** The directory of the server module, and the file system: the text of a
    file, or [None] when the file cannot be read. *)
Variable dirname : string.
Variable readFile : string -> option string.

Definition resolvePrivateFile (fileName : string) : string :=
  dirname ++ "/private/data/" ++ fileName.

Definition loadJsonl (filePath : string) : io (list value) :=
  fun log =>
    (match readFile filePath with
     | Some text => Ok (parse_lines text)
     | None => Throw
     end, (log ++ [filePath])%list).

(** GET /api/courses *)
Definition courses (req : query) : response * list string :=
  try_catch (
    let country := toLowerCase (param_or (q_country req) "germany") in
    let q := toLowerCase (trim (param_or (q_q req) "")) in
    let page := effective_page (q_page req) in
    let pageSize := effective_pageSize (q_pageSize req) in
    match COUNTRY_FILES_at country with
    | Absent => io_ret (Ok (Failure 400 "Unsupported country"))
    | Inherited => io_ret Throw
    | Own fileName =>
        let filePath := resolvePrivateFile fileName in
        all <~ loadJsonl filePath ;;
        filtered <~ io_ret (programme_filter country q all) ;;
        io_ret (Ok (Success (page_body filtered page pageSize (Some country))))
    end).

(** GET /api/scholarships *)
Definition scholarships (req : query) : response * list string :=
  try_catch (
    let q := toLowerCase (trim (param_or (q_q req) "")) in
    let country := trim (param_or (q_country req) "") in
    let level := trim (param_or (q_level req) "") in
    let deadline := trim (param_or (q_deadline req) "") in
    let page := effective_page (q_page req) in
    let pageSize := effective_pageSize (q_pageSize req) in
    let mainPath := resolvePrivateFile SCHOLAR_FILES_main in
    let detailsPath := resolvePrivateFile SCHOLAR_FILES_details in
    loaded <~ Promise_all2 (loadJsonl mainPath) (loadJsonl detailsPath) ;;
    let '(main, details) := loaded in
    merged <~ io_ret (merge main details) ;;
    filtered <~ io_ret (scholarship_filters country level deadline q merged) ;;
    io_ret (Ok (Success (page_body filtered page pageSize None)))).

End Server.

(** * Statements

    What the specification says, in definitions that the properties below
    compare with the code. *)

(** ** The colon rule *)

Fixpoint no_colon (s : string) : bool :=
  match s with
  | "" => true
  | String c r => negb (code c =? 58)%N && no_colon r
  end.

(** The colon rule as the specification words it: the first colon of the
    (trimmed) input splits a non-empty [A] from a non-empty [B], and [A]
    contains [B] when both are in lower case. *)
Definition colon_rule_as_specified (raw : string) : Prop :=
  forall A rest : string,
    trim raw = A ++ ":" ++ rest ->
    no_colon A = true ->
    A <> "" ->
    trim rest <> "" ->
    includes (toLowerCase (trim A)) (toLowerCase (trim rest)) = true ->
    cleanTitle (VStr raw) = Ok (trim A).

(** ** Lines and records *)

Definition LF : string := String "010" "".
Definition CR : string := String "013" "".

Fixpoint no_LF (s : string) : bool :=
  match s with
  | "" => true
  | String c r => negb (code c =? 10)%N && no_LF r
  end.

Fixpoint ends_with_CR (s : string) : bool :=
  match s with
  | "" => false
  | String c "" => (code c =? 13)%N
  | String _ r => ends_with_CR r
  end.

(** The lines of a text whose line breaks are LF and CR LF: each line is
    free of LF, and a line that a bare LF ends does not end with CR (that CR
    would belong to the line break). *)
Inductive line_split : string -> list string -> Prop :=
| line_split_end (l : string) :
    no_LF l = true -> line_split l [l]
| line_split_lf (l rest : string) (ls : list string) :
    no_LF l = true -> ends_with_CR l = false -> line_split rest ls ->
    line_split (l ++ LF ++ rest) (l :: ls)
| line_split_crlf (l rest : string) (ls : list string) :
    no_LF l = true -> line_split rest ls ->
    line_split (l ++ CR ++ LF ++ rest) (l :: ls).

Definition blank (line : string) : bool := trim line =? "".

(** The values of the lines that parse, in the order of the lines. *)
Fixpoint parsed_values (lines : list string) : list value :=
  match lines with
  | [] => []
  | l :: ls =>
      match Json.parse l with
      | Some v => v :: parsed_values ls
      | None => parsed_values ls
      end
  end.

Definition records_of (lines : list string) : list value :=
  parsed_values (filter (fun l => negb (blank l)) lines).

(** The lines of a text under any newline convention: LF, CR LF, or CR
    alone. *)
Fixpoint lines_any_newline (s : string) : list string :=
  let cons_char c pieces :=
    match pieces with
    | l :: ls => String c l :: ls
    | [] => [String c ""]
    end in
  match s with
  | "" => [""]
  | String c r =>
      if (code c =? 10)%N then "" :: lines_any_newline r
      else if (code c =? 13)%N then
        match r with
        | String c' r' =>
            if (code c' =? 10)%N then "" :: lines_any_newline r'
            else "" :: lines_any_newline r
        | "" => "" :: lines_any_newline r
        end
      else cons_char c (lines_any_newline r)
  end.

Definition loadRecords_as_specified (text : string) : list value :=
  records_of (lines_any_newline text).

(** ** Pages *)

(** The records that pass the filters of a request, as the handlers compute
    them from the files; the page parameters play no part in them. *)
Definition programme_results (dirname : string) (readFile : string -> option string)
  (country q : option string) : option (list value) :=
  let country := toLowerCase (param_or country "germany") in
  let q := toLowerCase (trim (param_or q "")) in
  match COUNTRY_FILES_at country with
  | Own fileName =>
      match readFile (resolvePrivateFile dirname fileName) with
      | Some text =>
          match programme_filter country q (parse_lines text) with
          | Ok l => Some l
          | Throw => None
          end
      | None => None
      end
  | _ => None
  end.

Definition scholarship_results (dirname : string) (readFile : string -> option string)
  (country level deadline q : option string) : option (list value) :=
  match readFile (resolvePrivateFile dirname SCHOLAR_FILES_main),
        readFile (resolvePrivateFile dirname SCHOLAR_FILES_details) with
  | Some main, Some details =>
      match merged <- merge (parse_lines main) (parse_lines details) ;;
            scholarship_filters (trim (param_or country ""))
              (trim (param_or level "")) (trim (param_or deadline ""))
              (toLowerCase (trim (param_or q ""))) merged with
      | Ok l => Some l
      | Throw => None
      end
  | _, _ => None
  end.

(** The page [p] of size [ps] of a sequence: its total, and the slice at the
    offset (p - 1) * ps. *)
Definition is_page_of (filtered : list value) (p ps : Z) (b : body) : Prop :=
  let offset := Z.to_nat ((p - 1) * ps) in
  total b = List.length filtered
  /\ data b = firstn (Z.to_nat ps) (skipn offset filtered)
  /\ (List.length (data b) <= Z.to_nat ps)%nat
  /\ ((List.length filtered <= offset)%nat -> data b = []).

Definition with_country (req : query) (c : option string) : query :=
  {| q_country := c;
     q_q := q_q req;
     q_page := q_page req;
     q_pageSize := q_pageSize req;
     q_level := q_level req;
     q_deadline := q_deadline req |}.

(** ** The join and the merge *)

Definition Map_has (k : value) (m : map_t) : bool :=
  existsb (fun kv => sameValueZero (fst kv) k) m.

(** Identity of identifiers as the code compares them. *)
Definition same_value (a b : value) : Prop := sameValueZero a b = true.

(** The instances of loose equality ([==]) that the specification names:
    equal values of one type, and a number against its string form. *)
Inductive loosely_equal : value -> value -> Prop :=
| loose_same (a b : value) :
    sameValueZero a b = true -> loosely_equal a b
| loose_num_str (m e : Z) (s : string) :
    ToString (VNum m e) = Ok s -> loosely_equal (VNum m e) (VStr s)
| loose_str_num (m e : Z) (s : string) :
    ToString (VNum m e) = Ok s -> loosely_equal (VStr s) (VNum m e).

(** The join under an identity [same] of identifiers: the record made for a
    main record carries the steps of the last detail record, in load order,
    whose identifier is the same as its own. *)
Definition join_on (same : value -> value -> Prop) (main details : list value) : Prop :=
  forall (i : nat) (m sid : value) (pre post : list value) (d did st : value),
    Forall (fun s => nullish s = false) main ->
    nth_error main i = Some m ->
    identifier m = Ok sid ->
    details = (pre ++ d :: post)%list ->
    identifier d = Ok did ->
    nullish did = false ->
    same sid did ->
    steps_of d = Ok st ->
    (forall d' did', In d' post -> identifier d' = Ok did' -> ~ same sid did') ->
    exists merged r,
      merge main details = Ok merged
      /\ nth_error merged i = Some r
      /\ get r "steps" = Ok st.

Definition is_object (v : value) : bool :=
  match v with
  | VObj _ => true
  | _ => false
  end.

(** What the loop over the detail records maintains: no key of the lookup is
    [null] or [undefined], and every entry holds a list. *)
Definition steps_map (m : map_t) : Prop :=
  Forall (fun kv => nullish (fst kv) = false /\ isArray (snd kv) = true) m.

(** ** The level filter *)

Definition is_scalar (v : value) : bool :=
  match v with
  | VNull | VBool _ | VNum _ _ | VStr _ => true
  | _ => false
  end.

(** ** The fuel of the parser *)

(** Fuel [g] parses what fuel [f] parses, on the texts of length at most
    [n]. *)
Definition value_fuel (f g n : nat) : Prop :=
  forall s res, String.length s <= n ->
    Json.parse_value f s = Some res -> Json.parse_value g s = Some res.

Definition elements_fuel (f g n : nat) : Prop :=
  forall acc s res, String.length s <= n ->
    Json.parse_elements f acc s = Some res -> Json.parse_elements g acc s = Some res.

Definition members_fuel (f g n : nat) : Prop :=
  forall acc s res, String.length s <= n ->
    Json.parse_members f acc s = Some res -> Json.parse_members g acc s = Some res.

Definition value_shorter (f : nat) : Prop :=
  forall s v r, Json.parse_value f s = Some (v, r) -> String.length r <= String.length s.

(** ** Sample data *)

(** Writes a JSON text with single quotes in place of the double ones. *)
Fixpoint json_text (s : string) : string :=
  match s with
  | "" => ""
  | String c r => String (if (code c =? 39)%N then ascii_of_N 34 else c) (json_text r)
  end.

Definition no_params : query :=
  {| q_country := None; q_q := None; q_page := None; q_pageSize := None;
     q_level := None; q_deadline := None |}.

Definition sample_programmes : string :=
  json_text (join LF
    [ "{'programme_title': 'Physics'}";
      "{'programme_title': 'Data Science: Data Science'}";
      "{'title': 'Master of Arts in Global Studies Global Studies'}";
      "not json";
      "";
      "{'programme_title': 'Chemistry'}";
      "{'programme_title': 'Applied Physics'}" ]).

Definition sample_main : string :=
  json_text (join LF
    [ "{'id': 1, 'name': 'Alpha', 'degree_levels': ['MSc', 'PhD']}";
      "{'scholarship_id': 'b2', 'name': 'Beta', 'degree_levels': 'MSc'}";
      "{'name': 'Gamma'}" ]).

Definition sample_details : string :=
  json_text (join LF
    [ "{'id': '1', 'steps': ['a', 'b']}";
      "{'id': 'b2', 'steps': ['old']}";
      "{'scholarship_id': 'b2', 'application_steps': ['c']}" ]).

Definition sample_dir : string := "/srv".

Definition sample_fs (path : string) : option string :=
  if path =? "/srv/private/data/daad_programmes.jsonl" then Some sample_programmes
  else if path =? "/srv/private/data/scholarships_pk.jsonl" then Some sample_main
  else if path =? "/srv/private/data/scholar_details.jsonl" then Some sample_details
  else None.

Definition physics_page_2 : query :=
  {| q_country := Some "germany"; q_q := Some "physics";
     q_page := Some "2"; q_pageSize := Some "1";
     q_level := None; q_deadline := None |}.

Definition msc_page_2 : query :=
  {| q_country := None; q_q := None;
     q_page := Some "2"; q_pageSize := Some "1";
     q_level := Some "MSc"; q_deadline := None |}.

Definition rec_1 : value := VObj [("id", VNum 1 0); ("name", VStr "Alpha")].
Definition rec_b2 : value := VObj [("scholarship_id", VStr "b2"); ("name", VStr "Beta")].
Definition rec_none : value := VObj [("name", VStr "Gamma")].
Definition det_1s : value := VObj [("id", VStr "1"); ("steps", VArr [VStr "a"; VStr "b"])].
Definition det_b2_old : value := VObj [("id", VStr "b2"); ("steps", VArr [VStr "old"])].
Definition det_b2_new : value :=
  VObj [("scholarship_id", VStr "b2"); ("application_steps", VArr [VStr "c"])].


(** ** The filters of the scholarship query, as one test *)

(** A filter lets a record through when its parameter is empty or its test
    answers true. *)
Definition holds (param : string) (pred : value -> result bool) (r : value) : bool :=
  (param =? "")
  || match pred r with
     | Ok true => true
     | _ => false
     end.

Definition kept (country level deadline q : string) (r : value) : bool :=
  holds country (country_pass (toLowerCase (trim country))) r
  && holds level (level_pass (trim level)) r
  && holds deadline (deadline_pass deadline) r
  && holds q (text_pass (toLowerCase q)) r.

(** ** Records without a title *)

(** The field [k] of the object is missing or holds a falsy value. *)
Definition falsy_at (o : object) (k : string) : bool :=
  match lookup k o with
  | Some v => negb (truthy v)
  | None => true
  end.

(** The fields that [getTitle] reads at the top of a record. *)
Definition title_fields : list string :=
  ["programme_title"; "title"; "header_line"; "name"; "programTitle"; "detail"].

(** ** Flat records *)

(** A value that is a scalar or a list of scalars, and a record all of whose
    fields hold such values. *)
Definition flat (v : value) : bool :=
  match v with
  | VObj _ => false
  | VArr l => forallb is_scalar l
  | _ => true
  end.

Definition flat_record (s : value) : bool :=
  match s with
  | VObj o => forallb (fun kv => flat (snd kv)) o
  | _ => false
  end.

(** What the filters rely on in a merged record: it is an object, and its
    fields other than [steps] are flat. *)
Definition filterable (r : value) : Prop :=
  exists o, r = VObj o
            /\ forall k v, k <> "steps" -> lookup k o = Some v -> flat v = true.

(** ** Records with string titles *)

(** A string, or nothing. *)
Definition stringish (v : value) : bool :=
  match v with
  | VUndef | VNull | VStr _ => true
  | _ => false
  end.

Definition string_or_missing (o : object) (k : string) : bool :=
  match lookup k o with
  | Some v => stringish v
  | None => true
  end.

(** The nested name of a record: where [detail] and its [nimi] are objects,
    the names [en] and [fi] are strings or missing. *)
Definition nimi_ok (o : object) : bool :=
  match lookup "detail" o with
  | Some (VObj d) =>
      match lookup "nimi" d with
      | Some (VObj n) => string_or_missing n "en" && string_or_missing n "fi"
      | _ => true
      end
  | _ => true
  end.

(** A record whose title fields are strings or missing. *)
Definition titled (p : value) : bool :=
  match p with
  | VObj o =>
      forallb (string_or_missing o)
        ["programme_title"; "title"; "header_line"; "name"; "programTitle"]
      && nimi_ok o
  | _ => false
  end.


(** Two records that are the same object up to the [steps] property. *)
Definition same_but_steps (r r' : value) : Prop :=
  exists o o',
    r = VObj o /\ r' = VObj o'
    /\ forall k, k <> "steps" -> lookup k o = lookup k o'.

(** The sample files with another details file. *)
Definition sample_fs_no_details (path : string) : option string :=
  if path =? "/srv/private/data/scholar_details.jsonl" then Some ""
  else sample_fs path.

(** * Properties *)

(** ** Arrays *)

Lemma slice_last {A} (l : list A) (k : nat) :
  0 < k <= List.length l ->
  slice_from l (- Z.of_nat k) = skipn (List.length l - k) l.
Proof.
  intros Hk. unfold slice_from, slice, rel_index.
  destruct (Z.ltb_spec (- Z.of_nat k) 0); [|lia].
  destruct (Z.ltb_spec (Z.of_nat (List.length l)) 0); [lia|].
  rewrite Z.min_id.
  replace (Z.max (Z.of_nat (List.length l) + - Z.of_nat k) 0)
    with (Z.of_nat (List.length l - k)) by lia.
  rewrite Nat2Z.id.
  apply firstn_all2. rewrite length_skipn. lia.
Qed.

Lemma slice_but_last {A} (l : list A) (k : nat) :
  0 < k <= List.length l ->
  slice l 0 (- Z.of_nat k) = firstn (List.length l - k) l.
Proof.
  intros Hk. unfold slice, rel_index.
  destruct (Z.ltb_spec (- Z.of_nat k) 0); [|lia].
  change (0 <? 0)%Z with false. cbv iota.
  replace (Z.min 0 (Z.of_nat (List.length l))) with 0%Z by lia.
  change (Z.to_nat 0) with 0%nat. rewrite skipn_O.
  f_equal. lia.
Qed.

(** ** Strings *)

Lemma trimStart_idem (s : string) : trimStart (trimStart s) = trimStart s.
Proof.
  induction s as [|c r IH]; simpl; [reflexivity|].
  destruct (isWhiteSpace c) eqn:E; [exact IH|].
  simpl. now rewrite E.
Qed.

Lemma trim_trimStart (s : string) : trim (trimStart s) = trim s.
Proof. unfold trim. now rewrite trimStart_idem. Qed.

Lemma no_line_terminator_app (a b : string) :
  no_line_terminator (a ++ b) = no_line_terminator a && no_line_terminator b.
Proof.
  induction a as [|c r IH]; simpl; [reflexivity|].
  rewrite IH. now rewrite andb_assoc.
Qed.

Lemma no_line_terminator_trimStart (s : string) :
  no_line_terminator s = true -> no_line_terminator (trimStart s) = true.
Proof.
  induction s as [|c r IH]; simpl; [easy|].
  intros H. apply andb_true_iff in H as [Hc Hr].
  destruct (isWhiteSpace c); [auto|]. simpl. now rewrite Hc, Hr.
Qed.

Lemma trimStart_empty_trim (s : string) : trimStart s = "" -> trim s = "".
Proof. unfold trim. now intros ->. Qed.

(** ** The title resolver *)

(** The loop stops at the largest matching window, and only there. *)
Lemma window_loop_some (words : list string) (K k : nat) :
  2 <= k <= K ->
  window_matches words k = true ->
  (forall k', k < k' <= K -> window_matches words k' = false) ->
  window_loop words K = Some (trim (window_prefix words k)).
Proof.
  induction K as [|K IH]; intros Hk Hm Hlarger; [lia|].
  destruct K as [|K']; [lia|].
  change (window_loop words (S (S K')))
    with (if window_matches words (S (S K'))
          then Some (trim (window_prefix words (S (S K'))))
          else window_loop words (S K')).
  destruct (Nat.eq_dec k (S (S K'))) as [->|Hne].
  - now rewrite Hm.
  - rewrite (Hlarger (S (S K'))) by lia.
    apply IH; [lia|assumption|]. intros k' Hk'. apply Hlarger. lia.
Qed.

Lemma window_loop_none (words : list string) (K : nat) :
  (forall k, 2 <= k <= K -> window_matches words k = false) ->
  window_loop words K = None.
Proof.
  induction K as [|K IH]; intros Hno; [reflexivity|].
  destruct K as [|K']; [reflexivity|].
  change (window_loop words (S (S K')))
    with (if window_matches words (S (S K'))
          then Some (trim (window_prefix words (S (S K'))))
          else window_loop words (S K')).
  rewrite (Hno (S (S K'))) by lia.
  apply IH. intros k Hk. apply Hno. lia.
Qed.

(** The two windows, in the words of the specification: the last [k] words
    and all the words before them. *)
Lemma window_suffix_eq (words : list string) (k : nat) :
  0 < k <= List.length words ->
  window_suffix words k = join " " (skipn (List.length words - k) words).
Proof. intros H. unfold window_suffix. now rewrite slice_last. Qed.

Lemma window_prefix_eq (words : list string) (k : nat) :
  0 < k <= List.length words ->
  window_prefix words k = join " " (firstn (List.length words - k) words).
Proof. intros H. unfold window_prefix. now rewrite slice_but_last. Qed.

Lemma half_le (n : nat) : n / 2 <= n.
Proof. apply Nat.Div0.div_le_upper_bound. lia. Qed.

Lemma cleanTitle_string (raw : string) :
  cleanTitle (VStr raw) =
  let s := trim raw in
  if s =? "" then Ok s
  else
    match colon_rule s with
    | Some A => Ok A
    | None =>
        match window_loop (split_ws s) (window_start (split_ws s)) with
        | Some prefix => Ok prefix
        | None => Ok s
        end
    end.
Proof.
  unfold cleanTitle, or_else, truthy.
  destruct raw as [|c r]; reflexivity.
Qed.

(** C4: when the colon rule does not fire, the windows k = min(8, n/2), ...,
    2 over the n words of the trimmed input are tried from the largest; the
    first k whose prefix (all but the last k words, joined, in lower case)
    contains its suffix (the last k words, joined, in lower case) returns the
    prefix trimmed, and when no k matches the trimmed input is returned. *)
Theorem cleanTitle_window_rule (raw : string) :
  let s := trim raw in
  let words := split_ws s in
  let n := List.length words in
  let pre k := join " " (firstn (n - k) words) in
  let suf k := join " " (skipn (n - k) words) in
  let matches k := includes (toLowerCase (pre k)) (toLowerCase (suf k)) in
  colon_rule s = None ->
  (forall k,
      2 <= k <= Nat.min 8 (n / 2) ->
      matches k = true ->
      (forall k', k < k' <= Nat.min 8 (n / 2) -> matches k' = false) ->
      cleanTitle (VStr raw) = Ok (trim (pre k)))
  /\ ((forall k, 2 <= k <= Nat.min 8 (n / 2) -> matches k = false) ->
      cleanTitle (VStr raw) = Ok s).
Proof.
  intros s words n pre suf matches Hcolon.
  assert (Hwin : forall k, 2 <= k <= Nat.min 8 (n / 2) ->
                 window_matches words k = matches k
                 /\ window_prefix words k = pre k).
  { intros k Hk. pose proof (half_le n).
    unfold window_matches, matches, pre, suf, n.
    rewrite window_suffix_eq, window_prefix_eq by (fold n; lia). auto. }
  rewrite cleanTitle_string. fold s. cbv zeta. rewrite Hcolon. fold words.
  unfold window_start. fold n.
  split.
  - intros k Hk Hm Hlarger.
    destruct (s =? "") eqn:Es.
    + apply String.eqb_eq in Es. exfalso.
      unfold n, words in Hk. rewrite Es in Hk. simpl in Hk. lia.
    + rewrite (window_loop_some words _ k); try assumption.
      * now rewrite (proj2 (Hwin k Hk)).
      * now rewrite (proj1 (Hwin k Hk)).
      * intros k' Hk'. rewrite (proj1 (Hwin k' ltac:(lia))). now apply Hlarger.
  - intros Hno.
    destruct (s =? ""); [reflexivity|].
    rewrite window_loop_none; [reflexivity|].
    intros k Hk. rewrite (proj1 (Hwin k Hk)). now apply Hno.
Qed.

Lemma cleanTitle_window_rule_witness :
  cleanTitle (VStr "Master of Arts in Global Studies Global Studies")
  = Ok "Master of Arts in Global Studies"
  /\ cleanTitle (VStr "Physics") = Ok "Physics".
Proof.
  split.
  - apply (proj1 (cleanTitle_window_rule
                    "Master of Arts in Global Studies Global Studies"
                    eq_refl) 2).
    + vm_compute. lia.
    + reflexivity.
    + intros k' Hk'.
      assert (Hcase : k' = 3 \/ k' = 4) by (vm_compute in Hk'; lia).
      destruct Hcase as [-> | ->]; reflexivity.
  - apply (proj2 (cleanTitle_window_rule "Physics" eq_refl)).
    intros k Hk. exfalso. vm_compute in Hk. lia.
Defined.

Lemma after_colon_rest (rest : string) :
  trimStart rest <> "" ->
  no_line_terminator rest = true ->
  after_colon rest = Some (trimStart rest).
Proof.
  intros Hne Hlt. unfold after_colon.
  destruct (trimStart rest =? "") eqn:E.
  - apply String.eqb_eq in E. contradiction.
  - now rewrite no_line_terminator_trimStart.
Qed.

(** The lazy first group ends at the first colon when the rest of the pattern
    matches there. *)
Lemma colon_match_first (A rest b : string) (nonempty : bool) :
  no_colon A = true ->
  no_line_terminator A = true ->
  nonempty = true \/ A <> "" ->
  after_colon rest = Some b ->
  colon_match_from nonempty (A ++ ":" ++ rest) = Some (A, b).
Proof.
  revert nonempty. induction A as [|c A' IH]; intros nonempty Hcol Hlt Hne Hafter.
  - destruct Hne as [-> | Hne]; [|contradiction].
    simpl. now rewrite Hafter.
  - simpl in Hcol, Hlt.
    apply andb_true_iff in Hcol as [Hc HA'].
    apply andb_true_iff in Hlt as [Hl HlA'].
    apply negb_true_iff in Hc, Hl.
    change (colon_match_from nonempty (String c A' ++ ":" ++ rest))
      with (let longer :=
              if isLineTerminator c then None
              else match colon_match_from true (A' ++ ":" ++ rest) with
                   | Some (a, b) => Some (String c a, b)
                   | None => None
                   end in
            if (code c =? 58)%N && nonempty then
              match after_colon (A' ++ ":" ++ rest) with
              | Some b => Some ("", b)
              | None => longer
              end
            else longer).
    cbv zeta. rewrite Hc, Hl, (IH true) by auto. reflexivity.
Qed.

(** C5, as the code has it: on a trimmed input without line terminator whose
    first colon splits a non-empty A from a non-empty B, with A containing B
    when both are trimmed and in lower case, cleanTitle returns A trimmed. *)
Theorem cleanTitle_colon_rule (raw A rest : string) :
  trim raw = A ++ ":" ++ rest ->
  no_line_terminator (trim raw) = true ->
  no_colon A = true ->
  A <> "" ->
  trim rest <> "" ->
  includes (toLowerCase (trim A)) (toLowerCase (trim rest)) = true ->
  cleanTitle (VStr raw) = Ok (trim A).
Proof.
  intros Hs Hlt Hcol HA HB Hinc.
  rewrite cleanTitle_string. cbv zeta.
  rewrite Hs in *.
  rewrite no_line_terminator_app in Hlt. apply andb_true_iff in Hlt as [HltA Hlt].
  rewrite no_line_terminator_app in Hlt. apply andb_true_iff in Hlt as [_ Hltr].
  assert (Hts : trimStart rest <> "").
  { intros E. apply HB. now apply trimStart_empty_trim. }
  assert (Hm : colon_match (A ++ ":" ++ rest) = Some (A, trimStart rest)).
  { apply colon_match_first; auto. now apply after_colon_rest. }
  destruct (A ++ ":" ++ rest =? "") eqn:E.
  - apply String.eqb_eq in E. destruct A; discriminate.
  - unfold colon_rule. rewrite Hm, trim_trimStart, Hinc. reflexivity.
Qed.

Lemma cleanTitle_colon_rule_witness :
  cleanTitle (VStr "Data Science: Data Science") = Ok "Data Science".
Proof.
  apply (cleanTitle_colon_rule "Data Science: Data Science" "Data Science" " Data Science");
    solve [reflexivity | discriminate].
Defined.

(** C5, as the specification words it, fails on a title with a line break:
    the pattern of the colon rule does not match across it, and no window
    applies to the three words. *)
Lemma cleanTitle_colon_rule_counterexample :
  ~ colon_rule_as_specified ("foo" ++ LF ++ "bar: bar").
Proof.
  intros H.
  specialize (H ("foo" ++ LF ++ "bar") " bar" eq_refl eq_refl).
  assert (Hret : cleanTitle (VStr ("foo" ++ LF ++ "bar: bar"))
                 = Ok ("foo" ++ LF ++ "bar: bar")) by reflexivity.
  rewrite Hret in H.
  assert (Habs : Ok ("foo" ++ LF ++ "bar: bar") = Ok (trim ("foo" ++ LF ++ "bar")))
    by (apply H; [discriminate | discriminate | reflexivity]).
  discriminate Habs.
Qed.

(** ** Pagination *)

Lemma page_slice_clamped (filtered : list value) (p ps : Z) :
  (1 <= p)%Z -> (1 <= ps)%Z ->
  page_slice filtered (Int p) (Int ps)
  = firstn (Z.to_nat ps) (skipn (Z.to_nat ((p - 1) * ps)) filtered).
Proof.
  intros Hp Hps. unfold page_slice, num_mul, num_sub, num_add, toInteger, slice, rel_index.
  set (len := List.length filtered).
  set (start := ((p - 1) * ps)%Z).
  assert (Hstart : (0 <= start)%Z) by (unfold start; nia).
  destruct (Z.ltb_spec start 0); [lia|].
  destruct (Z.ltb_spec (start + ps) 0); [lia|].
  destruct (Z_le_gt_dec (Z.of_nat len) start) as [Hbeyond|Hin].
  - rewrite !Z.min_r by lia. rewrite Nat2Z.id.
    rewrite (skipn_all2 filtered) by (fold len; lia).
    rewrite (skipn_all2 filtered (n := Z.to_nat start)) by (fold len; lia).
    now rewrite !firstn_nil.
  - rewrite (Z.min_l start) by lia.
    destruct (Z_le_gt_dec (start + ps) (Z.of_nat len)) as [Hfull|Htail].
    + rewrite Z.min_l by lia. f_equal. lia.
    + rewrite Z.min_r by lia.
      rewrite !firstn_all2; [reflexivity| |]; rewrite length_skipn; fold len; lia.
Qed.

Lemma page_body_is_page (filtered : list value) (p ps : Z) (c : option string) :
  (1 <= p)%Z -> (1 <= ps)%Z ->
  is_page_of filtered p ps (page_body filtered (Int p) (Int ps) c).
Proof.
  intros Hp Hps. unfold is_page_of, page_body. cbn [total data].
  rewrite page_slice_clamped by assumption.
  repeat split.
  - rewrite length_firstn. lia.
  - intros Hoff. rewrite skipn_all2 by assumption. apply firstn_nil.
Qed.

Lemma effective_page_int (param : option string) (z : Z) :
  effective_page param = Int z -> (1 <= z)%Z.
Proof.
  unfold effective_page, Math_max.
  destruct (parseInt _); [discriminate|].
  intros [= <-]. lia.
Qed.

Lemma effective_pageSize_int (param : option string) (z : Z) :
  effective_pageSize param = Int z -> (1 <= z <= 50)%Z.
Proof.
  unfold effective_pageSize, Math_min, Math_max.
  destruct (parseInt _); [discriminate|].
  intros [= <-]. lia.
Qed.

(** C6: in both handlers the total is the number of records that pass the
    filters, whatever the page parameters, and the data is the slice of that
    sequence at offset (page - 1) * pageSize, of length at most pageSize,
    empty when the offset is not inside the sequence. *)
Theorem pagination_postcondition (dirname : string)
  (readFile : string -> option string) (req : query) (p ps : Z) :
  effective_page (q_page req) = Int p ->
  effective_pageSize (q_pageSize req) = Int ps ->
  (forall filtered,
      programme_results dirname readFile (q_country req) (q_q req) = Some filtered ->
      exists b, fst (courses dirname readFile req) = Success b
                /\ is_page_of filtered p ps b)
  /\ (forall filtered,
      scholarship_results dirname readFile (q_country req) (q_level req)
        (q_deadline req) (q_q req) = Some filtered ->
      exists b, fst (scholarships dirname readFile req) = Success b
                /\ is_page_of filtered p ps b).
Proof.
  intros Hp Hps.
  pose proof (effective_page_int _ _ Hp) as Hp1.
  pose proof (effective_pageSize_int _ _ Hps) as Hps1.
  split; intros filtered Hres.
  - unfold programme_results in Hres. unfold courses, try_catch, io_bind, io_ret, loadJsonl.
    rewrite Hp, Hps.
    destruct (COUNTRY_FILES_at _); try discriminate.
    destruct (readFile _); try discriminate.
    destruct (programme_filter _ _ _); try discriminate.
    injection Hres as ->.
    eexists. split; [reflexivity|]. apply page_body_is_page; lia.
  - unfold scholarship_results in Hres.
    unfold scholarships, try_catch, io_bind, io_ret, Promise_all2, loadJsonl.
    rewrite Hp, Hps.
    destruct (readFile (resolvePrivateFile dirname SCHOLAR_FILES_main)); try discriminate.
    destruct (readFile (resolvePrivateFile dirname SCHOLAR_FILES_details)); try discriminate.
    cbn [bind].
    destruct (merge _ _); try discriminate.
    cbn [bind] in Hres |- *.
    destruct (scholarship_filters _ _ _ _ _); try discriminate.
    injection Hres as ->.
    eexists. split; [reflexivity|]. apply page_body_is_page; lia.
Qed.

Lemma pagination_postcondition_witness :
  (exists b,
      fst (courses sample_dir sample_fs physics_page_2) = Success b
      /\ is_page_of
           [ VObj [("programme_title", VStr "Physics")];
             VObj [("programme_title", VStr "Applied Physics")] ] 2 1 b)
  /\ (exists b,
      fst (scholarships sample_dir sample_fs msc_page_2) = Success b
      /\ total b = 2%nat).
Proof.
  split.
  - apply (proj1 (pagination_postcondition sample_dir sample_fs physics_page_2
                    2 1 eq_refl eq_refl)).
    reflexivity.
  - destruct (proj2 (pagination_postcondition sample_dir sample_fs msc_page_2
                       2 1 eq_refl eq_refl) _ eq_refl) as [b [Hb Hpage]].
    exists b. split; [exact Hb|]. exact (proj1 Hpage).
Defined.

(** What the clamps do on the inputs that start with a number. *)
Lemma page_clamp_numeric (param : string) (z : Z) :
  param <> "" ->
  parseInt param = Int z ->
  effective_page (Some param) = Int (Z.max 1 z)
  /\ effective_pageSize (Some param) = Int (Z.min 50 (Z.max 1 z)).
Proof.
  intros Hne Hz. unfold effective_page, effective_pageSize, param_or.
  destruct (param =? "") eqn:E; [apply String.eqb_eq in E; contradiction|].
  now rewrite Hz.
Qed.

(** ... and on the inputs that do not: the NaN of [parseInt] goes through
    [Math.max] and [Math.min]. *)
Lemma page_clamp_NaN (param : string) :
  param <> "" ->
  parseInt param = NaN ->
  effective_page (Some param) = NaN /\ effective_pageSize (Some param) = NaN.
Proof.
  intros Hne Hnan. unfold effective_page, effective_pageSize, param_or.
  destruct (param =? "") eqn:E; [apply String.eqb_eq in E; contradiction|].
  now rewrite Hnan.
Qed.

Example page_0 : effective_page (Some "0") = effective_page (Some "1").
Proof. reflexivity. Qed.

Example pageSize_1000 : effective_pageSize (Some "1000") = effective_pageSize (Some "50").
Proof. reflexivity. Qed.

Example pageSize_0 : effective_pageSize (Some "0") = effective_pageSize (Some "1").
Proof. reflexivity. Qed.

(** C3 at a parameter that is not numeric: [parseInt] answers NaN, which
    [Math.max] and [Math.min] hand on, so neither clamp yields an integer;
    the response then has no data and carries the NaN page. *)
Theorem page_clamp_not_a_number :
  effective_page (Some "abc") = NaN
  /\ effective_pageSize (Some "abc") = NaN
  /\ fst (courses sample_dir sample_fs
            {| q_country := None; q_q := None;
               q_page := Some "abc"; q_pageSize := None;
               q_level := None; q_deadline := None |})
     = Success {| data := []; total := 5; page := NaN; pageSize := Int 20;
                  country := Some "germany" |}.
Proof. repeat split. Qed.

(** ** The origin of the programme query *)

(** A name that [COUNTRY_FILES] neither has nor inherits is rejected before
    any file is read. *)
Lemma courses_unknown_origin (dirname : string)
  (readFile : string -> option string) (req : query) :
  let c := toLowerCase (param_or (q_country req) "germany") in
  assoc c COUNTRY_FILES = None ->
  ~ In c Object_prototype ->
  courses dirname readFile req = (Failure 400 "Unsupported country", []).
Proof.
  intros c Hown Hinh. unfold courses, COUNTRY_FILES_at. fold c. rewrite Hown.
  destruct (existsb (String.eqb c) Object_prototype) eqn:E; [|reflexivity].
  exfalso. apply Hinh. apply existsb_exists in E as [x [Hin Heq]].
  apply String.eqb_eq in Heq. now subst.
Qed.

Example courses_france :
  courses sample_dir sample_fs (with_country no_params (Some "france"))
  = (Failure 400 "Unsupported country", []).
Proof. reflexivity. Qed.

Example courses_proto :
  courses sample_dir sample_fs (with_country no_params (Some "__proto__"))
  = (Failure 500 "Server error", []).
Proof. reflexivity. Qed.

(** C2 at the origin [constructor]: it is none of the four tags, yet
    [COUNTRY_FILES] inherits a member of that name, the guard lets it
    through, building the path throws, and the answer is the 500 of the
    catch clause. *)
Theorem courses_inherited_origin (dirname : string)
  (readFile : string -> option string) (q page pageSize level deadline : option string) :
  assoc "constructor" COUNTRY_FILES = None
  /\ courses dirname readFile
       {| q_country := Some "constructor"; q_q := q; q_page := page;
          q_pageSize := pageSize; q_level := level; q_deadline := deadline |}
     = (Failure 500 "Server error", []).
Proof. split; reflexivity. Qed.

(** C10: without a country parameter, or with an empty one, the programme
    query is the query for germany: it is not rejected as unsupported, reads
    the file of germany and no other, filters with the title rule of germany
    and reports germany. *)
Theorem courses_default_origin (dirname : string)
  (readFile : string -> option string) (req : query) :
  q_country req = None \/ q_country req = Some "" ->
  courses dirname readFile req
  = courses dirname readFile (with_country req (Some "germany"))
  /\ fst (courses dirname readFile req) <> Failure 400 "Unsupported country"
  /\ snd (courses dirname readFile req)
     = [resolvePrivateFile dirname "daad_programmes.jsonl"]
  /\ (forall text filtered,
         readFile (resolvePrivateFile dirname "daad_programmes.jsonl") = Some text ->
         programme_filter "germany" (toLowerCase (trim (param_or (q_q req) "")))
           (parse_lines text) = Ok filtered ->
         fst (courses dirname readFile req)
         = Success (page_body filtered (effective_page (q_page req))
                      (effective_pageSize (q_pageSize req)) (Some "germany"))).
Proof.
  intros Hc.
  assert (Hparam : param_or (q_country req) "germany" = "germany")
    by (destruct Hc as [-> | ->]; reflexivity).
  unfold courses, with_country. cbn [q_country q_q q_page q_pageSize].
  rewrite Hparam.
  change (param_or (Some "germany") "germany") with "germany".
  change (COUNTRY_FILES_at (toLowerCase "germany")) with (Own "daad_programmes.jsonl").
  change (toLowerCase "germany") with "germany".
  unfold try_catch, io_bind, io_ret, loadJsonl. cbn [app].
  repeat split.
  - destruct (readFile _); [|discriminate].
    destruct (programme_filter _ _ _); discriminate.
  - destruct (readFile _); [|reflexivity].
    destruct (programme_filter _ _ _); reflexivity.
  - intros text filtered Hread Hfilter. now rewrite Hread, Hfilter.
Qed.

Lemma courses_default_origin_witness :
  courses sample_dir sample_fs no_params
  = courses sample_dir sample_fs (with_country no_params (Some "germany"))
  /\ snd (courses sample_dir sample_fs no_params)
     = ["/srv/private/data/daad_programmes.jsonl"].
Proof.
  pose proof (courses_default_origin sample_dir sample_fs no_params (or_introl eq_refl))
    as [Hsame [_ [Hreads _]]].
  split; [exact Hsame | exact Hreads].
Defined.

(** ** The parser and its fuel *)

Lemma skip_ws_length (s : string) :
  String.length (Json.skip_ws s) <= String.length s.
Proof.
  induction s as [|c r IH]; simpl; [lia|].
  destruct (Json.isWs c); simpl; lia.
Qed.

Lemma drop_length (n : nat) (s : string) :
  String.length (Json.drop n s) <= String.length s.
Proof.
  revert s. induction n as [|n IH]; intros [|c r]; unfold Json.drop; simpl; try lia.
  specialize (IH r). unfold Json.drop in IH. lia.
Qed.

Lemma parse_chars_length_upto (n : nat) (s str r : string) :
  String.length s <= n ->
  Json.parse_chars s = Some (str, r) -> String.length r < String.length s.
Proof.
  revert s str. induction n as [|n IH]; intros s str Hn.
  - destruct s; [discriminate|simpl in Hn; lia].
  - destruct s as [|c s1]; [discriminate|]. simpl in Hn. simpl.
    destruct (code c =? 34)%N.
    { intros [= <- <-]. lia. }
    destruct (code c =? 92)%N.
    + destruct s1 as [|e s2]; [discriminate|]. simpl in Hn.
      destruct (Json.simple_escape e).
      * destruct (Json.parse_chars s2) as [[str' r']|] eqn:E; [|discriminate].
        intros [= <- <-]. apply IH in E; simpl; lia.
      * destruct (code e =? 117)%N; [|discriminate].
        destruct s2 as [|h1 [|h2 [|h3 [|h4 s3]]]]; try discriminate.
        destruct (Json.hex4 h1 h2 h3 h4) as [k|]; [|discriminate].
        destruct (k <? 256)%N; [|discriminate].
        destruct (Json.parse_chars s3) as [[str' r']|] eqn:E; [|discriminate].
        intros [= <- <-]. simpl in Hn. apply IH in E; simpl; lia.
    + destruct (code c <? 32)%N; [discriminate|].
      destruct (Json.parse_chars s1) as [[str' r']|] eqn:E; [|discriminate].
      intros [= <- <-]. apply IH in E; simpl; lia.
Qed.

Lemma parse_chars_length (s str r : string) :
  Json.parse_chars s = Some (str, r) -> String.length r < String.length s.
Proof. now apply (parse_chars_length_upto (String.length s)). Qed.

Lemma span_digits_length (s : string) :
  String.length (snd (Json.span_digits s)) <= String.length s.
Proof.
  induction s as [|c r IH]; simpl; [lia|].
  destruct (isDigit c); simpl; [|lia].
  destruct (Json.span_digits r). simpl in *. lia.
Qed.

Lemma parse_exponent_length (s r : string) (x : Z) :
  Json.parse_exponent s = Some (x, r) -> String.length r <= String.length s.
Proof.
  unfold Json.parse_exponent.
  destruct (prefix "e" s || prefix "E" s); [|now intros [= _ <-]].
  set (t := Json.drop 1 s).
  set (t1 := if prefix "-" t || prefix "+" t then Json.drop 1 t else t).
  pose proof (span_digits_length t1) as H1.
  destruct (Json.span_digits t1) as [ed rest]. simpl in H1.
  destruct (ed =? ""); [discriminate|]. intros [= _ <-].
  pose proof (drop_length 1 s). pose proof (drop_length 1 t).
  assert (String.length t1 <= String.length t)
    by (unfold t1; destruct (prefix "-" t || prefix "+" t); lia).
  fold t in H. lia.
Qed.

Lemma parse_number_length (s r : string) (v : value) :
  Json.parse_number s = Some (v, r) -> String.length r <= String.length s.
Proof.
  unfold Json.parse_number.
  set (s1 := if prefix "-" s then Json.drop 1 s else s).
  assert (H1 : String.length s1 <= String.length s).
  { unfold s1. pose proof (drop_length 1 s). destruct (prefix "-" s); lia. }
  set (p := if prefix "0" s1 then ("0", Json.drop 1 s1) else Json.span_digits s1).
  assert (H2 : String.length (snd p) <= String.length s1).
  { unfold p. destruct (prefix "0" s1); cbn [snd];
      [apply drop_length|apply span_digits_length]. }
  destruct p as [ip s2]. cbn [snd] in H2.
  destruct (ip =? ""); [discriminate|].
  set (p' := if prefix "." s2 then Json.span_digits (Json.drop 1 s2) else ("", s2)).
  assert (H3 : String.length (snd p') <= String.length s2).
  { unfold p'. destruct (prefix "." s2); cbn [snd]; [|lia].
    pose proof (span_digits_length (Json.drop 1 s2)).
    pose proof (drop_length 1 s2). lia. }
  destruct p' as [fp s3]. cbn [snd] in H3.
  destruct (prefix "." s2 && (fp =? "")); [discriminate|].
  destruct (Json.parse_exponent s3) as [[x rest]|] eqn:E; [|discriminate].
  intros [= _ <-]. apply parse_exponent_length in E. lia.
Qed.

Lemma parse_value_step (f g : nat) (s : string) (res : value * string) :
  members_fuel f g (pred (String.length s)) ->
  elements_fuel f g (pred (String.length s)) ->
  Json.parse_value (S f) s = Some res -> Json.parse_value (S g) s = Some res.
Proof.
  intros Hm He. cbn [Json.parse_value].
  pose proof (skip_ws_length s) as Hs.
  destruct (Json.skip_ws s) as [|c r]; [discriminate|]. simpl in Hs.
  pose proof (skip_ws_length r) as Hr.
  destruct (code c =? 123)%N.
  { destruct (prefix "}" (Json.skip_ws r)); [auto|]. apply Hm. lia. }
  destruct (code c =? 91)%N.
  { destruct (prefix "]" (Json.skip_ws r)); [auto|]. apply He. lia. }
  auto.
Qed.

Lemma parse_elements_step (f g : nat) (acc : list value) (s : string)
  (res : value * string) :
  value_shorter f ->
  value_fuel f g (String.length s) ->
  elements_fuel f g (pred (String.length s)) ->
  Json.parse_elements (S f) acc s = Some res ->
  Json.parse_elements (S g) acc s = Some res.
Proof.
  intros Hlen Hv He. cbn [Json.parse_elements].
  destruct (Json.parse_value f s) as [[v r]|] eqn:E; [|discriminate].
  rewrite (Hv s (v, r) (le_n _) E).
  apply Hlen in E. pose proof (skip_ws_length r) as Hr.
  destruct (Json.skip_ws r) as [|c r']; [discriminate|]. simpl in Hr.
  destruct (code c =? 44)%N; [|auto]. apply He. lia.
Qed.

Lemma parse_members_step (f g : nat) (acc : object) (s : string)
  (res : value * string) :
  value_shorter f ->
  value_fuel f g (pred (String.length s)) ->
  members_fuel f g (pred (String.length s)) ->
  Json.parse_members (S f) acc s = Some res ->
  Json.parse_members (S g) acc s = Some res.
Proof.
  intros Hlen Hv Hm. cbn [Json.parse_members].
  pose proof (skip_ws_length s) as Hs.
  destruct (Json.skip_ws s) as [|c r]; [discriminate|]. simpl in Hs.
  destruct (code c =? 34)%N; [|discriminate].
  destruct (Json.parse_chars r) as [[k r1]|] eqn:Ek; [|discriminate].
  apply parse_chars_length in Ek.
  pose proof (skip_ws_length r1) as Hr1.
  destruct (Json.skip_ws r1) as [|c1 r2]; [discriminate|]. simpl in Hr1.
  destruct (code c1 =? 58)%N; [|discriminate].
  destruct (Json.parse_value f r2) as [[v r3]|] eqn:E; [|discriminate].
  rewrite (Hv r2 (v, r3) ltac:(lia) E).
  apply Hlen in E. pose proof (skip_ws_length r3) as Hr3.
  destruct (Json.skip_ws r3) as [|c3 r4]; [discriminate|]. simpl in Hr3.
  destruct (code c3 =? 44)%N; [|auto]. apply Hm. lia.
Qed.

(** What is left after a value, the elements or the members is not longer
    than the text. *)
Lemma parse_shorter (f : nat) :
  value_shorter f
  /\ (forall acc s v r, Json.parse_elements f acc s = Some (v, r) ->
        String.length r <= String.length s)
  /\ (forall acc s v r, Json.parse_members f acc s = Some (v, r) ->
        String.length r <= String.length s).
Proof.
  induction f as [|f [IHv [IHe IHm]]]; [repeat split; discriminate|].
  repeat split.
  - intros s v r. cbn [Json.parse_value].
    pose proof (skip_ws_length s) as Hs.
    destruct (Json.skip_ws s) as [|c r0] eqn:Es; [discriminate|]. simpl in Hs.
    pose proof (skip_ws_length r0) as Hr0.
    pose proof (drop_length 1 (Json.skip_ws r0)) as Hd.
    destruct (code c =? 123)%N.
    { destruct (prefix "}" (Json.skip_ws r0)).
      - intros [= _ <-]. lia.
      - intros H. apply IHm in H. lia. }
    destruct (code c =? 91)%N.
    { destruct (prefix "]" (Json.skip_ws r0)).
      - intros [= _ <-]. lia.
      - intros H. apply IHe in H. lia. }
    destruct (code c =? 34)%N.
    { destruct (Json.parse_chars r0) as [[str r']|] eqn:E; [|discriminate].
      intros [= _ <-]. apply parse_chars_length in E. lia. }
    pose proof (drop_length 4 (String c r0)) as Hd4.
    pose proof (drop_length 5 (String c r0)) as Hd5.
    cbn [String.length] in Hd4, Hd5.
    destruct (prefix "true" (String c r0)); [intros [= _ <-]; lia|].
    destruct (prefix "false" (String c r0)); [intros [= _ <-]; lia|].
    destruct (prefix "null" (String c r0)); [intros [= _ <-]; lia|].
    intros H. apply parse_number_length in H. simpl in H. lia.
  - intros acc s v r. cbn [Json.parse_elements].
    destruct (Json.parse_value f s) as [[v0 r0]|] eqn:E; [|discriminate].
    apply IHv in E. pose proof (skip_ws_length r0) as Hr0.
    destruct (Json.skip_ws r0) as [|c r']; [discriminate|]. simpl in Hr0.
    destruct (code c =? 44)%N.
    + intros H. apply IHe in H. lia.
    + destruct (code c =? 93)%N; [|discriminate]. intros [= _ <-]. lia.
  - intros acc s v r. cbn [Json.parse_members].
    pose proof (skip_ws_length s) as Hs.
    destruct (Json.skip_ws s) as [|c r0]; [discriminate|]. simpl in Hs.
    destruct (code c =? 34)%N; [|discriminate].
    destruct (Json.parse_chars r0) as [[k r1]|] eqn:Ek; [|discriminate].
    apply parse_chars_length in Ek.
    pose proof (skip_ws_length r1) as Hr1.
    destruct (Json.skip_ws r1) as [|c1 r2]; [discriminate|]. simpl in Hr1.
    destruct (code c1 =? 58)%N; [|discriminate].
    destruct (Json.parse_value f r2) as [[v0 r3]|] eqn:E; [|discriminate].
    apply IHv in E. pose proof (skip_ws_length r3) as Hr3.
    destruct (Json.skip_ws r3) as [|c3 r4]; [discriminate|]. simpl in Hr3.
    destruct (code c3 =? 44)%N.
    + intros H. apply IHm in H. lia.
    + destruct (code c3 =? 125)%N; [|discriminate]. intros [= _ <-]. lia.
Qed.

(** More fuel changes no result. *)
Lemma parse_fuel_succ (f : nat) :
  (forall s res, Json.parse_value f s = Some res -> Json.parse_value (S f) s = Some res)
  /\ (forall acc s res, Json.parse_elements f acc s = Some res ->
        Json.parse_elements (S f) acc s = Some res)
  /\ (forall acc s res, Json.parse_members f acc s = Some res ->
        Json.parse_members (S f) acc s = Some res).
Proof.
  induction f as [|f [IHv [IHe IHm]]]; [repeat split; discriminate|].
  pose proof (proj1 (parse_shorter f)) as Hlen.
  repeat split.
  - intros s res. apply parse_value_step; red; auto.
  - intros acc s res. apply parse_elements_step; [assumption| |]; red; auto.
  - intros acc s res. apply parse_members_step; [assumption| |]; red; auto.
Qed.

Lemma parse_fuel_le (f g : nat) :
  f <= g ->
  (forall s res, Json.parse_value f s = Some res -> Json.parse_value g s = Some res)
  /\ (forall acc s res, Json.parse_elements f acc s = Some res ->
        Json.parse_elements g acc s = Some res)
  /\ (forall acc s res, Json.parse_members f acc s = Some res ->
        Json.parse_members g acc s = Some res).
Proof.
  induction 1 as [|g _ [IHv [IHe IHm]]]; [auto|].
  destruct (parse_fuel_succ g) as [Sv [Se Sm]].
  repeat split; auto.
Qed.

(** Whatever some fuel parses, twice the length of the text parses. *)
Lemma parse_fuel_bound (f : nat) :
  (forall s res, Json.parse_value f s = Some res ->
     Json.parse_value (2 * String.length s) s = Some res)
  /\ (forall acc s res, Json.parse_elements f acc s = Some res ->
        Json.parse_elements (2 * String.length s + 1) acc s = Some res)
  /\ (forall acc s res, Json.parse_members f acc s = Some res ->
        Json.parse_members (2 * String.length s) acc s = Some res).
Proof.
  induction f as [|f [IHv [IHe IHm]]]; [repeat split; discriminate|].
  pose proof (proj1 (parse_shorter f)) as Hlen.
  repeat split.
  - intros s res H.
    destruct s as [|c r]; [discriminate|].
    replace (2 * String.length (String c r)) with (S (2 * String.length r + 1))
      by (simpl; lia).
    revert H. apply parse_value_step.
    + intros acc s' res' Hs' H. apply IHm in H. revert H.
      apply (parse_fuel_le (2 * String.length s')). simpl in Hs'. lia.
    + intros acc s' res' Hs' H. apply IHe in H. revert H.
      apply (parse_fuel_le (2 * String.length s' + 1)). simpl in Hs'. lia.
  - intros acc s res H.
    destruct s as [|c r]; [destruct f; discriminate|].
    replace (2 * String.length (String c r) + 1)
      with (S (2 * String.length (String c r))) by lia.
    revert H. apply parse_elements_step; [assumption| |].
    + intros s' res' Hs' H. apply IHv in H. revert H.
      apply (parse_fuel_le (2 * String.length s')). lia.
    + intros acc' s' res' Hs' H. apply IHe in H. revert H.
      apply (parse_fuel_le (2 * String.length s' + 1)). simpl in Hs' |- *. lia.
  - intros acc s res H.
    destruct s as [|c r]; [discriminate|].
    replace (2 * String.length (String c r)) with (S (2 * String.length r + 1))
      by (simpl; lia).
    revert H. apply parse_members_step; [assumption| |].
    + intros s' res' Hs' H. apply IHv in H. revert H.
      apply (parse_fuel_le (2 * String.length s')). simpl in Hs'. lia.
    + intros acc' s' res' Hs' H. apply IHm in H. revert H.
      apply (parse_fuel_le (2 * String.length s')). simpl in Hs'. lia.
Qed.

(** The fuel that [parse] gives is enough: with any fuel at least as large
    the parser answers the same, be it a value or a failure. *)
Theorem parse_value_fuel (f : nat) (text : string) :
  2 * String.length text <= f ->
  Json.parse_value f text = Json.parse_value (2 * String.length text) text.
Proof.
  intros Hf.
  destruct (Json.parse_value (2 * String.length text) text) as [res|] eqn:E.
  - revert E. now apply parse_fuel_le.
  - destruct (Json.parse_value f text) as [res|] eqn:E'; [|reflexivity].
    apply (proj1 (parse_fuel_bound f)) in E'. congruence.
Qed.

(** ** Lines *)

Lemma code_inj (c : ascii) (n : N) : code c = n -> c = ascii_of_N n.
Proof. intros <-. unfold code. now rewrite ascii_N_embedding. Qed.

Lemma split_lines_cons (c : ascii) (r : string) :
  (code c =? 10)%N = false ->
  (forall c' r', r = String c' r' -> ((code c =? 13) && (code c' =? 10))%N = false) ->
  split_lines (String c r)
  = match split_lines r with
    | l :: ls => String c l :: ls
    | [] => [String c ""]
    end.
Proof.
  intros Hc Hnext. destruct r as [|c' r'].
  - simpl. now rewrite Hc.
  - change (split_lines (String c (String c' r')))
      with (if (code c =? 10)%N then "" :: split_lines (String c' r')
            else if ((code c =? 13) && (code c' =? 10))%N then "" :: split_lines r'
            else match split_lines (String c' r') with
                 | l :: ls => String c l :: ls
                 | [] => [String c ""]
                 end).
    now rewrite Hc, (Hnext c' r' eq_refl).
Qed.

Lemma line_split_cons (c : ascii) (r : string) (ls : list string) :
  line_split r ls ->
  (code c =? 10)%N = false ->
  (forall c' r', r = String c' r' -> ((code c =? 13) && (code c' =? 10))%N = false) ->
  line_split (String c r)
    match ls with
    | l :: ls' => String c l :: ls'
    | [] => [String c ""]
    end.
Proof.
  intros Hsplit Hc Hnext. destruct Hsplit as [l Hl | l rest ls Hl Hcr Hrest | l rest ls Hl Hrest].
  - apply line_split_end. simpl. now rewrite Hc, Hl.
  - change (String c (l ++ LF ++ rest)) with (String c l ++ LF ++ rest).
    apply line_split_lf; [simpl; now rewrite Hc, Hl| |assumption].
    destruct l as [|c0 l0]; [|exact Hcr].
    simpl. specialize (Hnext "010"%char rest eq_refl).
    now rewrite andb_true_r in Hnext.
  - change (String c (l ++ CR ++ LF ++ rest)) with (String c l ++ CR ++ LF ++ rest).
    apply line_split_crlf; [simpl; now rewrite Hc, Hl|assumption].
Qed.

Lemma split_lines_sound_upto (n : nat) (s : string) :
  String.length s <= n -> line_split s (split_lines s).
Proof.
  revert s. induction n as [|n IH]; intros s Hlen.
  - destruct s; [|simpl in Hlen; lia]. now apply line_split_end.
  - destruct s as [|c r]; [now apply line_split_end|].
    simpl in Hlen.
    destruct (code c =? 10)%N eqn:Hc.
    + apply N.eqb_eq, code_inj in Hc. subst c.
      change (split_lines (String (ascii_of_N 10) r)) with ("" :: split_lines r).
      apply (line_split_lf "" r); [reflexivity|reflexivity|]. apply IH. lia.
    + destruct r as [|c' r'].
      * rewrite split_lines_cons; [|assumption|discriminate].
        apply line_split_end. simpl. now rewrite Hc.
      * destruct ((code c =? 13) && (code c' =? 10))%N eqn:Hcrlf.
        -- apply andb_true_iff in Hcrlf as [H13 H10].
           apply N.eqb_eq, code_inj in H13, H10. subst c c'.
           change (split_lines (String (ascii_of_N 13) (String (ascii_of_N 10) r')))
             with ("" :: split_lines r').
           apply (line_split_crlf "" r'); [reflexivity|]. apply IH. simpl in Hlen. lia.
        -- rewrite split_lines_cons; [|assumption|now intros ? ? [= <- <-]].
           apply line_split_cons; [apply IH; lia|assumption|now intros ? ? [= <- <-]].
Qed.

(** [split] gives the lines of the text. *)
Lemma split_lines_sound (s : string) : line_split s (split_lines s).
Proof. now apply (split_lines_sound_upto (String.length s)). Qed.

Lemma split_lines_no_LF (l : string) : no_LF l = true -> split_lines l = [l].
Proof.
  induction l as [|c r IH]; [reflexivity|]. simpl no_LF.
  intros H. apply andb_true_iff in H as [Hc Hr]. apply negb_true_iff in Hc.
  rewrite split_lines_cons, (IH Hr); [reflexivity|assumption|].
  intros c' r' ->. simpl in Hr. apply andb_true_iff in Hr as [Hc' _].
  apply negb_true_iff in Hc'. now rewrite Hc', andb_false_r.
Qed.

Lemma split_lines_lf (l rest : string) :
  no_LF l = true -> ends_with_CR l = false ->
  split_lines (l ++ LF ++ rest) = l :: split_lines rest.
Proof.
  induction l as [|c r IH]; [reflexivity|]. simpl no_LF.
  intros H Hcr. apply andb_true_iff in H as [Hc Hr]. apply negb_true_iff in Hc.
  change (String c r ++ LF ++ rest) with (String c (r ++ LF ++ rest)).
  rewrite split_lines_cons, IH; [reflexivity|assumption| |assumption|].
  - destruct r; [reflexivity|exact Hcr].
  - intros c' r' Heq. destruct r as [|c0 r0].
    + simpl in Hcr. now rewrite Hcr.
    + injection Heq as <- _. simpl in Hr. apply andb_true_iff in Hr as [Hc0 _].
      apply negb_true_iff in Hc0. now rewrite Hc0, andb_false_r.
Qed.

Lemma split_lines_crlf (l rest : string) :
  no_LF l = true ->
  split_lines (l ++ CR ++ LF ++ rest) = l :: split_lines rest.
Proof.
  induction l as [|c r IH]; [reflexivity|]. simpl no_LF.
  intros H. apply andb_true_iff in H as [Hc Hr]. apply negb_true_iff in Hc.
  change (String c r ++ CR ++ LF ++ rest) with (String c (r ++ CR ++ LF ++ rest)).
  rewrite split_lines_cons, IH; [reflexivity|assumption|assumption|].
  intros c' r' Heq. destruct r as [|c0 r0].
  - injection Heq as <- _. now rewrite andb_false_r.
  - injection Heq as <- _. simpl in Hr. apply andb_true_iff in Hr as [Hc0 _].
    apply negb_true_iff in Hc0. now rewrite Hc0, andb_false_r.
Qed.

(** ... and the lines of a text are what [split] gives. *)
Lemma split_lines_complete (s : string) (ls : list string) :
  line_split s ls -> ls = split_lines s.
Proof.
  induction 1 as [l Hl | l rest ls Hl Hcr _ IH | l rest ls Hl _ IH].
  - now rewrite split_lines_no_LF.
  - now rewrite split_lines_lf, IH.
  - now rewrite split_lines_crlf, IH.
Qed.

(** ** The loader *)

(** The loop that pushes onto [out] adds the values of the non-blank lines
    that parse, in order, after what [out] held. *)
Lemma push_lines (lines : list string) (out : list value) :
  fold_left push_line lines out = (out ++ records_of lines)%list.
Proof.
  revert out. induction lines as [|l ls IH]; intros out.
  - simpl. now rewrite app_nil_r.
  - simpl. rewrite IH. unfold push_line, records_of, blank. simpl.
    destruct (trim l =? ""); simpl; [reflexivity|].
    destruct (Json.parse l); [|reflexivity].
    now rewrite <- app_assoc.
Qed.

Lemma parse_lines_records (text : string) :
  parse_lines text = records_of (split_lines text).
Proof. unfold parse_lines. now rewrite push_lines. Qed.

(** A blank line would not parse either: skipping it drops nothing. *)
Lemma parsed_values_sublist (lines : list string) (v : value) :
  In v (parsed_values lines) -> exists l, In l lines /\ Json.parse l = Some v.
Proof.
  induction lines as [|l ls IH]; simpl; [easy|].
  destruct (Json.parse l) eqn:E.
  - intros [<- | Hin]; [eauto|]. destruct (IH Hin) as [l' [? ?]]. eauto.
  - intros Hin. destruct (IH Hin) as [l' [? ?]]. eauto.
Qed.

(** C9, as the code has it: the text is split into lines at every LF and
    CR LF (a CR alone is no line break); the blank lines are skipped, the
    lines that do not parse are dropped without an error, and the result is
    the values of the lines that parse, in the order of the file.  A file
    that cannot be read makes the load fail.  Either way the read is
    recorded. *)
Theorem loadJsonl_records (readFile : string -> option string)
  (filePath : string) (log : list string) :
  match readFile filePath with
  | Some text =>
      exists lines,
        line_split text lines
        /\ loadJsonl readFile filePath log
           = (Ok (records_of lines), (log ++ [filePath])%list)
  | None => loadJsonl readFile filePath log = (Throw, (log ++ [filePath])%list)
  end.
Proof.
  unfold loadJsonl. destruct (readFile filePath) as [text|]; [|reflexivity].
  exists (split_lines text). split; [apply split_lines_sound|].
  now rewrite parse_lines_records.
Qed.

(** C9, as the specification words it, fails on a text whose lines end with
    CR alone: the code sees one line, which does not parse. *)
Lemma loadJsonl_any_newline_counterexample :
  parse_lines ("1" ++ CR ++ "2") <> loadRecords_as_specified ("1" ++ CR ++ "2").
Proof. discriminate. Qed.

Example lines_ending_with_CR :
  parse_lines ("1" ++ CR ++ "2") = []
  /\ loadRecords_as_specified ("1" ++ CR ++ "2") = [VNum 1 0; VNum 2 0].
Proof. split; reflexivity. Qed.

(** ** Identity of map keys *)

Lemma number_eqb_base (m1 e1 m2 e2 L : Z) :
  (L <= Z.min e1 e2)%Z ->
  number_eqb m1 e1 m2 e2 = true <-> (m1 * 10 ^ (e1 - L) = m2 * 10 ^ (e2 - L))%Z.
Proof.
  intros HL. unfold number_eqb. rewrite Z.eqb_eq.
  set (lo := Z.min e1 e2) in *.
  assert (Hpos : (0 < 10 ^ (lo - L))%Z) by (apply Z.pow_pos_nonneg; lia).
  replace (e1 - L)%Z with ((e1 - lo) + (lo - L))%Z by lia.
  replace (e2 - L)%Z with ((e2 - lo) + (lo - L))%Z by lia.
  rewrite !Z.pow_add_r by lia.
  rewrite !Z.mul_assoc.
  split; intros H.
  - now rewrite H.
  - apply Z.mul_reg_r in H; [assumption|lia].
Qed.

Lemma number_eqb_sym (m1 e1 m2 e2 : Z) :
  number_eqb m1 e1 m2 e2 = number_eqb m2 e2 m1 e1.
Proof. unfold number_eqb. rewrite (Z.min_comm e2 e1). apply Z.eqb_sym. Qed.

Lemma number_eqb_trans (m1 e1 m2 e2 m3 e3 : Z) :
  number_eqb m1 e1 m2 e2 = true ->
  number_eqb m2 e2 m3 e3 = true ->
  number_eqb m1 e1 m3 e3 = true.
Proof.
  intros H12 H23.
  set (L := Z.min e1 (Z.min e2 e3)).
  apply (number_eqb_base _ _ _ _ L) in H12; [|lia].
  apply (number_eqb_base _ _ _ _ L) in H23; [|lia].
  apply (number_eqb_base _ _ _ _ L); [lia|]. congruence.
Qed.

Lemma sameValueZero_sym (a b : value) : sameValueZero a b = sameValueZero b a.
Proof.
  destruct a, b; simpl; try reflexivity.
  - destruct b, b0; reflexivity.
  - apply number_eqb_sym.
  - apply String.eqb_sym.
Qed.

Lemma sameValueZero_trans (a b c : value) :
  sameValueZero a b = true -> sameValueZero b c = true -> sameValueZero a c = true.
Proof.
  destruct a, b; simpl; try discriminate; destruct c; simpl; try discriminate; auto.
  - destruct b, b0, b1; auto.
  - apply number_eqb_trans.
  - rewrite !String.eqb_eq. congruence.
Qed.

(** A key is found exactly when it is the same as the key just set. *)
Lemma Map_get_set (k k' v : value) (m : map_t) :
  Map_get k (Map_set k' v m) = if sameValueZero k' k then v else Map_get k m.
Proof.
  induction m as [|[k0 v0] m IH]; simpl; [reflexivity|].
  destruct (sameValueZero k0 k') eqn:E0; simpl.
  - destruct (sameValueZero k' k) eqn:E1.
    + now rewrite (sameValueZero_trans _ _ _ E0 E1).
    + destruct (sameValueZero k0 k) eqn:E2; [|reflexivity].
      rewrite sameValueZero_sym in E0.
      now rewrite (sameValueZero_trans _ _ _ E0 E2) in E1.
  - destruct (sameValueZero k0 k) eqn:E2.
    + destruct (sameValueZero k' k) eqn:E1; [|reflexivity].
      rewrite sameValueZero_sym in E1.
      now rewrite (sameValueZero_trans _ _ _ E2 E1) in E0.
    + exact IH.
Qed.

(** ** Objects *)

Lemma lookup_set_prop_same (k : string) (v : value) (o : object) :
  lookup k (set_prop k v o) = Some v.
Proof.
  induction o as [|[k0 v0] o IH]; simpl.
  - now rewrite String.eqb_refl.
  - destruct (k =? k0) eqn:E; simpl; rewrite E; [reflexivity|exact IH].
Qed.

Lemma lookup_set_prop_other (k k' : string) (v : value) (o : object) :
  k' <> k -> lookup k' (set_prop k v o) = lookup k' o.
Proof.
  intros Hne. induction o as [|[k0 v0] o IH]; simpl.
  - apply String.eqb_neq in Hne. now rewrite Hne.
  - destruct (k =? k0) eqn:E; simpl.
    + apply String.eqb_eq in E. subst k0.
      apply String.eqb_neq in Hne. now rewrite Hne.
    + now rewrite IH.
Qed.

(** ** The error monad *)

Lemma mapM_total {A B} (f : A -> result B) (l : list A) :
  Forall (fun x => exists y, f x = Ok y) l ->
  exists l', mapM f l = Ok l'
             /\ List.length l' = List.length l
             /\ forall i x, nth_error l i = Some x ->
                            exists y, nth_error l' i = Some y /\ f x = Ok y.
Proof.
  induction 1 as [|x l [y Hy] _ [l' [Hl' [Hlen Hnth]]]].
  - exists []. repeat split. intros [|i] x; discriminate.
  - exists (y :: l'). simpl. rewrite Hy, Hl'. simpl. repeat split.
    + now rewrite Hlen.
    + intros [|i] x' Hx'; simpl in *.
      * injection Hx' as <-. eauto.
      * now apply Hnth.
Qed.

(** ** The steps lookup *)

Lemma get_ok (v : value) (k : string) :
  nullish v = false -> exists x, get v k = Ok x.
Proof. destruct v; simpl; try discriminate; eauto. Qed.

Lemma truthy_not_nullish (v : value) : truthy v = true -> nullish v = false.
Proof. destruct v; simpl; auto; discriminate. Qed.

Lemma identifier_ok (v : value) :
  nullish v = false -> exists sid, identifier v = Ok sid.
Proof.
  intros H. unfold identifier.
  destruct (get_ok v "id" H) as [a ->], (get_ok v "scholarship_id" H) as [b Hb].
  simpl. unfold coalesce. rewrite Hb. destruct (nullish a); eauto.
Qed.

(** Only a record that is not skipped by [if (!d) continue] has an
    identifier. *)
Lemma identifier_truthy (d did : value) :
  identifier d = Ok did -> nullish did = false -> truthy d = true.
Proof.
  destruct d; simpl; try discriminate; try reflexivity;
    unfold identifier; simpl; intros [= <-]; discriminate.
Qed.

Lemma steps_of_ok (d : value) :
  nullish d = false -> exists st, steps_of d = Ok st.
Proof.
  intros H. unfold steps_of.
  destruct (get_ok d "steps" H) as [a ->], (get_ok d "application_steps" H) as [b ->].
  simpl. destruct (isArray a); eauto.
Qed.

Lemma steps_of_array (d st : value) : steps_of d = Ok st -> isArray st = true.
Proof.
  unfold steps_of. destruct (get d "steps") as [a|]; simpl; [|discriminate].
  destruct (isArray a) eqn:Ea; [now intros [= <-]|].
  destruct (get d "application_steps") as [b|]; simpl; [|discriminate].
  destruct (isArray b) eqn:Eb; now intros [= <-].
Qed.

Lemma add_detail_found (m : map_t) (d did st : value) :
  identifier d = Ok did ->
  nullish did = false ->
  steps_of d = Ok st ->
  add_detail m d = Ok (Map_set did st m).
Proof.
  intros Hid Hnn Hst. unfold add_detail.
  rewrite (identifier_truthy d did Hid Hnn). simpl.
  rewrite Hid. simpl. rewrite Hnn, Hst. reflexivity.
Qed.

(** A turn of the loop never throws: it leaves the lookup as it is, or sets
    the steps of the record at its identifier. *)
Lemma add_detail_cases (m : map_t) (d : value) :
  add_detail m d = Ok m
  \/ exists did st,
       identifier d = Ok did /\ nullish did = false /\ steps_of d = Ok st
       /\ add_detail m d = Ok (Map_set did st m).
Proof.
  unfold add_detail. destruct (truthy d) eqn:Ht; simpl; [|now left].
  apply truthy_not_nullish in Ht.
  destruct (identifier_ok d Ht) as [did Hid], (steps_of_ok d Ht) as [st Hst].
  rewrite Hid. simpl. destruct (nullish did) eqn:Hnn; [now left|].
  right. exists did, st. rewrite Hst. simpl. auto.
Qed.

Lemma build_stepsById_app (m : map_t) (pre post : list value) :
  build_stepsById m (pre ++ post)
  = (m1 <- build_stepsById m pre ;; build_stepsById m1 post).
Proof.
  revert m. induction pre as [|d pre IH]; intros m; simpl; [reflexivity|].
  destruct (add_detail m d); simpl; [apply IH|reflexivity].
Qed.

Lemma build_stepsById_total (details : list value) (m : map_t) :
  exists m', build_stepsById m details = Ok m'.
Proof.
  revert m. induction details as [|d ds IH]; intros m; simpl; [eauto|].
  destruct (add_detail_cases m d) as [-> | [did [st [_ [_ [_ ->]]]]]]; simpl; apply IH.
Qed.

(** The records after the last one with the identifier [sid] leave the entry
    of [sid] as it is. *)
Lemma build_stepsById_later (sid : value) (post : list value) (m : map_t) :
  (forall d' did', In d' post -> identifier d' = Ok did' -> ~ same_value sid did') ->
  exists m', build_stepsById m post = Ok m' /\ Map_get sid m' = Map_get sid m.
Proof.
  revert m. induction post as [|d ds IH]; intros m Hlater; simpl; [eauto|].
  destruct (add_detail_cases m d) as [-> | [did [st [Hid [_ [_ ->]]]]]]; simpl.
  - apply IH. intros d' did' Hin. apply Hlater. now right.
  - destruct (IH (Map_set did st m)) as [m' [Hm' Hget]].
    { intros d' did' Hin. apply Hlater. now right. }
    exists m'. split; [assumption|]. rewrite Hget, Map_get_set.
    destruct (sameValueZero did sid) eqn:E; [|reflexivity].
    exfalso. apply (Hlater d did (or_introl eq_refl) Hid).
    unfold same_value. now rewrite sameValueZero_sym.
Qed.

Lemma merge_one_ok (stepsById : map_t) (s : value) :
  nullish s = false ->
  exists sid,
    identifier s = Ok sid
    /\ merge_one stepsById s
       = Ok (VObj (set_prop "steps"
                     (if truthy (Map_get sid stepsById)
                      then Map_get sid stepsById else VArr [])
                     (spread s))).
Proof.
  intros H. destruct (identifier_ok s H) as [sid Hsid]. exists sid.
  split; [assumption|]. unfold merge_one. rewrite Hsid. simpl.
  unfold or_else. now destruct (truthy (Map_get sid stepsById)).
Qed.

Lemma isArray_truthy (v : value) : isArray v = true -> truthy v = true.
Proof. destruct v; simpl; auto; discriminate. Qed.

(** C1, as the code has it: the identity of the join is the key comparison
    of [Map] (same type, same value; no coercion).  For every main record
    and every detail record with an identifier, if the two identifiers are
    the same under that comparison and no later detail record has that
    identifier, the record made for the main record carries the steps list
    of the detail record. *)
Theorem join_same_value (main details : list value) :
  join_on same_value main details.
Proof.
  intros i m sid pre post d did st Hmain Hi Hsid -> Hdid Hnn Hsame Hst Hlast.
  unfold merge. rewrite build_stepsById_app.
  destruct (build_stepsById_total pre []) as [m1 ->]. simpl.
  rewrite (add_detail_found m1 d did st Hdid Hnn Hst). simpl.
  destruct (build_stepsById_later sid post (Map_set did st m1) Hlast) as [M [-> HM]].
  simpl.
  rewrite Map_get_set in HM.
  unfold same_value in Hsame. rewrite sameValueZero_sym in Hsame.
  rewrite Hsame in HM.
  destruct (mapM_total (merge_one M) main) as [merged [Hmerged [_ Hnth]]].
  { eapply Forall_impl; [|exact Hmain]. intros s Hs.
    destruct (merge_one_ok M s Hs) as [? [_ ->]]. eauto. }
  destruct (Hnth i m Hi) as [r [Hr Hone]].
  exists merged, r. repeat split; try assumption.
  destruct (merge_one_ok M m) as [sid' [Hsid' Hone']].
  { rewrite Forall_forall in Hmain. apply Hmain. eapply nth_error_In; eauto. }
  assert (sid' = sid) by congruence. subst sid'.
  rewrite Hone' in Hone. injection Hone as <-.
  rewrite HM, (isArray_truthy st (steps_of_array d st Hst)).
  simpl. now rewrite lookup_set_prop_same.
Qed.

Lemma join_same_value_witness :
  exists merged r,
    merge [rec_1; rec_b2] [det_1s; det_b2_old; det_b2_new] = Ok merged
    /\ nth_error merged 1 = Some r
    /\ get r "steps" = Ok (VArr [VStr "c"]).
Proof.
  apply (join_same_value [rec_1; rec_b2] [det_1s; det_b2_old; det_b2_new]
           1 rec_b2 (VStr "b2") [det_1s; det_b2_old] [] det_b2_new (VStr "b2")
           (VArr [VStr "c"])); try reflexivity.
  - repeat constructor.
  - intros d' did' [].
Defined.

(** C1, as the specification words it, fails: the number 1 and its string
    form are loosely equal, yet the main record whose identifier is the
    number does not get the steps of the detail record whose identifier is
    the string. *)
Lemma join_loose_counterexample : ~ join_on loosely_equal [rec_1] [det_1s].
Proof.
  intros H.
  destruct (H 0%nat rec_1 (VNum 1 0) [] [] det_1s (VStr "1")
              (VArr [VStr "a"; VStr "b"])) as [merged [r [Hm [Hr Hg]]]];
    try reflexivity.
  - repeat constructor.
  - apply loose_num_str. reflexivity.
  - intros d' did' [].
  - vm_compute in Hm. injection Hm as <-.
    simpl in Hr. injection Hr as <-.
    vm_compute in Hg. discriminate Hg.
Qed.

(** ** The merge *)

Lemma Map_set_steps_map (k v : value) (m : map_t) :
  nullish k = false -> isArray v = true -> steps_map m -> steps_map (Map_set k v m).
Proof.
  intros Hk Hv. unfold steps_map. induction 1 as [|[k0 v0] m [Hk0 Hv0] Hm IH]; simpl.
  - repeat constructor; assumption.
  - destruct (sameValueZero k0 k); constructor; auto.
Qed.

Lemma build_stepsById_steps_map (details : list value) (m m' : map_t) :
  steps_map m -> build_stepsById m details = Ok m' -> steps_map m'.
Proof.
  revert m. induction details as [|d ds IH]; intros m Hm; simpl.
  - now intros [= <-].
  - destruct (add_detail_cases m d) as [-> | [did [st [_ [Hnn [Hst ->]]]]]]; simpl.
    + now apply IH.
    + apply IH. apply Map_set_steps_map; [assumption| |assumption].
      eapply steps_of_array; eauto.
Qed.

Lemma Map_get_absent (k : value) (m : map_t) :
  Map_has k m = false -> Map_get k m = VUndef.
Proof.
  unfold Map_has. induction m as [|[k0 v0] m IH]; simpl; [reflexivity|].
  destruct (sameValueZero k0 k); simpl; [discriminate|exact IH].
Qed.

Lemma Map_get_present (k : value) (m : map_t) :
  steps_map m -> Map_has k m = true -> isArray (Map_get k m) = true.
Proof.
  unfold Map_has. induction 1 as [|[k0 v0] m [_ Hv0] _ IH]; simpl; [discriminate|].
  destruct (sameValueZero k0 k); simpl; auto.
Qed.

Lemma Map_has_nullish (k : value) (m : map_t) :
  steps_map m -> nullish k = true -> Map_has k m = false.
Proof.
  unfold Map_has. induction 1 as [|[k0 v0] m [Hk0 _] _ IH]; simpl; [reflexivity|].
  intros Hk. rewrite (IH Hk), orb_false_r.
  destruct k0, k; simpl in *; try discriminate; reflexivity.
Qed.

Lemma is_object_not_nullish (s : value) : is_object s = true -> nullish s = false.
Proof. destruct s; simpl; auto; discriminate. Qed.

(** C7: the merge never fails on records that are objects; it keeps their
    number and order; the record made for a main record has the fields of
    the original, except [steps], which is the list of the lookup at the
    identifier of the record, or the empty list when the lookup has no entry
    there, in particular when the record has no identifier. *)
Theorem merge_frame (main details : list value) :
  Forall (fun s => is_object s = true) main ->
  exists stepsById merged,
    build_stepsById [] details = Ok stepsById
    /\ merge main details = Ok merged
    /\ List.length merged = List.length main
    /\ forall i o,
         nth_error main i = Some (VObj o) ->
         exists o' sid,
           nth_error merged i = Some (VObj o')
           /\ identifier (VObj o) = Ok sid
           /\ (forall k, k <> "steps" -> lookup k o' = lookup k o)
           /\ lookup "steps" o'
              = Some (if Map_has sid stepsById then Map_get sid stepsById else VArr [])
           /\ (nullish sid = true -> lookup "steps" o' = Some (VArr [])).
Proof.
  intros Hmain.
  destruct (build_stepsById_total details []) as [M HM].
  assert (HMinv : steps_map M)
    by (eapply build_stepsById_steps_map; [constructor|exact HM]).
  destruct (mapM_total (merge_one M) main) as [merged [Hmerged [Hlen Hnth]]].
  { eapply Forall_impl; [|exact Hmain]. intros s Hs.
    destruct (merge_one_ok M s (is_object_not_nullish s Hs)) as [? [_ ->]]. eauto. }
  exists M, merged. unfold merge. rewrite HM. simpl.
  repeat split; try assumption.
  intros i o Hi.
  destruct (Hnth i _ Hi) as [r [Hr Hone]].
  destruct (merge_one_ok M (VObj o) eq_refl) as [sid [Hsid Hone']].
  rewrite Hone' in Hone. injection Hone as <-. simpl spread in Hr.
  assert (Hsteps : (if truthy (Map_get sid M) then Map_get sid M else VArr [])
                   = (if Map_has sid M then Map_get sid M else VArr [])).
  { destruct (Map_has sid M) eqn:Hhas.
    - now rewrite (isArray_truthy _ (Map_get_present sid M HMinv Hhas)).
    - now rewrite (Map_get_absent sid M Hhas). }
  eexists _, sid. split; [exact Hr|]. split; [exact Hsid|]. repeat split.
  - intros k Hk. now apply lookup_set_prop_other.
  - rewrite lookup_set_prop_same. now rewrite Hsteps.
  - intros Hnull. rewrite lookup_set_prop_same, Hsteps.
    now rewrite (Map_has_nullish sid M HMinv Hnull).
Qed.

Lemma merge_frame_witness :
  exists stepsById merged,
    build_stepsById [] [det_1s; det_b2_old; det_b2_new] = Ok stepsById
    /\ merge [rec_1; rec_b2; rec_none] [det_1s; det_b2_old; det_b2_new] = Ok merged
    /\ List.length merged = 3%nat.
Proof.
  destruct (merge_frame [rec_1; rec_b2; rec_none] [det_1s; det_b2_old; det_b2_new])
    as [M [merged [HM [Hmerged [Hlen _]]]]].
  - repeat constructor.
  - exists M, merged. auto.
Defined.

(** ** The level filter *)

(** The level field is the first of the three fields that holds a truthy
    value, and the third field when none does. *)
Lemma or3_cases (s a b c : value) (k1 k2 k3 : string) :
  get s k1 = Ok a -> get s k2 = Ok b -> get s k3 = Ok c ->
  or3 s k1 k2 k3 = Ok (if truthy a then a else if truthy b then b else c).
Proof.
  intros Ha Hb Hc. unfold or3, or_else. rewrite Ha. simpl.
  destruct (truthy a); [reflexivity|]. rewrite Hb. simpl.
  now destruct (truthy b).
Qed.

(** The filter is applied when the requested level is not empty. *)
Lemma level_applied_when_requested (level : string) (merged : list value) :
  level <> "" ->
  scholarship_filters "" level "" "" merged = filterM (level_pass (trim level)) merged.
Proof.
  intros Hne. unfold scholarship_filters, filter_if. simpl.
  apply String.eqb_neq in Hne. rewrite Hne.
  destruct (filterM _ merged); reflexivity.
Qed.




(** A list element that cannot be coerced makes the filter throw: the
    request is answered by the catch clause. *)
Lemma level_coercion_throws (lvl : string) (s : value) (l : list value) :
  or3 s "degree_levels" "degreeLevels" "levels" = Ok (VArr l) ->
  mapM ToString l = Throw ->
  level_pass lvl s = Throw.
Proof.
  intros Hlevels Hthrow. unfold level_pass. rewrite Hlevels. simpl.
  now rewrite Hthrow.
Qed.

Example level_scalar_number :
  level_pass "5" (VObj [("levels", VNum 5 0)]) = Ok false.
Proof. reflexivity. Qed.

Example level_first_truthy :
  level_pass "MSc" (VObj [("degree_levels", VStr ""); ("levels", VArr [VStr "MSc"])])
  = Ok true.
Proof. reflexivity. Qed.

(** ** Examples *)

Example parseInt_examples :
  parseInt "  -12px" = Int (-12) /\ parseInt "+7" = Int 7
  /\ parseInt "abc" = NaN /\ parseInt "-" = NaN /\ parseInt "" = NaN.
Proof. repeat split. Qed.

Example numberToString_examples :
  numberToString 15 (-1) = "1.5" /\ numberToString 1 21 = "1e+21"
  /\ numberToString 1 20 = "100000000000000000000"
  /\ numberToString (-123) (-9) = "-1.23e-7" /\ numberToString 1 (-6) = "0.000001".
Proof. repeat split. Qed.

Example ToString_examples :
  ToString (VArr [VNum 1 0; VNull; VStr "x"; VArr [VBool true]; VObj []])
  = Ok "1,,x,true,[object Object]"
  /\ ToString (VObj [("toString", VNum 1 0)]) = Throw.
Proof. repeat split. Qed.

Example split_ws_examples :
  split_ws "a  b c" = ["a"; "b"; "c"] /\ split_ws " a" = [""; "a"]
  /\ split_ws "a " = ["a"; ""] /\ split_ws "" = [""].
Proof. repeat split. Qed.

Example split_lines_examples :
  split_lines ("a" ++ CR ++ LF ++ "b" ++ LF ++ CR ++ "c") = ["a"; "b"; CR ++ "c"]
  /\ split_lines ("a" ++ LF) = ["a"; ""].
Proof. repeat split. Qed.

Example colon_match_examples :
  colon_match "a :  b c : d" = Some ("a ", "b c : d")
  /\ colon_match ("c:b:" ++ LF ++ "c") = Some ("c:b", "c")
  /\ colon_match "::b" = Some (":", "b")
  /\ colon_match "a:" = None /\ colon_match ":a" = None.
Proof. repeat split. Qed.

Example cleanTitle_examples :
  cleanTitle (VStr "Data Science: Data Science") = Ok "Data Science"
  /\ cleanTitle (VStr "Master of Arts in Global Studies Global Studies")
     = Ok "Master of Arts in Global Studies"
  /\ cleanTitle (VStr "Physics") = Ok "Physics"
  /\ cleanTitle VUndef = Ok "".
Proof. repeat split. Qed.

Example parse_examples :
  Json.parse (json_text "{'id': 1, 'x': [true, null, -0.10], 'id': 2.50e1}")
  = Some (VObj [("id", VNum 25 0); ("x", VArr [VBool true; VNull; VNum (-1) (-1)])])
  /\ Json.parse " 12 " = Some (VNum 12 0)
  /\ Json.parse "01" = None /\ Json.parse "1." = None /\ Json.parse "[1,]" = None
  /\ Json.parse "{a:1}" = None /\ Json.parse "" = None.
Proof. repeat split. Qed.

Example deadline_examples :
  deadline_pass "2025-01-01" (VObj [("deadline", VStr "2024-12-31")]) = Ok false
  /\ deadline_pass "2025-01-01" (VObj [("deadline", VStr "2025-01-01")]) = Ok true
  /\ deadline_pass "2025-01-01" (VObj [("name", VStr "open")]) = Ok true.
Proof. repeat split. Qed.

Example scholarships_sample :
  fst (scholarships sample_dir sample_fs msc_page_2)
  = Success {| data := [ VObj [ ("scholarship_id", VStr "b2"); ("name", VStr "Beta");
                                ("degree_levels", VStr "MSc");
                                ("steps", VArr [VStr "c"]) ] ];
               total := 2; page := Int 2; pageSize := Int 1; country := None |}.
Proof. reflexivity. Qed.

(** * Further properties of the server *)

(** ** What the handlers read *)

(** X1: the programme query asks for at most one file, and the origin alone
    decides which: the file of the origin in the private data directory when
    the origin is one of the tags of [COUNTRY_FILES], no file otherwise.
    Nothing else of the request reaches the path. *)
Theorem courses_reads (dirname : string) (readFile : string -> option string)
  (req : query) :
  snd (courses dirname readFile req)
  = match assoc (toLowerCase (param_or (q_country req) "germany")) COUNTRY_FILES with
    | Some fileName => [resolvePrivateFile dirname fileName]
    | None => []
    end.
Proof.
  unfold courses, COUNTRY_FILES_at, try_catch, io_bind, io_ret, loadJsonl.
  destruct (assoc _ COUNTRY_FILES) as [f|].
  - destruct (readFile _); [|reflexivity].
    destruct (programme_filter _ _ _); reflexivity.
  - destruct (existsb _ Object_prototype); reflexivity.
Qed.

(** X2: the scholarship query asks for the main file and then for the
    details file, whatever the request and whatever becomes of the reads. *)
Theorem scholarships_reads (dirname : string) (readFile : string -> option string)
  (req : query) :
  snd (scholarships dirname readFile req)
  = [ resolvePrivateFile dirname SCHOLAR_FILES_main;
      resolvePrivateFile dirname SCHOLAR_FILES_details ].
Proof.
  unfold scholarships, try_catch, io_bind, io_ret, Promise_all2, loadJsonl.
  destruct (readFile (resolvePrivateFile dirname SCHOLAR_FILES_main));
    destruct (readFile (resolvePrivateFile dirname SCHOLAR_FILES_details));
    cbn [bind app]; try reflexivity.
  destruct (merge _ _); cbn [bind]; [|reflexivity].
  destruct (scholarship_filters _ _ _ _ _); reflexivity.
Qed.

(** ** Files that cannot be read *)

(** X3: when the file of a supported origin cannot be read, the programme
    query answers 500 with the generic message. *)
Theorem courses_unreadable (dirname : string) (readFile : string -> option string)
  (req : query) (fileName : string) :
  assoc (toLowerCase (param_or (q_country req) "germany")) COUNTRY_FILES
  = Some fileName ->
  readFile (resolvePrivateFile dirname fileName) = None ->
  fst (courses dirname readFile req) = Failure 500 "Server error".
Proof.
  intros Hown Hread.
  unfold courses, COUNTRY_FILES_at, try_catch, io_bind, io_ret, loadJsonl.
  now rewrite Hown, Hread.
Qed.

Lemma courses_unreadable_witness :
  fst (courses sample_dir (fun _ => None) no_params) = Failure 500 "Server error".
Proof.
  apply (courses_unreadable sample_dir (fun _ => None) no_params
           "daad_programmes.jsonl"); reflexivity.
Defined.

(** X4: when the main file or the details file cannot be read, the
    scholarship query answers 500 with the generic message. *)
Theorem scholarships_unreadable (dirname : string)
  (readFile : string -> option string) (req : query) :
  readFile (resolvePrivateFile dirname SCHOLAR_FILES_main) = None
  \/ readFile (resolvePrivateFile dirname SCHOLAR_FILES_details) = None ->
  fst (scholarships dirname readFile req) = Failure 500 "Server error".
Proof.
  intros Hread.
  unfold scholarships, try_catch, io_bind, io_ret, Promise_all2, loadJsonl.
  destruct Hread as [-> | ->]; [reflexivity|].
  now destruct (readFile (resolvePrivateFile dirname SCHOLAR_FILES_main)).
Qed.

Lemma scholarships_unreadable_witness :
  fst (scholarships sample_dir
         (fun path => if path =? "/srv/private/data/scholarships_pk.jsonl"
                      then Some sample_main else None) no_params)
  = Failure 500 "Server error".
Proof.
  apply scholarships_unreadable. right. reflexivity.
Defined.

(** ** The programme query without a text *)

(** X5: with an absent, empty or blank [q] no record is looked at: on a
    supported origin whose file is read, the answer is a page of all the
    records of the file, whatever they are. *)
Theorem courses_blank_q (dirname : string) (readFile : string -> option string)
  (req : query) (fileName text : string) :
  assoc (toLowerCase (param_or (q_country req) "germany")) COUNTRY_FILES
  = Some fileName ->
  readFile (resolvePrivateFile dirname fileName) = Some text ->
  trim (param_or (q_q req) "") = "" ->
  fst (courses dirname readFile req)
  = Success (page_body (parse_lines text) (effective_page (q_page req))
               (effective_pageSize (q_pageSize req))
               (Some (toLowerCase (param_or (q_country req) "germany")))).
Proof.
  intros Hown Hread Hq.
  unfold courses, COUNTRY_FILES_at, try_catch, io_bind, io_ret, loadJsonl.
  rewrite Hown, Hread, Hq. reflexivity.
Qed.

Lemma courses_blank_q_witness :
  exists b,
    fst (courses sample_dir sample_fs (with_country no_params (Some "Germany")))
    = Success b /\ total b = 5%nat.
Proof.
  eexists. split.
  - apply (courses_blank_q sample_dir sample_fs
             (with_country no_params (Some "Germany"))
             "daad_programmes.jsonl" sample_programmes); reflexivity.
  - reflexivity.
Defined.

(** X6: a successful answer of the programme query names one of the tags of
    [COUNTRY_FILES], in lower case, and carries the effective page and page
    size of the request. *)
Theorem courses_success_echo (dirname : string)
  (readFile : string -> option string) (req : query) (b : body) :
  fst (courses dirname readFile req) = Success b ->
  exists c fileName,
    country b = Some c
    /\ c = toLowerCase (param_or (q_country req) "germany")
    /\ In (c, fileName) COUNTRY_FILES
    /\ page b = effective_page (q_page req)
    /\ pageSize b = effective_pageSize (q_pageSize req).
Proof.
  unfold courses, COUNTRY_FILES_at, try_catch, io_bind, io_ret, loadJsonl.
  set (c := toLowerCase (param_or (q_country req) "germany")).
  destruct (assoc c COUNTRY_FILES) as [f|] eqn:Hown.
  - destruct (readFile _); [|discriminate].
    destruct (programme_filter _ _ _); [|discriminate].
    intros [= <-]. exists c, f. repeat split.
    clear -Hown. revert Hown. generalize COUNTRY_FILES.
    induction l as [|[k v] l IH]; simpl; [discriminate|].
    destruct (c =? k) eqn:E.
    + apply String.eqb_eq in E. intros [= ->]. subst. now left.
    + intros H. right. now apply IH.
  - destruct (existsb _ Object_prototype); discriminate.
Qed.

Lemma courses_success_echo_witness :
  exists c fileName,
    Some "germany" = Some c /\ In (c, fileName) COUNTRY_FILES.
Proof.
  destruct (courses_success_echo sample_dir sample_fs
              (with_country no_params (Some "GERMANY")) _ eq_refl)
    as [c [f [Hc [_ [Hin _]]]]].
  exists c, f. split; [exact Hc | exact Hin].
Defined.

(** ** Texts put end to end *)

Lemma string_app_assoc (a b c : string) : (a ++ b) ++ c = a ++ (b ++ c).
Proof. induction a as [|x a IH]; simpl; [reflexivity|]. now rewrite IH. Qed.

Lemma ends_with_CR_app (a b : string) :
  b <> "" -> ends_with_CR (a ++ b) = ends_with_CR b.
Proof.
  intros Hb. induction a as [|x a IH]; [reflexivity|].
  change (String x a ++ b) with (String x (a ++ b)).
  destruct (a ++ b) eqn:E.
  - destruct a; [simpl in E; contradiction|discriminate].
  - exact IH.
Qed.

Lemma ends_with_CR_after_LF (rest : string) :
  ends_with_CR (LF ++ rest) = ends_with_CR rest.
Proof. destruct rest; reflexivity. Qed.

Lemma line_split_append (a b : string) (la lb : list string) (sep : string) :
  line_split a la ->
  line_split b lb ->
  sep = CR ++ LF \/ (sep = LF /\ ends_with_CR a = false) ->
  line_split (a ++ sep ++ b) (la ++ lb)%list.
Proof.
  intros Ha Hb. induction Ha as [l Hl | l rest ls Hl Hcr Hrest IH | l rest ls Hl Hrest IH];
    intros Hsep.
  - destruct Hsep as [-> | [-> Hend]].
    + rewrite string_app_assoc. now apply line_split_crlf.
    + now apply line_split_lf.
  - rewrite !string_app_assoc. apply line_split_lf; try assumption.
    apply IH. destruct Hsep as [-> | [-> Hend]]; [now left|right].
    split; [reflexivity|].
    rewrite ends_with_CR_app in Hend by discriminate.
    now rewrite ends_with_CR_after_LF in Hend.
  - rewrite !string_app_assoc. apply line_split_crlf; try assumption.
    rewrite <- !string_app_assoc. rewrite string_app_assoc. apply IH.
    destruct Hsep as [-> | [-> Hend]]; [now left|right].
    split; [reflexivity|].
    rewrite ends_with_CR_app in Hend by discriminate.
    rewrite ends_with_CR_app in Hend by discriminate.
    now rewrite ends_with_CR_after_LF in Hend.
Qed.

Lemma parsed_values_app (l1 l2 : list string) :
  parsed_values (l1 ++ l2) = (parsed_values l1 ++ parsed_values l2)%list.
Proof.
  induction l1 as [|l l1 IH]; simpl; [reflexivity|].
  destruct (Json.parse l); simpl; now rewrite IH.
Qed.

Lemma records_of_app (l1 l2 : list string) :
  records_of (l1 ++ l2) = (records_of l1 ++ records_of l2)%list.
Proof. unfold records_of. now rewrite filter_app, parsed_values_app. Qed.

Lemma parse_lines_joined (a b sep : string) :
  sep = CR ++ LF \/ (sep = LF /\ ends_with_CR a = false) ->
  parse_lines (a ++ sep ++ b) = (parse_lines a ++ parse_lines b)%list.
Proof.
  intros Hsep. rewrite !parse_lines_records, <- records_of_app. f_equal.
  symmetry. apply split_lines_complete.
  apply line_split_append; auto using split_lines_sound.
Qed.

(** X7: the records of two texts joined by a line break are the records of
    the first followed by the records of the second, so what is appended to
    a file after a line break changes none of the records before it, and a
    line break at the end of the text adds no record.  (With LF as the line
    break the first text must not end with CR, which would pair with the
    LF.) *)
Theorem parse_lines_append (a sep : string) :
  sep = CR ++ LF \/ (sep = LF /\ ends_with_CR a = false) ->
  (forall b, parse_lines (a ++ sep ++ b) = (parse_lines a ++ parse_lines b)%list)
  /\ parse_lines (a ++ sep) = parse_lines a.
Proof.
  intros Hsep. split.
  - intros b. now apply parse_lines_joined.
  - replace (a ++ sep) with (a ++ sep ++ "").
    + rewrite parse_lines_joined by assumption.
      change (parse_lines "") with (@nil value). apply app_nil_r.
    + f_equal. destruct Hsep as [-> | [-> _]]; reflexivity.
Qed.

Lemma parse_lines_append_witness :
  parse_lines (sample_main ++ LF ++ sample_details)
  = (parse_lines sample_main ++ parse_lines sample_details)%list
  /\ parse_lines (sample_main ++ LF) = parse_lines sample_main.
Proof.
  destruct (parse_lines_append sample_main LF) as [Happ Hend].
  - right. split; reflexivity.
  - split; [apply Happ | exact Hend].
Defined.

(** ** Records that are [null] *)

Lemma mapM_throw {A B} (f : A -> result B) (l : list A) (x : A) :
  In x l -> f x = Throw -> mapM f l = Throw.
Proof.
  intros Hin Hx. induction l as [|y l IH]; [contradiction|]. simpl.
  destruct Hin as [-> | Hin]; [now rewrite Hx|].
  rewrite (IH Hin). now destruct (f y).
Qed.

Lemma filterM_throw {A} (f : A -> result bool) (l : list A) (x : A) :
  In x l -> f x = Throw -> filterM f l = Throw.
Proof.
  intros Hin Hx. induction l as [|y l IH]; [contradiction|]. simpl.
  destruct Hin as [-> | Hin]; [now rewrite Hx|].
  rewrite (IH Hin). now destruct (f y).
Qed.

Lemma mapM_Forall2 {A B} (f : A -> result B) (l : list A) (l' : list B) :
  mapM f l = Ok l' -> Forall2 (fun x y => f x = Ok y) l l'.
Proof.
  revert l'. induction l as [|x l IH]; simpl; intros l'.
  - intros [= <-]. constructor.
  - destruct (f x) as [y|] eqn:Hy; simpl; [|discriminate].
    destruct (mapM f l) as [ys|]; simpl; [|discriminate].
    intros [= <-]. constructor; auto.
Qed.

Lemma merge_one_nullish (stepsById : map_t) (s : value) :
  nullish s = true -> merge_one stepsById s = Throw.
Proof. destruct s; try discriminate; reflexivity. Qed.

Lemma merge_nullish (main details : list value) (s : value) :
  In s main -> nullish s = true -> merge main details = Throw.
Proof.
  intros Hin Hs. unfold merge.
  destruct (build_stepsById_total details []) as [M ->]. simpl.
  apply (mapM_throw _ _ s Hin). now apply merge_one_nullish.
Qed.

(** X8: the merge fails exactly when a main record is [null]; no detail
    record, whatever it is, makes it fail. *)
Theorem merge_throws_iff (main details : list value) :
  merge main details = Throw <-> Exists (fun s => nullish s = true) main.
Proof.
  split.
  - intros Hthrow.
    destruct (Exists_dec (fun s => nullish s = true) main) as [Hex | Hnone];
      [intros s; destruct (nullish s); [now left | now right] | assumption |].
    exfalso. unfold merge in Hthrow.
    destruct (build_stepsById_total details []) as [M HM].
    rewrite HM in Hthrow. simpl in Hthrow.
    destruct (mapM_total (merge_one M) main) as [merged [Hmerged _]];
      [|congruence].
    apply Forall_forall. intros s Hs.
    destruct (nullish s) eqn:E.
    + exfalso. apply Hnone. apply Exists_exists. eauto.
    + destruct (merge_one_ok M s E) as [? [_ ->]]. eauto.
  - intros Hex. apply Exists_exists in Hex as [s [Hin Hs]].
    now apply (merge_nullish main details s).
Qed.

Lemma merge_throws_iff_witness :
  merge [rec_1; VNull; rec_b2] [det_1s; VNull; VStr "x"] = Throw.
Proof.
  apply (proj2 (merge_throws_iff [rec_1; VNull; rec_b2] [det_1s; VNull; VStr "x"])).
  right. left. reflexivity.
Defined.

(** X9: a [null] line in the main file makes every scholarship query answer
    500, whatever its parameters. *)
Theorem scholarships_null_record (dirname : string)
  (readFile : string -> option string) (req : query) (main details : string) :
  readFile (resolvePrivateFile dirname SCHOLAR_FILES_main) = Some main ->
  readFile (resolvePrivateFile dirname SCHOLAR_FILES_details) = Some details ->
  In VNull (parse_lines main) ->
  fst (scholarships dirname readFile req) = Failure 500 "Server error".
Proof.
  intros Hmain Hdetails Hnull.
  unfold scholarships, try_catch, io_bind, io_ret, Promise_all2, loadJsonl.
  rewrite Hmain, Hdetails. cbn [bind].
  now rewrite (merge_nullish _ _ VNull Hnull eq_refl).
Qed.

Lemma scholarships_null_record_witness :
  fst (scholarships sample_dir
         (fun path => if path =? "/srv/private/data/scholarships_pk.jsonl"
                      then Some (sample_main ++ LF ++ "null")
                      else Some sample_details) no_params)
  = Failure 500 "Server error".
Proof.
  apply (scholarships_null_record sample_dir _ no_params
           (sample_main ++ LF ++ "null") sample_details);
    [reflexivity | reflexivity |].
  vm_compute. right. right. right. left. reflexivity.
Defined.

Lemma title_pass_nullish (country q fileName : string) (p : value) :
  assoc country COUNTRY_FILES = Some fileName ->
  nullish p = true ->
  title_pass country q p = Throw.
Proof.
  intros Hown Hp. unfold assoc, COUNTRY_FILES in Hown.
  destruct (country =? "germany") eqn:E1;
    [apply String.eqb_eq in E1; subst; destruct p; try discriminate; reflexivity|].
  destruct (country =? "netherlands") eqn:E2;
    [apply String.eqb_eq in E2; subst; destruct p; try discriminate; reflexivity|].
  destruct (country =? "sweden") eqn:E3;
    [apply String.eqb_eq in E3; subst; destruct p; try discriminate; reflexivity|].
  destruct (country =? "finland") eqn:E4;
    [apply String.eqb_eq in E4; subst; destruct p; try discriminate; reflexivity|].
  discriminate.
Qed.

Lemma toLowerCase_empty (s : string) : toLowerCase s = "" -> s = "".
Proof. destruct s; [reflexivity|discriminate]. Qed.

(** X10: a [null] line in the file of an origin makes the programme query
    with a text answer 500: the title of [null] cannot be read. *)
Theorem courses_null_record (dirname : string)
  (readFile : string -> option string) (req : query) (fileName text : string) :
  assoc (toLowerCase (param_or (q_country req) "germany")) COUNTRY_FILES
  = Some fileName ->
  readFile (resolvePrivateFile dirname fileName) = Some text ->
  In VNull (parse_lines text) ->
  trim (param_or (q_q req) "") <> "" ->
  fst (courses dirname readFile req) = Failure 500 "Server error".
Proof.
  intros Hown Hread Hnull Hq.
  unfold courses, COUNTRY_FILES_at, try_catch, io_bind, io_ret, loadJsonl.
  rewrite Hown, Hread. unfold programme_filter, filter_if.
  destruct (toLowerCase (trim (param_or (q_q req) "")) =? "") eqn:E.
  - apply String.eqb_eq, toLowerCase_empty in E. contradiction.
  - rewrite (filterM_throw _ _ VNull Hnull); [reflexivity|].
    now apply (title_pass_nullish _ _ fileName).
Qed.

Lemma courses_null_record_witness :
  fst (courses sample_dir (fun _ => Some (sample_programmes ++ LF ++ "null"))
         physics_page_2)
  = Failure 500 "Server error".
Proof.
  apply (courses_null_record sample_dir _ physics_page_2 "daad_programmes.jsonl"
           (sample_programmes ++ LF ++ "null")); try reflexivity.
  - vm_compute. do 5 right. left. reflexivity.
  - discriminate.
Defined.

(** ** The lookup and the merged records *)

Lemma Map_get_steps_map (k : value) (m : map_t) :
  steps_map m -> Map_get k m = VUndef \/ isArray (Map_get k m) = true.
Proof.
  intros Hm. destruct (Map_has k m) eqn:E.
  - right. now apply Map_get_present.
  - left. now apply Map_get_absent.
Qed.

(** X11: every record the merge makes is an object whose [steps] is a list,
    whatever the main and the detail records hold (a detail record whose
    [steps] and [application_steps] are not lists contributes the empty
    list). *)
Theorem merge_steps_lists (main details merged : list value) :
  merge main details = Ok merged ->
  Forall (fun r => exists o l, r = VObj o /\ lookup "steps" o = Some (VArr l)) merged.
Proof.
  unfold merge. destruct (build_stepsById [] details) as [M|] eqn:HM; [|discriminate].
  simpl. intros Hmap. apply mapM_Forall2 in Hmap.
  assert (HMinv : steps_map M)
    by (eapply build_stepsById_steps_map; [constructor|exact HM]).
  induction Hmap as [|s r main merged Hone _ IH]; constructor; [|exact IH].
  destruct (nullish s) eqn:Hs; [now rewrite merge_one_nullish in Hone|].
  destruct (merge_one_ok M s Hs) as [sid [_ Hone']].
  rewrite Hone' in Hone. injection Hone as <-.
  destruct (Map_get_steps_map sid M HMinv) as [-> | Harr].
  - eexists _, []. split; [reflexivity|]. simpl. apply lookup_set_prop_same.
  - rewrite (isArray_truthy _ Harr).
    destruct (Map_get sid M) as [| | | | |l|]; try discriminate.
    eexists _, l. split; [reflexivity|]. apply lookup_set_prop_same.
Qed.

Lemma merge_steps_lists_witness :
  Forall (fun r => exists o l, r = VObj o /\ lookup "steps" o = Some (VArr l))
    [ VObj [("steps", VArr [])];
      VObj [("0", VStr "a"); ("1", VStr "b"); ("steps", VArr [])];
      VObj [("id", VNum 7 0); ("steps", VArr [])] ].
Proof.
  apply (merge_steps_lists
           [VNum 5 0; VStr "ab"; VObj [("id", VNum 7 0); ("steps", VStr "mine")]]
           [VObj [("id", VNum 7 0); ("steps", VNum 3 0)]]).
  reflexivity.
Defined.

Lemma sameValueZero_congr (a b c : value) :
  sameValueZero a b = true -> sameValueZero a c = sameValueZero b c.
Proof.
  intros Hab. destruct (sameValueZero b c) eqn:Hbc.
  - now apply (sameValueZero_trans a b c).
  - destruct (sameValueZero a c) eqn:Hac; [|reflexivity].
    rewrite sameValueZero_sym in Hab.
    now rewrite (sameValueZero_trans b a c Hab Hac) in Hbc.
Qed.

Lemma Map_has_set (k k' v : value) (m : map_t) :
  Map_has k (Map_set k' v m) = sameValueZero k' k || Map_has k m.
Proof.
  unfold Map_has. induction m as [|[k0 v0] m IH]; simpl.
  - reflexivity.
  - destruct (sameValueZero k0 k') eqn:E; simpl.
    + rewrite (sameValueZero_congr k0 k' k E). now rewrite orb_assoc, orb_diag.
    + rewrite IH. rewrite !orb_assoc. f_equal. apply orb_comm.
Qed.

(** The detail records that enter the lookup. *)
Lemma add_detail_inv (m m' : map_t) (d : value) :
  add_detail m d = Ok m' ->
  (m' = m /\ forall did, identifier d = Ok did -> nullish did = true)
  \/ exists did st,
       identifier d = Ok did /\ nullish did = false /\ m' = Map_set did st m.
Proof.
  unfold add_detail. destruct (truthy d) eqn:Ht; simpl.
  - destruct (identifier d) as [did|]; simpl; [|discriminate].
    destruct (nullish did) eqn:Hnn.
    + intros [= <-]. left. split; [reflexivity|]. now intros ? [= <-].
    + destruct (steps_of d) as [st|]; simpl; [|discriminate].
      intros [= <-]. right. eauto.
  - intros [= <-]. left. split; [reflexivity|].
    intros did Hid. destruct (nullish did) eqn:Hnn; [reflexivity|].
    rewrite (identifier_truthy d did Hid Hnn) in Ht. discriminate.
Qed.

Lemma build_stepsById_has (sid : value) (details : list value) (m M : map_t) :
  build_stepsById m details = Ok M ->
  Map_has sid M = true <->
  Map_has sid m = true
  \/ Exists (fun d => exists did, identifier d = Ok did /\ nullish did = false
                                  /\ sameValueZero did sid = true) details.
Proof.
  revert m. induction details as [|d ds IH]; simpl; intros m.
  - intros [= <-]. split; [now left|]. intros [H | H]; [assumption|inversion H].
  - destruct (add_detail m d) as [m1|] eqn:Hadd; simpl; [|discriminate].
    intros HM. rewrite (IH m1 HM).
    destruct (add_detail_inv m m1 d Hadd) as [[-> Hnone] | [did [st [Hid [Hnn ->]]]]].
    + split; intros [H | H]; auto.
      inversion H as [? ? [did [Hid [Hnn _]]] | ? ? H']; subst; [|auto].
      rewrite (Hnone did Hid) in Hnn. discriminate.
    + rewrite Map_has_set. split.
      * intros [H | H]; [|auto].
        apply orb_true_iff in H as [H | H]; [|auto].
        right. apply Exists_cons_hd. eauto.
      * intros [H | H]; [left; rewrite H; apply orb_true_r|].
        inversion H as [? ? [did' [Hid' [_ Hsame]]] | ? ? H']; subst; [|auto].
        left. assert (did' = did) by congruence. subst.
        now rewrite Hsame.
Qed.

(** X12: the lookup has an entry for an identifier exactly when some detail
    record has that identifier (same type, same value); the records without
    an identifier leave no entry. *)
Theorem stepsById_domain (details : list value) (stepsById : map_t) (sid : value) :
  build_stepsById [] details = Ok stepsById ->
  Map_has sid stepsById = true <->
  Exists (fun d => exists did, identifier d = Ok did /\ nullish did = false
                               /\ sameValueZero did sid = true) details.
Proof.
  intros HM. rewrite (build_stepsById_has sid details [] stepsById HM).
  split; [intros [H | H]; [discriminate|assumption] | now right].
Qed.

Lemma stepsById_domain_witness :
  Exists (fun d => exists did, identifier d = Ok did /\ nullish did = false
                               /\ sameValueZero did (VStr "b2") = true)
    [det_1s; VNull; det_b2_old; det_b2_new].
Proof.
  apply (proj1 (stepsById_domain [det_1s; VNull; det_b2_old; det_b2_new]
                  _ (VStr "b2") eq_refl)).
  reflexivity.
Defined.

(** ** The filters together *)

Lemma filterM_filter {A} (f : A -> result bool) (l out : list A) :
  filterM f l = Ok out ->
  out = filter (fun x => match f x with Ok true => true | _ => false end) l.
Proof.
  revert out. induction l as [|x l IH]; simpl; intros out.
  - now intros [= <-].
  - destruct (f x) as [b|]; simpl; [|discriminate].
    destruct (filterM f l) as [ys|]; simpl; [|discriminate].
    intros [= <-]. rewrite (IH ys eq_refl). now destruct b.
Qed.

Lemma filter_all {A} (g : A -> bool) (l : list A) :
  (forall x, g x = true) -> filter g l = l.
Proof.
  intros Hg. induction l as [|x l IH]; simpl; [reflexivity|].
  now rewrite Hg, IH.
Qed.

Lemma filter_if_filter (param : string) (pred : value -> result bool)
  (l out : list value) :
  filter_if param pred l = Ok out -> out = filter (holds param pred) l.
Proof.
  unfold filter_if, holds. destruct (param =? "").
  - intros [= <-]. symmetry. now apply filter_all.
  - intros H. now apply filterM_filter in H.
Qed.

Lemma filter_twice {A} (g1 g2 : A -> bool) (l : list A) :
  filter g2 (filter g1 l) = filter (fun x => g1 x && g2 x) l.
Proof.
  induction l as [|x l IH]; simpl; [reflexivity|].
  destruct (g1 x); simpl; [|exact IH].
  destruct (g2 x); now rewrite IH.
Qed.

(** X13: when the four filters of the scholarship query answer, what they
    leave is the records, in their order, that pass every filter whose
    parameter is not empty: the filters act as one test on each record,
    independent of the other records and of the order of the filters. *)
Theorem scholarship_filters_kept (country level deadline q : string)
  (merged out : list value) :
  scholarship_filters country level deadline q merged = Ok out ->
  out = filter (kept country level deadline q) merged.
Proof.
  unfold scholarship_filters.
  destruct (filter_if country _ merged) as [m1|] eqn:H1; simpl; [|discriminate].
  destruct (filter_if level _ m1) as [m2|] eqn:H2; simpl; [|discriminate].
  destruct (filter_if deadline _ m2) as [m3|] eqn:H3; simpl; [|discriminate].
  intros H4.
  apply filter_if_filter in H1, H2, H3, H4. subst.
  rewrite !filter_twice. apply filter_ext.
  intros r. unfold kept. now rewrite !andb_assoc.
Qed.

Lemma scholarship_filters_kept_witness :
  [ VObj [("name", VStr "Beta"); ("country", VStr " Pakistan ");
          ("deadline", VStr "2025-06-01")] ]
  = filter (kept "pakistan" "" "2025-01-01" "bet")
      [ VObj [("name", VStr "Alpha"); ("country", VStr "PAKISTAN");
              ("deadline", VStr "2024-12-31")];
        VObj [("name", VStr "Beta"); ("country", VStr " Pakistan ");
              ("deadline", VStr "2025-06-01")];
        VObj [("name", VStr "Beta"); ("country", VStr "India")] ].
Proof.
  apply (scholarship_filters_kept "pakistan" "" "2025-01-01" "bet"). reflexivity.
Defined.

(** ** The deadline floor *)

Lemma str_ge_refl (a : string) : str_ge a a = true.
Proof.
  induction a as [|x a IH]; [reflexivity|]. simpl. now rewrite N.eqb_refl.
Qed.

Lemma str_ge_trans (a b c : string) :
  str_ge a b = true -> str_ge b c = true -> str_ge a c = true.
Proof.
  revert b c. induction a as [|x a IH]; intros [|y b] [|z c]; simpl;
    try reflexivity; try discriminate.
  destruct (N.eqb_spec (code x) (code y)) as [Exy|Exy];
    destruct (N.eqb_spec (code y) (code z)) as [Eyz|Eyz];
    destruct (N.eqb_spec (code x) (code z)) as [Exz|Exz];
    intros H1 H2;
    try apply N.ltb_lt in H1; try apply N.ltb_lt in H2; try apply N.ltb_lt;
    try lia; try congruence.
  now apply (IH b c).
Qed.

(** X14: the deadline floor is inclusive, and lowering it loses no record:
    a record whose deadline is the floor passes, and a record that passes a
    floor passes every floor that is not above it in the order of strings. *)
Theorem deadline_floor (s : value) :
  (forall dl, get s "deadline" = Ok (VStr dl) -> deadline_pass dl s = Ok true)
  /\ (forall dl dl',
         str_ge dl dl' = true ->
         deadline_pass dl s = Ok true -> deadline_pass dl' s = Ok true).
Proof.
  split.
  - intros dl Hget. unfold deadline_pass. rewrite Hget. cbn [bind].
    destruct (truthy (VStr dl)); cbn [negb]; [|reflexivity].
    cbn [ToString bind]. now rewrite str_ge_refl.
  - intros dl dl' Hle. unfold deadline_pass.
    destruct (get s "deadline") as [d|]; simpl; [|discriminate].
    destruct (truthy d); simpl; [|reflexivity].
    destruct (ToString d) as [str|]; simpl; [|discriminate].
    intros [= Hge]. now rewrite (str_ge_trans str dl dl' Hge Hle).
Qed.

Lemma deadline_floor_witness :
  deadline_pass "2025-01-01" (VObj [("deadline", VStr "2025-01-01")]) = Ok true
  /\ deadline_pass "2024-06-30" (VObj [("deadline", VStr "2025-01-01")]) = Ok true.
Proof.
  destruct (deadline_floor (VObj [("deadline", VStr "2025-01-01")])) as [Hincl Hmono].
  split.
  - apply Hincl. reflexivity.
  - apply (Hmono "2025-01-01" "2024-06-30"); [reflexivity|]. apply Hincl. reflexivity.
Defined.

(** ** Text filters *)

Lemma prefix_iff (t s : string) :
  prefix t s = true <-> exists post, s = t ++ post.
Proof.
  revert s. induction t as [|x t IH]; intros s.
  - split; [intros _; now exists s | intros _; now destruct s].
  - destruct s as [|y s]; simpl;
      [split; [discriminate | intros [post H]; discriminate]|].
    destruct (ascii_dec x y) as [->|Hne].
    + rewrite IH. split; intros [post H]; exists post; [now rewrite H | now injection H].
    + split; [discriminate|]. intros [post H]. injection H as H _. congruence.
Qed.

Lemma includes_iff (s t : string) :
  includes s t = true <-> exists pre post, s = pre ++ t ++ post.
Proof.
  induction s as [|x s IH].
  - change (includes "" t) with (prefix t "" || false).
    rewrite orb_false_r, prefix_iff. split.
    + intros [post H]. now exists "", post.
    + intros [pre [post H]]. destruct pre; [now exists post|discriminate].
  - change (includes (String x s) t) with (prefix t (String x s) || includes s t).
    rewrite orb_true_iff, prefix_iff, IH. split.
    + intros [[post H] | [pre [post H]]].
      * now exists "", post.
      * exists (String x pre), post. simpl. now rewrite H.
    + intros [pre [post H]]. destruct pre as [|y pre].
      * left. now exists post.
      * right. injection H as _ H. now exists pre, post.
Qed.

Lemma includes_trans (s t u : string) :
  includes s t = true -> includes t u = true -> includes s u = true.
Proof.
  rewrite !includes_iff. intros [pre [post ->]] [pre' [post' ->]].
  exists (pre ++ pre'), (post' ++ post).
  now rewrite !string_app_assoc.
Qed.

(** X15: a text that is part of another matches at least the records the
    other matches, in the programme query (on the resolved title) and in the
    scholarship query (on the name and the provider): making the text
    longer never adds a record. *)
Theorem narrower_text (q q' : string) :
  includes q q' = true ->
  (forall country p,
      title_pass country q p = Ok true -> title_pass country q' p = Ok true)
  /\ (forall s, text_pass q s = Ok true -> text_pass q' s = Ok true).
Proof.
  intros Hpart. split.
  - intros country p. unfold title_pass.
    destruct (getTitle country p) as [t|]; simpl; [|discriminate].
    destruct (or_else t (Ok (VStr ""))) as [v|]; simpl; [|discriminate].
    destruct (call_toLowerCase v) as [low|]; simpl; [|discriminate].
    intros [= H]. now rewrite (includes_trans low q q' H Hpart).
  - intros s. unfold text_pass.
    destruct (get s "name") as [a|]; simpl; [|discriminate].
    destruct (or_else a _) as [t|]; simpl; [|discriminate].
    destruct (ToString t) as [tstr|]; simpl; [|discriminate].
    destruct (get s "provider") as [c|]; simpl; [|discriminate].
    destruct (or_else c _) as [p|]; simpl; [|discriminate].
    destruct (ToString p) as [pstr|]; simpl; [|discriminate].
    intros [= H]. apply orb_true_iff in H. f_equal. apply orb_true_iff.
    destruct H as [H | H]; [left | right]; eapply includes_trans; eauto.
Qed.

Lemma narrower_text_witness :
  title_pass "germany" "phys" (VObj [("programme_title", VStr "Applied Physics")])
  = Ok true
  /\ text_pass "fund" (VObj [("organizer", VStr "Science Fund")]) = Ok true.
Proof.
  destruct (narrower_text "physics" "phys" eq_refl) as [Htitle _].
  destruct (narrower_text "science fund" "fund" eq_refl) as [_ Htext].
  split; [apply Htitle | apply Htext]; reflexivity.
Defined.

(** ** Titles *)

Lemma trimEnd_idem (s : string) : trimEnd (trimEnd s) = trimEnd s.
Proof.
  induction s as [|c r IH]; [reflexivity|]. simpl.
  destruct (trimEnd r) as [|c' r'] eqn:E.
  - destruct (isWhiteSpace c) eqn:Ec; [reflexivity|]. simpl. now rewrite Ec.
  - change (trimEnd (String c (String c' r')))
      with (match trimEnd (String c' r') with
            | "" => if isWhiteSpace c then "" else String c ""
            | r'' => String c r''
            end).
    now rewrite IH.
Qed.

Lemma trimStart_head (s : string) :
  trimStart s = "" \/ exists c r, trimStart s = String c r /\ isWhiteSpace c = false.
Proof.
  induction s as [|c r IH]; [now left|]. simpl.
  destruct (isWhiteSpace c) eqn:E; [exact IH|]. right. eauto.
Qed.

Lemma trimEnd_head (c : ascii) (r : string) :
  isWhiteSpace c = false -> exists r', trimEnd (String c r) = String c r'.
Proof.
  intros Hc. simpl. destruct (trimEnd r); [rewrite Hc|]; eauto.
Qed.

Lemma trim_head (s : string) :
  trim s = "" \/ exists c r, trim s = String c r /\ isWhiteSpace c = false.
Proof.
  unfold trim. destruct (trimStart_head s) as [-> | [c [r [-> Hc]]]]; [now left|].
  right. destruct (trimEnd_head c r Hc) as [r' ->]. eauto.
Qed.

Lemma trim_idem (s : string) : trim (trim s) = trim s.
Proof.
  destruct (trim_head s) as [-> | [c [r [E Hc]]]]; [reflexivity|].
  rewrite E. unfold trim at 1. simpl trimStart. rewrite Hc.
  rewrite <- E. unfold trim. apply trimEnd_idem.
Qed.

Lemma window_loop_trimmed (words : list string) (n : nat) (p : string) :
  window_loop words n = Some p -> trim p = p.
Proof.
  induction n as [|n IH]; [discriminate|].
  destruct n as [|n']; [discriminate|].
  change (window_loop words (S (S n')))
    with (if window_matches words (S (S n'))
          then Some (trim (window_prefix words (S (S n'))))
          else window_loop words (S n')).
  destruct (window_matches _ _); [intros [= <-]; apply trim_idem|exact IH].
Qed.

(** X16: whatever it is given, [cleanTitle] returns a string without white
    space at its ends. *)
Theorem cleanTitle_trimmed (v : value) (title : string) :
  cleanTitle v = Ok title -> trim title = title.
Proof.
  unfold cleanTitle.
  destruct (or_else v (Ok (VStr ""))) as [v'|]; simpl; [|discriminate].
  destruct (ToString v') as [s0|]; simpl; [|discriminate].
  destruct (trim s0 =? ""); [intros [= <-]; apply trim_idem|].
  destruct (colon_rule (trim s0)) as [A|] eqn:Hcolon.
  - intros [= <-]. unfold colon_rule in Hcolon.
    destruct (colon_match (trim s0)) as [[m1 m2]|]; [|discriminate].
    destruct (includes _ _); [|discriminate].
    injection Hcolon as <-. apply trim_idem.
  - destruct (window_loop _ _) as [p|] eqn:E; intros [= <-]; [|apply trim_idem].
    now apply window_loop_trimmed in E.
Qed.

Lemma cleanTitle_trimmed_witness :
  trim "Master of Arts in Global Studies" = "Master of Arts in Global Studies".
Proof.
  apply (cleanTitle_trimmed
           (VStr "  Master of Arts in Global Studies Global Studies  ")).
  reflexivity.
Defined.

Lemma colon_match_no_colon (s : string) (nonempty : bool) :
  no_colon s = true -> colon_match_from nonempty s = None.
Proof.
  revert nonempty. induction s as [|c r IH]; intros nonempty; [reflexivity|].
  simpl no_colon. intros H. apply andb_true_iff in H as [Hc Hr].
  apply negb_true_iff in Hc.
  change (colon_match_from nonempty (String c r))
    with (let longer :=
            if isLineTerminator c then None
            else match colon_match_from true r with
                 | Some (a, b) => Some (String c a, b)
                 | None => None
                 end in
          if (code c =? 58)%N && nonempty then
            match after_colon r with
            | Some b => Some ("", b)
            | None => longer
            end
          else longer).
  cbv zeta. rewrite Hc, (IH true Hr). simpl. now destruct (isLineTerminator c).
Qed.

(** X17: a title without a colon and of fewer than four words is returned
    as it is, trimmed: no window of two words fits in it. *)
Theorem cleanTitle_short (raw : string) :
  no_colon (trim raw) = true ->
  List.length (split_ws (trim raw)) < 4 ->
  cleanTitle (VStr raw) = Ok (trim raw).
Proof.
  intros Hcolon Hwords. rewrite cleanTitle_string. cbv zeta.
  destruct (trim raw =? ""); [reflexivity|].
  unfold colon_rule, colon_match. rewrite (colon_match_no_colon _ _ Hcolon).
  rewrite window_loop_none; [reflexivity|].
  intros k Hk. exfalso. unfold window_start in Hk.
  assert (List.length (split_ws (trim raw)) / 2 < 2)
    by (apply Nat.Div0.div_lt_upper_bound; lia).
  lia.
Qed.

Lemma cleanTitle_short_witness :
  cleanTitle (VStr " Physics Physics Physics ") = Ok "Physics Physics Physics".
Proof.
  apply (cleanTitle_short " Physics Physics Physics "); [reflexivity|].
  vm_compute. lia.
Defined.

Lemma get_falsy (o : object) (k : string) :
  falsy_at o k = true -> exists v, get (VObj o) k = Ok v /\ truthy v = false.
Proof.
  unfold falsy_at, get. destruct (lookup k o) as [v|].
  - intros H. apply negb_true_iff in H. eauto.
  - eauto.
Qed.

Lemma nimi_falsy (d : value) (lang : string) :
  truthy d = false -> (n <- get_opt d "nimi" ;; get_opt n lang) = Ok VUndef.
Proof. destruct d; try discriminate; reflexivity. Qed.

Ltac read_falsy_fields o :=
  repeat match goal with
         | H : get (VObj o) _ = Ok _ |- _ => rewrite H; clear H
         | H : truthy _ = false |- _ => rewrite H; clear H
         | |- _ => progress cbn [bind truthy]
         end.

Lemma getTitle_untitled_object (country : string) (o : object) :
  Forall (fun k => falsy_at o k = true) title_fields ->
  getTitle country (VObj o) = Ok (VStr "").
Proof.
  intros Hfields. unfold title_fields in Hfields.
  repeat match goal with
         | H : Forall _ (_ :: _) |- _ => inversion H; subst; clear H
         end.
  repeat match goal with
         | H : falsy_at o _ = true |- _ =>
             apply get_falsy in H; destruct H as [? [? ?]]
         end.
  unfold getTitle, or_else.
  destruct (country =? "germany"); [read_falsy_fields o; reflexivity|].
  destruct (country =? "netherlands"); [read_falsy_fields o; reflexivity|].
  destruct (country =? "sweden"); [read_falsy_fields o; reflexivity|].
  destruct (country =? "finland"); [|reflexivity].
  match goal with
  | H : get (VObj o) "detail" = Ok ?d, T : truthy ?d = false |- _ =>
      rewrite H; cbn [bind]; rewrite !(nimi_falsy d _ T)
  end.
  read_falsy_fields o. reflexivity.
Qed.

(** X18: a record that holds none of the title fields has the empty title
    under every origin, and no text matches it. *)
Theorem getTitle_untitled (country : string) (o : object) :
  Forall (fun k => falsy_at o k = true) title_fields ->
  getTitle country (VObj o) = Ok (VStr "")
  /\ forall q, q <> "" -> title_pass country q (VObj o) = Ok false.
Proof.
  intros Hfields. pose proof (getTitle_untitled_object country o Hfields) as Ht.
  split; [exact Ht|].
  intros q Hq. unfold title_pass. rewrite Ht. simpl.
  destruct q; [contradiction|reflexivity].
Qed.

Lemma getTitle_untitled_witness :
  getTitle "finland" (VObj [("id", VNum 3 0); ("title", VStr ""); ("detail", VNull)])
  = Ok (VStr "")
  /\ title_pass "finland" "a"
       (VObj [("id", VNum 3 0); ("title", VStr ""); ("detail", VNull)])
     = Ok false.
Proof.
  destruct (getTitle_untitled "finland"
              [("id", VNum 3 0); ("title", VStr ""); ("detail", VNull)])
    as [Ht Hq].
  - repeat constructor.
  - split; [exact Ht | apply Hq; discriminate].
Defined.

(** ** Pages *)

Lemma firstn_add {A} (a b : nat) (l : list A) :
  firstn (a + b) l = (firstn a l ++ firstn b (skipn a l))%list.
Proof.
  revert l. induction a as [|a IH]; intros l; [reflexivity|].
  destruct l as [|x l]; simpl; [now rewrite firstn_nil|].
  now rewrite IH.
Qed.

(** X19: the pages tile the filtered sequence: the first [n] pages of size
    [ps], one after the other, are its first n * ps records, so the pages
    up to the last one give every record once, in order. *)
Theorem pages_tile (filtered : list value) (ps : Z) (n : nat) :
  (1 <= ps)%Z ->
  List.concat (map (fun i => page_slice filtered (Int (Z.of_nat i)) (Int ps)) (seq 1 n))
  = firstn (n * Z.to_nat ps) filtered
  /\ (List.length filtered <= n * Z.to_nat ps ->
      List.concat (map (fun i => page_slice filtered (Int (Z.of_nat i)) (Int ps)) (seq 1 n))
      = filtered).
Proof.
  intros Hps.
  assert (Htile : List.concat (map (fun i => page_slice filtered (Int (Z.of_nat i)) (Int ps))
                            (seq 1 n))
                  = firstn (n * Z.to_nat ps) filtered).
  { induction n as [|n IH]; [reflexivity|].
    rewrite seq_S, map_app, concat_app, IH. simpl map. simpl List.concat.
    rewrite app_nil_r, page_slice_clamped by lia.
    match goal with
    | |- context [skipn ?k filtered] => replace k with (n * Z.to_nat ps) by nia
    end.
    replace (S n * Z.to_nat ps) with (n * Z.to_nat ps + Z.to_nat ps) by lia.
    now rewrite firstn_add. }
  split; [exact Htile|].
  intros Hall. rewrite Htile. now apply firstn_all2.
Qed.

Lemma pages_tile_witness :
  List.concat (map (fun i => page_slice [VNum 1 0; VNum 2 0; VNum 3 0; VNum 4 0; VNum 5 0]
                          (Int (Z.of_nat i)) (Int 2)) (seq 1 3))
  = [VNum 1 0; VNum 2 0; VNum 3 0; VNum 4 0; VNum 5 0].
Proof.
  apply (proj2 (pages_tile [VNum 1 0; VNum 2 0; VNum 3 0; VNum 4 0; VNum 5 0] 2 3
                  ltac:(lia))).
  simpl. lia.
Defined.

Lemma slice_0_0 {A} (l : list A) : slice l 0 0 = [].
Proof.
  unfold slice, rel_index. change (0 <? 0)%Z with false. cbv iota.
  replace (Z.min 0 (Z.of_nat (List.length l))) with 0%Z by lia.
  reflexivity.
Qed.

(** X20: a page or a page size that is not a number gives no data, whatever
    the records are. *)
Theorem page_slice_NaN (filtered : list value) (p ps : num) :
  p = NaN \/ ps = NaN -> page_slice filtered p ps = [].
Proof.
  intros [-> | ->]; unfold page_slice.
  - apply slice_0_0.
  - destruct p; apply slice_0_0.
Qed.

Lemma page_slice_NaN_witness :
  page_slice [VNum 1 0; VNum 2 0] (effective_page (Some "abc"))
    (effective_pageSize None) = [].
Proof. apply page_slice_NaN. left. reflexivity. Defined.

(** ** Origins that are not supported *)

Lemma lowerChar_idem (c : ascii) : lowerChar (lowerChar c) = lowerChar c.
Proof. destruct c as [[] [] [] [] [] [] [] []]; reflexivity. Qed.

Lemma toLowerCase_idem (s : string) : toLowerCase (toLowerCase s) = toLowerCase s.
Proof.
  induction s as [|c r IH]; [reflexivity|]. simpl. now rewrite lowerChar_idem, IH.
Qed.

(** X21: an origin outside the four tags is answered before any read, with
    400 and the message of the guard, except the two names in lower case
    that every object inherits, [constructor] and [__proto__], which are
    answered 500. *)
Theorem courses_unsupported (dirname : string)
  (readFile : string -> option string) (req : query) :
  let c := toLowerCase (param_or (q_country req) "germany") in
  assoc c COUNTRY_FILES = None ->
  (c <> "constructor" /\ c <> "__proto__"
   /\ courses dirname readFile req = (Failure 400 "Unsupported country", []))
  \/ ((c = "constructor" \/ c = "__proto__")
      /\ courses dirname readFile req = (Failure 500 "Server error", [])).
Proof.
  intros c Hown.
  assert (Hlow : toLowerCase c = c) by apply toLowerCase_idem.
  unfold courses, COUNTRY_FILES_at. fold c. rewrite Hown.
  destruct (existsb (String.eqb c) Object_prototype) eqn:E.
  - right. split; [|reflexivity].
    apply existsb_exists in E as [name [Hin Heq]].
    apply String.eqb_eq in Heq. subst name.
    unfold Object_prototype in Hin. simpl in Hin.
    repeat (destruct Hin as [Hin | Hin];
            [try (now left); try (now right);
             rewrite <- Hin in Hlow; discriminate Hlow|]).
    contradiction.
  - left. repeat split; try reflexivity; intros Hc; rewrite Hc in E; discriminate E.
Qed.

Lemma courses_unsupported_witness :
  courses sample_dir sample_fs (with_country no_params (Some "France"))
  = (Failure 400 "Unsupported country", []).
Proof.
  destruct (courses_unsupported sample_dir sample_fs
              (with_country no_params (Some "France")) eq_refl)
    as [[_ [_ H]] | [[H | H] _]]; [exact H | discriminate H | discriminate H].
Defined.

(** ** The form of the country parameter *)

Lemma country_filter_form (c1 c2 : string) (l : list value) :
  toLowerCase (trim c1) = toLowerCase (trim c2) ->
  filter_if (trim c1) (country_pass (toLowerCase (trim (trim c1)))) l
  = filter_if (trim c2) (country_pass (toLowerCase (trim (trim c2)))) l.
Proof.
  intros H. rewrite !trim_idem, H. unfold filter_if.
  destruct (trim c1) eqn:E1; destruct (trim c2) eqn:E2; try reflexivity;
    simpl in H; discriminate.
Qed.

(** X22: the scholarship query takes the country parameter up to case and
    surrounding white space: two requests that differ only in a country
    with the same trimmed lower-case form get the same answer. *)
Theorem scholarships_country_form (dirname : string)
  (readFile : string -> option string) (req : query) (c' : option string) :
  toLowerCase (trim (param_or (q_country req) ""))
  = toLowerCase (trim (param_or c' "")) ->
  scholarships dirname readFile req
  = scholarships dirname readFile (with_country req c').
Proof.
  intros H. unfold scholarships, with_country.
  cbn [q_country q_q q_page q_pageSize q_level q_deadline].
  unfold try_catch, io_bind, io_ret, Promise_all2, loadJsonl.
  destruct (readFile (resolvePrivateFile dirname SCHOLAR_FILES_main));
    destruct (readFile (resolvePrivateFile dirname SCHOLAR_FILES_details));
    cbn [bind]; try reflexivity.
  destruct (merge _ _) as [merged|]; cbn [bind]; [|reflexivity].
  unfold scholarship_filters. now rewrite (country_filter_form _ _ merged H).
Qed.

Lemma scholarships_country_form_witness :
  scholarships sample_dir sample_fs (with_country no_params (Some " PAKISTAN "))
  = scholarships sample_dir sample_fs
      (with_country (with_country no_params (Some " PAKISTAN ")) (Some "pakistan")).
Proof.
  apply (scholarships_country_form sample_dir sample_fs
           (with_country no_params (Some " PAKISTAN ")) (Some "pakistan")).
  reflexivity.
Defined.

(** ** Flat records never fail *)

Lemma ToString_scalar (v : value) : is_scalar v = true -> exists s, ToString v = Ok s.
Proof. destruct v as [| |[]| | | |]; try discriminate; simpl; eauto. Qed.

Lemma mapM_ToString_scalars (l : list value) :
  forallb is_scalar l = true -> exists strs, mapM ToString l = Ok strs.
Proof.
  induction l as [|x l IH]; simpl; [eauto|].
  intros H. apply andb_true_iff in H as [Hx Hl].
  destruct (ToString_scalar x Hx) as [s ->], (IH Hl) as [strs ->]. simpl. eauto.
Qed.

Lemma ToString_scalars (l : list value) :
  forallb is_scalar l = true -> exists s, ToString (VArr l) = Ok s.
Proof.
  induction l as [|x l IH]; [simpl; eauto|].
  intros H. simpl in H. apply andb_true_iff in H as [Hx Hl].
  destruct (IH Hl) as [s Hs].
  assert (Hx' : exists sx, match x with
                           | VUndef | VNull => Ok ""
                           | _ => ToString x
                           end = Ok sx).
  { destruct (ToString_scalar x Hx) as [sx Hsx]. destruct x; eauto. }
  destruct Hx' as [sx Hsx].
  destruct l as [|y l]; [exists sx; exact Hsx|].
  exists (sx ++ "," ++ s).
  change (ToString (VArr (x :: y :: l)))
    with (a <- match x with
               | VUndef | VNull => Ok ""
               | _ => ToString x
               end ;;
          b <- ToString (VArr (y :: l)) ;; Ok (a ++ "," ++ b)).
  now rewrite Hsx, Hs.
Qed.

Lemma ToString_flat (v : value) : flat v = true -> exists s, ToString v = Ok s.
Proof.
  destruct v as [| |[]| | |l|]; simpl; try discriminate; eauto.
  apply ToString_scalars.
Qed.

Lemma lookup_In (k : string) (o : object) (v : value) :
  lookup k o = Some v -> In (k, v) o.
Proof.
  induction o as [|[k0 v0] o IH]; simpl; [discriminate|].
  destruct (k =? k0) eqn:E.
  - apply String.eqb_eq in E. intros [= ->]. subst. now left.
  - intros H. right. now apply IH.
Qed.

(** A field of a filterable record, read under a name other than [steps],
    is flat. *)
Lemma filterable_get (r : value) (k : string) :
  filterable r -> k <> "steps" -> exists v, get r k = Ok v /\ flat v = true.
Proof.
  intros [o [-> Hflat]] Hk. simpl.
  destruct (lookup k o) as [v|] eqn:E; eauto.
Qed.

Ltac read_field r k v :=
  let Hv := fresh "Hflat" in
  let E := fresh "E" in
  match goal with
  | Hr : filterable r |- _ =>
      destruct (filterable_get r k Hr ltac:(discriminate)) as [v [E Hv]];
      rewrite E; cbn [bind]
  end.

Ltac convert v :=
  match goal with
  | Hv : flat v = true |- _ =>
      let s := fresh "s" in
      let E := fresh "E" in
      destruct (ToString_flat v Hv) as [s E]; rewrite E; cbn [bind]
  end.

Lemma country_pass_ok (cc : string) (r : value) :
  filterable r -> exists b, country_pass cc r = Ok b.
Proof.
  intros Hr. unfold country_pass, or_else.
  read_field r "country" a. destruct (truthy a); cbn [bind].
  { convert a. eauto. }
  read_field r "country_region" b. destruct (truthy b); cbn [bind].
  { convert b. eauto. }
  read_field r "countryRegion" c. destruct (truthy c); cbn [bind].
  { convert c. eauto. }
  simpl. eauto.
Qed.

Lemma level_pass_ok (lvl : string) (r : value) :
  filterable r -> exists b, level_pass lvl r = Ok b.
Proof.
  intros Hr. unfold level_pass, or3, or_else.
  assert (Hmatch : forall levels, flat levels = true ->
            exists b, match levels with
                      | VArr l => strs <- mapM ToString l ;;
                                  Ok (existsb (String.eqb lvl) strs)
                      | VStr x => Ok (x =? lvl)
                      | _ => Ok false
                      end = Ok b).
  { intros levels Hflat. destruct levels; eauto.
    destruct (mapM_ToString_scalars l Hflat) as [strs ->]. simpl. eauto. }
  read_field r "degree_levels" a. destruct (truthy a); cbn [bind]; [auto|].
  read_field r "degreeLevels" b. destruct (truthy b); cbn [bind]; [auto|].
  read_field r "levels" c. auto.
Qed.

Lemma deadline_pass_ok (dl : string) (r : value) :
  filterable r -> exists b, deadline_pass dl r = Ok b.
Proof.
  intros Hr. unfold deadline_pass.
  read_field r "deadline" d. destruct (truthy d); cbn [negb]; [|eauto].
  convert d. eauto.
Qed.

Lemma text_pass_ok (qq : string) (r : value) :
  filterable r -> exists b, text_pass qq r = Ok b.
Proof.
  intros Hr. unfold text_pass, or_else.
  assert (Hprov : forall k : string -> result bool,
            (forall pstr, exists b, k pstr = Ok b) ->
            exists b, (c <- get r "provider" ;;
                       p <- (if truthy c then Ok c
                             else d <- get r "organizer" ;;
                                  (if truthy d then Ok d else Ok (VStr ""))) ;;
                       pstr <- ToString p ;; k pstr) = Ok b).
  { intros k Hk. read_field r "provider" c. destruct (truthy c); cbn [bind].
    { convert c. apply Hk. }
    read_field r "organizer" d. destruct (truthy d); cbn [bind].
    { convert d. apply Hk. }
    simpl. apply Hk. }
  read_field r "name" a. destruct (truthy a); cbn [bind].
  { convert a. apply Hprov. eauto. }
  read_field r "title" b. destruct (truthy b); cbn [bind].
  { convert b. apply Hprov. eauto. }
  cbn [ToString bind]. apply Hprov. eauto.
Qed.

Lemma filterM_total {A} (P : A -> Prop) (f : A -> result bool) (l : list A) :
  (forall x, P x -> exists b, f x = Ok b) ->
  Forall P l ->
  exists out, filterM f l = Ok out /\ Forall P out.
Proof.
  intros Hf. induction 1 as [|x l Hx _ [out [Hout HP]]]; simpl; [eauto|].
  destruct (Hf x Hx) as [b ->]. rewrite Hout. simpl.
  exists (if b then x :: out else out). split; [reflexivity|].
  destruct b; auto.
Qed.

Lemma filter_if_total (param : string) (pred : value -> result bool)
  (l : list value) :
  (forall r, filterable r -> exists b, pred r = Ok b) ->
  Forall filterable l ->
  exists out, filter_if param pred l = Ok out /\ Forall filterable out.
Proof.
  intros Hpred Hl. unfold filter_if. destruct (param =? ""); [eauto|].
  now apply filterM_total.
Qed.

Lemma scholarship_filters_total (country level deadline q : string)
  (merged : list value) :
  Forall filterable merged ->
  exists out, scholarship_filters country level deadline q merged = Ok out.
Proof.
  intros H0. unfold scholarship_filters.
  destruct (filter_if_total country (country_pass (toLowerCase (trim country)))
              merged (country_pass_ok _) H0) as [m1 [-> H1]]. cbn [bind].
  destruct (filter_if_total level (level_pass (trim level))
              m1 (level_pass_ok _) H1) as [m2 [-> H2]]. cbn [bind].
  destruct (filter_if_total deadline (deadline_pass deadline)
              m2 (deadline_pass_ok _) H2) as [m3 [-> H3]]. cbn [bind].
  destruct (filter_if_total q (text_pass (toLowerCase q))
              m3 (text_pass_ok _) H3) as [m4 [-> _]]. eauto.
Qed.

Lemma flat_record_merged (stepsById : map_t) (s r : value) :
  flat_record s = true -> merge_one stepsById s = Ok r -> filterable r.
Proof.
  destruct s as [| | | | | |o]; try discriminate. intros Hflat Hone.
  destruct (merge_one_ok stepsById (VObj o) eq_refl) as [sid [_ Hone']].
  rewrite Hone' in Hone. injection Hone as <-.
  eexists. split; [reflexivity|]. intros k v Hk Hlook.
  rewrite lookup_set_prop_other in Hlook by assumption.
  apply lookup_In in Hlook. simpl in Hflat.
  rewrite forallb_forall in Hflat. apply (Hflat (k, v) Hlook).
Qed.

Lemma merge_flat (main details : list value) :
  Forall (fun s => flat_record s = true) main ->
  exists merged, merge main details = Ok merged /\ Forall filterable merged.
Proof.
  intros Hmain. unfold merge.
  destruct (build_stepsById_total details []) as [M ->]. cbn [bind].
  induction Hmain as [|s main Hs _ [merged [Hmerged Hfilt]]]; simpl; [eauto|].
  assert (Hnn : nullish s = false) by (destruct s; try discriminate; reflexivity).
  destruct (merge_one_ok M s Hnn) as [sid [_ Hone]].
  rewrite Hone, Hmerged. simpl. eexists. split; [reflexivity|].
  constructor; [|assumption]. eapply flat_record_merged; eauto.
Qed.

(** X23: when both files are read and every main record is an object whose
    fields hold scalars or lists of scalars, the scholarship query answers
    with a page, never with an error, whatever the request and whatever the
    detail records are. *)
Theorem scholarships_flat_records (dirname : string)
  (readFile : string -> option string) (req : query) (main details : string) :
  readFile (resolvePrivateFile dirname SCHOLAR_FILES_main) = Some main ->
  readFile (resolvePrivateFile dirname SCHOLAR_FILES_details) = Some details ->
  Forall (fun s => flat_record s = true) (parse_lines main) ->
  exists b, fst (scholarships dirname readFile req) = Success b.
Proof.
  intros Hmain Hdetails Hflat.
  unfold scholarships, try_catch, io_bind, io_ret, Promise_all2, loadJsonl.
  rewrite Hmain, Hdetails. cbn [bind].
  destruct (merge_flat _ (parse_lines details) Hflat) as [merged [-> Hfilt]].
  cbn [bind].
  destruct (scholarship_filters_total
              (trim (param_or (q_country req) ""))
              (trim (param_or (q_level req) ""))
              (trim (param_or (q_deadline req) ""))
              (toLowerCase (trim (param_or (q_q req) ""))) merged Hfilt)
    as [out ->].
  eexists. reflexivity.
Qed.

Lemma scholarships_flat_records_witness :
  exists b, fst (scholarships sample_dir sample_fs msc_page_2) = Success b.
Proof.
  apply (scholarships_flat_records sample_dir sample_fs msc_page_2
           sample_main sample_details); try reflexivity.
  repeat constructor.
Defined.

(** ** Records with string titles never fail *)

Lemma cleanTitle_stringish (v : value) :
  stringish v = true -> exists t, cleanTitle v = Ok t.
Proof.
  destruct v as [| | | |s| |]; try discriminate; intros _;
    try (exists ""; reflexivity).
  rewrite cleanTitle_string. cbv zeta.
  destruct (trim s =? ""); [eauto|].
  destruct (colon_rule (trim s)); [eauto|].
  destruct (window_loop _ _); eauto.
Qed.

Lemma or_else_stringish (a : value) (rest : result value) :
  stringish a = true ->
  (exists v, rest = Ok v /\ stringish v = true) ->
  exists v, or_else a rest = Ok v /\ stringish v = true.
Proof.
  intros Ha Hrest. unfold or_else. destruct (truthy a); eauto.
Qed.

Lemma string_or_missing_get (o : object) (k : string) :
  string_or_missing o k = true ->
  exists v, get (VObj o) k = Ok v /\ stringish v = true.
Proof.
  unfold string_or_missing, get. destruct (lookup k o); eauto.
Qed.

Lemma nimi_stringish (o : object) (lang : string) :
  nimi_ok o = true -> lang = "en" \/ lang = "fi" ->
  exists v, (d <- get (VObj o) "detail" ;; n <- get_opt d "nimi" ;; get_opt n lang)
            = Ok v /\ stringish v = true.
Proof.
  unfold nimi_ok. intros Hok Hlang. cbn [get bind].
  destruct (lookup "detail" o) as [[| | | | | |d]|]; cbn [get_opt get bind]; eauto.
  destruct (lookup "nimi" d) as [[| | | | | |n]|]; cbn [get_opt get bind]; eauto.
  apply andb_true_iff in Hok as [Hen Hfi]. unfold string_or_missing in Hen, Hfi.
  destruct Hlang as [-> | ->].
  - destruct (lookup "en" n); eauto.
  - destruct (lookup "fi" n); eauto.
Qed.

Lemma cleaned_title (r : result value) :
  (exists v, r = Ok v /\ stringish v = true) ->
  exists t, (t <- r ;; s <- cleanTitle t ;; Ok (VStr s)) = Ok t /\ stringish t = true.
Proof.
  intros [v [-> Hv]]. cbn [bind].
  destruct (cleanTitle_stringish v Hv) as [t ->]. cbn [bind]. eauto.
Qed.

Lemma getTitle_stringish (country : string) (p : value) :
  titled p = true ->
  exists t, getTitle country p = Ok t /\ stringish t = true.
Proof.
  destruct p as [| | | | | |o]; try discriminate.
  unfold titled. intros H. apply andb_true_iff in H as [Hfields Hnimi].
  cbn [forallb] in Hfields.
  repeat (apply andb_true_iff in Hfields as [?Hf Hfields]).
  assert (Hempty : exists v, Ok (VStr "") = Ok v /\ stringish v = true) by eauto.
  unfold getTitle.
  destruct (country =? "germany").
  { destruct (string_or_missing_get o "programme_title" Hf) as [a [-> Ha]].
    cbn [bind]. apply cleaned_title, or_else_stringish; [assumption|].
    destruct (string_or_missing_get o "title" Hf0) as [b [-> Hb]]. cbn [bind].
    now apply or_else_stringish. }
  destruct (country =? "netherlands").
  { destruct (string_or_missing_get o "name" Hf2) as [a [-> Ha]].
    cbn [bind]. apply or_else_stringish; [assumption|].
    destruct (string_or_missing_get o "title" Hf0) as [b [-> Hb]]. cbn [bind].
    apply or_else_stringish; [assumption|].
    destruct (string_or_missing_get o "programTitle" Hf3) as [c [-> Hc]]. cbn [bind].
    now apply or_else_stringish. }
  destruct (country =? "sweden").
  { destruct (string_or_missing_get o "title" Hf0) as [a [-> Ha]].
    cbn [bind]. apply cleaned_title, or_else_stringish; [assumption|].
    destruct (string_or_missing_get o "programme_title" Hf) as [b [-> Hb]]. cbn [bind].
    apply or_else_stringish; [assumption|].
    destruct (string_or_missing_get o "header_line" Hf1) as [c [-> Hc]]. cbn [bind].
    now apply or_else_stringish. }
  destruct (country =? "finland"); [|eauto].
  destruct (string_or_missing_get o "title" Hf0) as [a [Ea Ha]].
  rewrite Ea. cbn [bind]. apply cleaned_title, or_else_stringish; [assumption|].
  destruct (nimi_stringish o "en" Hnimi (or_introl eq_refl)) as [b [-> Hb]].
  cbn [bind]. apply or_else_stringish; [assumption|].
  destruct (nimi_stringish o "fi" Hnimi (or_intror eq_refl)) as [c [-> Hc]].
  cbn [bind]. now apply or_else_stringish.
Qed.

Lemma title_pass_ok (country q : string) (p : value) :
  titled p = true -> exists b, title_pass country q p = Ok b.
Proof.
  intros Hp. unfold title_pass.
  destruct (getTitle_stringish country p Hp) as [t [-> Ht]]. cbn [bind].
  unfold or_else.
  destruct t as [| | | |s| |]; try discriminate;
    try (destruct (truthy (VStr s))); eexists; reflexivity.
Qed.

(** X24: when the file of a supported origin is read and every record is an
    object whose title fields are strings or missing, the programme query
    answers with a page, never with an error, whatever the text. *)
Theorem courses_string_titles (dirname : string)
  (readFile : string -> option string) (req : query) (fileName text : string) :
  assoc (toLowerCase (param_or (q_country req) "germany")) COUNTRY_FILES
  = Some fileName ->
  readFile (resolvePrivateFile dirname fileName) = Some text ->
  Forall (fun p => titled p = true) (parse_lines text) ->
  exists b, fst (courses dirname readFile req) = Success b.
Proof.
  intros Hown Hread Htitled.
  unfold courses, COUNTRY_FILES_at, try_catch, io_bind, io_ret, loadJsonl.
  rewrite Hown, Hread. unfold programme_filter, filter_if.
  destruct (_ =? ""); [eexists; reflexivity|].
  destruct (filterM_total (fun p => titled p = true)
              (title_pass (toLowerCase (param_or (q_country req) "germany"))
                 (toLowerCase (trim (param_or (q_q req) ""))))
              (parse_lines text) (title_pass_ok _ _) Htitled) as [out [-> _]].
  eexists. reflexivity.
Qed.

Lemma courses_string_titles_witness :
  exists b, fst (courses sample_dir sample_fs physics_page_2) = Success b.
Proof.
  apply (courses_string_titles sample_dir sample_fs physics_page_2
           "daad_programmes.jsonl" sample_programmes); try reflexivity.
  repeat constructor.
Defined.

(** ** Page parameters in decimal notation *)








(** ** What the cleanup keeps *)

Lemma length_trimStart (s : string) : String.length (trimStart s) <= String.length s.
Proof.
  induction s as [|c r IH]; simpl; [lia|].
  destruct (isWhiteSpace c); simpl; lia.
Qed.

Lemma length_trimEnd (s : string) : String.length (trimEnd s) <= String.length s.
Proof.
  induction s as [|c r IH]; simpl; [lia|].
  destruct (trimEnd r); [destruct (isWhiteSpace c)|]; simpl in *; lia.
Qed.

Lemma length_trim (s : string) : String.length (trim s) <= String.length s.
Proof.
  unfold trim. pose proof (length_trimEnd (trimStart s)).
  pose proof (length_trimStart s). lia.
Qed.

(** The first group of the colon pattern is a part of the text that starts
    where the text starts, and it is not empty. *)
Lemma colon_match_from_group (s : string) (nonempty : bool) (a b : string) :
  colon_match_from nonempty s = Some (a, b) ->
  String.length a <= String.length s
  /\ (nonempty = false -> exists c r r', s = String c r /\ a = String c r').
Proof.
  revert nonempty a b. induction s as [|c r IH]; intros nonempty a b; [discriminate|].
  change (colon_match_from nonempty (String c r))
    with (let longer :=
            if isLineTerminator c then None
            else match colon_match_from true r with
                 | Some (a, b) => Some (String c a, b)
                 | None => None
                 end in
          if (code c =? 58)%N && nonempty then
            match after_colon r with
            | Some b => Some ("", b)
            | None => longer
            end
          else longer).
  cbv zeta.
  assert (Hlonger :
            (if isLineTerminator c then None
             else match colon_match_from true r with
                  | Some (a, b) => Some (String c a, b)
                  | None => None
                  end) = Some (a, b) ->
            String.length a <= String.length (String c r)
            /\ exists r', a = String c r').
  { destruct (isLineTerminator c); [discriminate|].
    destruct (colon_match_from true r) as [[a' b']|] eqn:E; [|discriminate].
    intros [= <- <-]. destruct (IH true a' b' E) as [Hlen _].
    split; [simpl; lia | eauto]. }
  destruct ((code c =? 58)%N && nonempty) eqn:Ecolon.
  - apply andb_true_iff in Ecolon as [_ ->].
    destruct (after_colon r).
    + intros [= <- <-]. split; [simpl; lia | discriminate].
    + intros H. destruct (Hlonger H) as [Hlen _]. split; [exact Hlen | discriminate].
  - intros H. destruct (Hlonger H) as [Hlen [r' ->]]. split; [exact Hlen|].
    intros _. eauto.
Qed.

Lemma split_ws_from_cons (s : string) (inrun : bool) :
  exists w ws, split_ws_from inrun s = w :: ws.
Proof.
  revert inrun. induction s as [|c r IH]; intros inrun; simpl; [eauto|].
  destruct (isWhiteSpace c).
  - destruct inrun; [apply IH | eauto].
  - destruct (IH false) as [w [ws ->]]. eauto.
Qed.

Lemma join_cons (sep w : string) (ws : list string) :
  join sep (w :: ws) = w ++ match ws with [] => "" | _ => sep ++ join sep ws end.
Proof.
  destruct ws; simpl; [|reflexivity].
  induction w as [|c w IH]; simpl; [reflexivity|]. now rewrite <- IH.
Qed.

Lemma length_append (a b : string) :
  String.length (a ++ b) = String.length a + String.length b.
Proof. induction a as [|c a IH]; simpl; [reflexivity|]. now rewrite IH. Qed.

Lemma length_join_firstn (sep : string) (words : list string) (n : nat) :
  String.length (join sep (firstn n words)) <= String.length (join sep words).
Proof.
  revert n. induction words as [|w ws IH]; intros n.
  - now rewrite firstn_nil.
  - destruct n as [|n]; [simpl firstn; simpl String.length at 1; lia|].
    rewrite firstn_cons, !join_cons, !length_append.
    specialize (IH n).
    destruct ws as [|w' ws']; [rewrite firstn_nil; simpl; lia|].
    destruct n as [|n]; [simpl; lia|].
    rewrite firstn_cons in IH |- *. rewrite !length_append. lia.
Qed.

(** Joining the words with one blank gives back no more than the text: each
    run of white space had at least one character. *)
Lemma length_join_split_ws (s : string) (inrun : bool) :
  String.length (join " " (split_ws_from inrun s)) <= String.length s.
Proof.
  revert inrun. induction s as [|c r IH]; intros inrun; [simpl; lia|].
  simpl split_ws_from. destruct (isWhiteSpace c).
  - destruct inrun.
    + specialize (IH true).
      change (String.length (String c r)) with (S (String.length r)). lia.
    + specialize (IH true).
      change (String.length (String c r)) with (S (String.length r)).
      destruct (split_ws_from_cons r true) as [w [ws E]].
      rewrite E in IH |- *.
      change (join " " ("" :: w :: ws)) with (String " " (join " " (w :: ws))).
      change (String.length (String " " ?t)) with (S (String.length t)). lia.
  - specialize (IH false).
    change (String.length (String c r)) with (S (String.length r)).
    destruct (split_ws_from_cons r false) as [w [ws E]].
    rewrite E in IH |- *.
    rewrite join_cons in IH |- *.
    change (String c w ++ ?t) with (String c (w ++ t)).
    change (String.length (String c ?t)) with (S (String.length t)). lia.
Qed.

Lemma window_loop_window (words : list string) (K : nat) (p : string) :
  window_loop words K = Some p ->
  exists k, 2 <= k <= K /\ p = trim (window_prefix words k).
Proof.
  induction K as [|K IH]; [discriminate|].
  destruct K as [|K']; [discriminate|].
  change (window_loop words (S (S K')))
    with (if window_matches words (S (S K'))
          then Some (trim (window_prefix words (S (S K'))))
          else window_loop words (S K')).
  destruct (window_matches _ _).
  - intros [= <-]. exists (S (S K')). split; [lia|reflexivity].
  - intros H. destruct (IH H) as [k [Hk ->]]. exists k. split; [lia|reflexivity].
Qed.

Lemma trim_nonblank_head (c : ascii) (r : string) :
  isWhiteSpace c = false -> exists r', trim (String c r) = String c r'.
Proof.
  intros Hc. unfold trim. simpl trimStart. rewrite Hc. now apply trimEnd_head.
Qed.

(** The part a window keeps starts with the first word of the title and is
    no longer than the title. *)
Lemma window_loop_part (c : ascii) (r p : string) :
  isWhiteSpace c = false ->
  window_loop (split_ws (String c r)) (window_start (split_ws (String c r))) = Some p ->
  (exists r', p = String c r')
  /\ String.length p <= String.length (String c r).
Proof.
  intros Hc Hw.
  apply window_loop_window in Hw as [k [Hk ->]].
  set (words := split_ws (String c r)) in *.
  unfold window_start in Hk.
  assert (Hlt : 2 * k <= List.length words).
  { assert (k <= List.length words / 2) by lia.
    pose proof (Nat.Div0.mul_div_le (List.length words) 2). lia. }
  rewrite window_prefix_eq by lia.
  pose proof (length_join_split_ws (String c r) false) as Hjoin.
  fold (split_ws (String c r)) in Hjoin. fold words in Hjoin.
  pose proof (length_join_firstn " " words (List.length words - k)) as Hfirst.
  pose proof (length_trim (join " " (firstn (List.length words - k) words))) as Htrim.
  split; [|lia].
  assert (Hn : exists n', List.length words - k = S n')
    by (exists (pred (List.length words - k)); lia).
  destruct Hn as [n' ->].
  unfold words, split_ws. simpl split_ws_from. rewrite Hc.
  destruct (split_ws_from_cons r false) as [w [ws ->]].
  rewrite firstn_cons, join_cons.
  change (String c w ++ ?t) with (String c (w ++ t)).
  now apply trim_nonblank_head.
Qed.

(** X26: the cleanup of a title never gives more characters than it was
    given, and it gives the empty title only for a title that is empty or
    blank: the part kept by the colon rule or by a window starts where the
    trimmed title starts. *)
Theorem cleanTitle_keeps_a_part (raw : string) :
  exists title,
    cleanTitle (VStr raw) = Ok title
    /\ String.length title <= String.length raw
    /\ (title = "" <-> trim raw = "").
Proof.
  rewrite cleanTitle_string. cbv zeta.
  pose proof (length_trim raw) as Hraw.
  destruct (trim raw =? "") eqn:Eblank.
  { apply String.eqb_eq in Eblank. exists (trim raw).
    rewrite Eblank in *. repeat split; auto. }
  apply String.eqb_neq in Eblank.
  destruct (trim_head raw) as [E | [c [r [E Hc]]]]; [contradiction|].
  assert (Hsome : forall title,
             (exists r', title = String c r') ->
             String.length title <= String.length (trim raw) ->
             String.length title <= String.length raw /\ (title = "" <-> trim raw = "")).
  { intros title [r' ->] Hlen. split; [lia|]. split; [discriminate|contradiction]. }
  assert (Hwindow :
            exists title,
              match window_loop (split_ws (trim raw)) (window_start (split_ws (trim raw))) with
              | Some prefix => Ok prefix
              | None => Ok (trim raw)
              end = Ok title
              /\ String.length title <= String.length raw
              /\ (title = "" <-> trim raw = "")).
  { destruct (window_loop _ _) as [p|] eqn:Ew.
    - exists p. split; [reflexivity|]. rewrite E in Ew.
      destruct (window_loop_part c r p Hc Ew) as [Hhead Hlen].
      apply Hsome; [exact Hhead | now rewrite E].
    - exists (trim raw). split; [reflexivity|]. apply Hsome; [rewrite E; eauto | lia]. }
  unfold colon_rule, colon_match.
  destruct (colon_match_from false (trim raw)) as [[m1 m2]|] eqn:Em; [|exact Hwindow].
  destruct (includes _ _); [|exact Hwindow].
  destruct (colon_match_from_group _ _ _ _ Em) as [Hlen Hhead].
  destruct (Hhead eq_refl) as [c' [r1 [r2 [Hs ->]]]].
  rewrite E in Hs. injection Hs as <- <-.
  eexists. split; [reflexivity|]. apply Hsome.
  - now apply trim_nonblank_head.
  - pose proof (length_trim (String c r2)). simpl in *. lia.
Qed.

(** ** The size of an answer *)

Lemma effective_page_cases (param : option string) :
  effective_page param = NaN \/ exists p, effective_page param = Int p /\ (1 <= p)%Z.
Proof.
  destruct (effective_page param) as [|p] eqn:E; [now left|].
  right. exists p. split; [reflexivity|]. now apply (effective_page_int param).
Qed.

Lemma effective_pageSize_cases (param : option string) :
  effective_pageSize param = NaN
  \/ exists ps, effective_pageSize param = Int ps /\ (1 <= ps <= 50)%Z.
Proof.
  destruct (effective_pageSize param) as [|ps] eqn:E; [now left|].
  right. exists ps. split; [reflexivity|]. now apply (effective_pageSize_int param).
Qed.

Lemma page_slice_bounded (filtered : list value) (page pageSize : option string) :
  List.length (page_slice filtered (effective_page page) (effective_pageSize pageSize)) <= 50
  /\ List.length (page_slice filtered (effective_page page) (effective_pageSize pageSize))
     <= List.length filtered.
Proof.
  destruct (effective_page_cases page) as [-> | [p [-> Hp]]].
  { unfold page_slice. cbn [num_sub num_mul num_add toInteger].
    rewrite slice_0_0. simpl. lia. }
  destruct (effective_pageSize_cases pageSize) as [-> | [ps [-> Hps]]].
  { unfold page_slice. cbn [num_sub num_mul num_add toInteger].
    rewrite slice_0_0. simpl. lia. }
  rewrite page_slice_clamped by lia.
  rewrite length_firstn, length_skipn. lia.
Qed.

(** X27: no answer of either query carries more than 50 records, nor more
    records than its total, whatever the request and the files: the page
    size never exceeds 50, and a page parameter that is not numeric gives an
    empty page. *)
Theorem answers_at_most_50 (dirname : string) (readFile : string -> option string)
  (req : query) (b : body) :
  fst (courses dirname readFile req) = Success b
  \/ fst (scholarships dirname readFile req) = Success b ->
  List.length (data b) <= 50 /\ List.length (data b) <= total b.
Proof.
  intros [H | H].
  - unfold courses, try_catch, io_bind, io_ret, loadJsonl in H.
    destruct (COUNTRY_FILES_at _); try discriminate.
    destruct (readFile _); try discriminate.
    destruct (programme_filter _ _ _) as [filtered|]; try discriminate.
    injection H as <-. apply page_slice_bounded.
  - unfold scholarships, try_catch, io_bind, io_ret, Promise_all2, loadJsonl in H.
    destruct (readFile (resolvePrivateFile dirname SCHOLAR_FILES_main)); try discriminate.
    destruct (readFile (resolvePrivateFile dirname SCHOLAR_FILES_details)); try discriminate.
    cbn [bind fst] in H.
    destruct (merge _ _); try discriminate.
    cbn [bind fst] in H.
    destruct (scholarship_filters _ _ _ _ _) as [filtered|]; try discriminate.
    injection H as <-. apply page_slice_bounded.
Qed.

Lemma answers_at_most_50_witness :
  List.length [VObj [("programme_title", VStr "Applied Physics")]] <= 50
  /\ List.length [VObj [("programme_title", VStr "Applied Physics")]] <= 2.
Proof.
  apply (answers_at_most_50 sample_dir sample_fs physics_page_2
           {| data := [VObj [("programme_title", VStr "Applied Physics")]];
              total := 2; page := Int 2; pageSize := Int 1;
              country := Some "germany" |}).
  left. reflexivity.
Defined.

(** ** Titles that are not strings *)

(** X28: the origin [netherlands] takes the title as it stands, without the
    conversion to a string the other origins apply: a record whose [name]
    is truthy and not a string (a number, a list, an object) makes every
    query of that origin with a text answer 500. *)
Theorem courses_netherlands_name (dirname : string)
  (readFile : string -> option string) (req : query) (text : string)
  (o : object) (name : value) :
  toLowerCase (param_or (q_country req) "germany") = "netherlands" ->
  readFile (resolvePrivateFile dirname "nl_programs.jsonl") = Some text ->
  In (VObj o) (parse_lines text) ->
  lookup "name" o = Some name ->
  truthy name = true ->
  (forall s, name <> VStr s) ->
  trim (param_or (q_q req) "") <> "" ->
  fst (courses dirname readFile req) = Failure 500 "Server error".
Proof.
  intros Hc Hread Hin Hname Htruthy Hstr Hq.
  unfold courses, try_catch, io_bind, io_ret, loadJsonl.
  rewrite Hc. change (COUNTRY_FILES_at "netherlands") with (Own "nl_programs.jsonl").
  cbv beta iota. rewrite Hread. unfold programme_filter, filter_if.
  destruct (toLowerCase (trim (param_or (q_q req) "")) =? "") eqn:E.
  - apply String.eqb_eq, toLowerCase_empty in E. contradiction.
  - rewrite (filterM_throw _ _ (VObj o) Hin); [reflexivity|].
    unfold title_pass, getTitle.
    change ("netherlands" =? "germany") with false.
    change ("netherlands" =? "netherlands") with true. cbv iota.
    unfold get at 1. rewrite Hname. cbn [bind].
    unfold or_else at 1. rewrite Htruthy. cbn [bind].
    unfold or_else. rewrite Htruthy. cbn [bind].
    destruct name; try reflexivity. now elim (Hstr s).
Qed.

Lemma courses_netherlands_name_witness :
  fst (courses sample_dir
         (fun _ => Some (json_text "{'name':'Water Science'}" ++ LF
                         ++ json_text "{'name':2024}"))
         {| q_country := Some "Netherlands"; q_q := Some "water";
            q_level := None; q_deadline := None;
            q_page := None; q_pageSize := None |})
  = Failure 500 "Server error".
Proof.
  apply (courses_netherlands_name sample_dir _ _
           (json_text "{'name':'Water Science'}" ++ LF ++ json_text "{'name':2024}")
           [("name", VNum 2024 0)] (VNum 2024 0)); try reflexivity.
  - vm_compute. right. left. reflexivity.
  - intros s. discriminate.
  - discriminate.
Defined.

(** ** What the details file decides *)

Lemma merge_one_steps_only (M M' : map_t) (s r : value) :
  merge_one M s = Ok r ->
  exists r', merge_one M' s = Ok r' /\ same_but_steps r r'.
Proof.
  unfold merge_one. destruct (identifier s) as [sid|]; [|discriminate].
  cbn [bind]. unfold or_else.
  intros H.
  assert (Hr : exists st, r = VObj (set_prop "steps" st (spread s))).
  { destruct (truthy (Map_get sid M)); injection H as <-; eauto. }
  destruct Hr as [st ->].
  assert (Hr' : exists st',
             (st0 <- (if truthy (Map_get sid M') then Ok (Map_get sid M') else Ok (VArr [])) ;;
              Ok (VObj (set_prop "steps" st0 (spread s))))
             = Ok (VObj (set_prop "steps" st' (spread s)))).
  { destruct (truthy (Map_get sid M')); eexists; reflexivity. }
  destruct Hr' as [st' ->].
  eexists. split; [reflexivity|].
  eexists _, _. repeat split. intros k Hk.
  now rewrite !lookup_set_prop_other by assumption.
Qed.

Lemma mapM_related {A B} (R : B -> B -> Prop) (f g : A -> result B) (l : list A)
  (out : list B) :
  (forall x y, f x = Ok y -> exists y', g x = Ok y' /\ R y y') ->
  mapM f l = Ok out ->
  exists out', mapM g l = Ok out' /\ Forall2 R out out'.
Proof.
  intros Hfg. revert out. induction l as [|x l IH]; simpl; intros out.
  - intros [= <-]. eauto.
  - destruct (f x) as [y|] eqn:Hy; simpl; [|discriminate].
    destruct (mapM f l) as [ys|]; simpl; [|discriminate].
    intros [= <-].
    destruct (Hfg x y Hy) as [y' [-> Hyy']].
    destruct (IH ys eq_refl) as [ys' [-> Hys]]. simpl. eauto.
Qed.

Lemma filterM_related {A} (R : A -> A -> Prop) (f : A -> result bool)
  (l l' out : list A) :
  (forall x x', R x x' -> f x = f x') ->
  Forall2 R l l' ->
  filterM f l = Ok out ->
  exists out', filterM f l' = Ok out' /\ Forall2 R out out'.
Proof.
  intros Hf Hl. revert out. induction Hl as [|x x' l l' Hx Hl IH]; simpl; intros out.
  - intros [= <-]. eauto.
  - rewrite <- (Hf x x' Hx).
    destruct (f x) as [b|]; simpl; [|discriminate].
    destruct (filterM f l) as [ys|]; simpl; [|discriminate].
    destruct (IH ys eq_refl) as [ys' [-> Hys]]. simpl.
    intros [= <-]. destruct b; eauto.
Qed.

Lemma filter_if_related (param : string) (pred : value -> result bool)
  (l l' out : list value) :
  (forall x x', same_but_steps x x' -> pred x = pred x') ->
  Forall2 same_but_steps l l' ->
  filter_if param pred l = Ok out ->
  exists out', filter_if param pred l' = Ok out' /\ Forall2 same_but_steps out out'.
Proof.
  intros Hf Hl. unfold filter_if. destruct (param =? "").
  - intros [= <-]. eauto.
  - now apply filterM_related.
Qed.

(** None of the four filters reads [steps]. *)
Lemma passes_steps_blind (cc lvl dl qq : string) (r r' : value) :
  same_but_steps r r' ->
  country_pass cc r = country_pass cc r'
  /\ level_pass lvl r = level_pass lvl r'
  /\ deadline_pass dl r = deadline_pass dl r'
  /\ text_pass qq r = text_pass qq r'.
Proof.
  intros [o [o' [-> [-> H]]]].
  unfold country_pass, level_pass, or3, deadline_pass, text_pass, get.
  now rewrite !H by discriminate.
Qed.

Lemma Forall2_firstn {A B} (R : A -> B -> Prop) (n : nat) (l : list A) (l' : list B) :
  Forall2 R l l' -> Forall2 R (firstn n l) (firstn n l').
Proof.
  intros H. revert n. induction H; intros [|n]; simpl; auto.
Qed.

Lemma Forall2_skipn {A B} (R : A -> B -> Prop) (n : nat) (l : list A) (l' : list B) :
  Forall2 R l l' -> Forall2 R (skipn n l) (skipn n l').
Proof.
  intros H. revert n. induction H; intros [|n]; simpl; auto.
Qed.

Lemma page_slice_related (R : value -> value -> Prop) (l l' : list value) (p ps : num) :
  Forall2 R l l' -> Forall2 R (page_slice l p ps) (page_slice l' p ps).
Proof.
  intros H. unfold page_slice, slice.
  rewrite (Forall2_length H).
  now apply Forall2_firstn, Forall2_skipn.
Qed.

(** X29: the details file decides the steps attached to the records and
    nothing else.  When a request is answered with a page, the same request
    against the same main file and any other readable details file is
    answered with the same total, the same page numbers and the same records
    in the same order, up to their [steps]. *)
Theorem scholarships_details_only_steps (dirname : string)
  (readFile readFile' : string -> option string) (req : query) (b : body) :
  readFile' (resolvePrivateFile dirname SCHOLAR_FILES_main)
  = readFile (resolvePrivateFile dirname SCHOLAR_FILES_main) ->
  readFile' (resolvePrivateFile dirname SCHOLAR_FILES_details) <> None ->
  fst (scholarships dirname readFile req) = Success b ->
  exists b',
    fst (scholarships dirname readFile' req) = Success b'
    /\ total b' = total b
    /\ page b' = page b
    /\ pageSize b' = pageSize b
    /\ Forall2 same_but_steps (data b) (data b').
Proof.
  intros Hmain Hdetails H.
  unfold scholarships, try_catch, io_bind, io_ret, Promise_all2, loadJsonl in H |- *.
  rewrite Hmain.
  destruct (readFile (resolvePrivateFile dirname SCHOLAR_FILES_main)) as [main|];
    [|discriminate].
  destruct (readFile (resolvePrivateFile dirname SCHOLAR_FILES_details)) as [details|];
    [|discriminate].
  destruct (readFile' (resolvePrivateFile dirname SCHOLAR_FILES_details)) as [details'|];
    [|contradiction].
  cbn [bind fst] in H |- *.
  destruct (merge (parse_lines main) (parse_lines details)) as [merged|] eqn:Em;
    [|discriminate].
  unfold merge in Em |- *.
  destruct (build_stepsById_total (parse_lines details) []) as [M HM].
  destruct (build_stepsById_total (parse_lines details') []) as [M' ->].
  rewrite HM in Em. cbn [bind] in Em |- *.
  destruct (mapM_related same_but_steps (merge_one M) (merge_one M') _ _
              (merge_one_steps_only M M') Em) as [merged' [-> Hmerged]].
  cbn [bind fst] in H |- *.
  unfold scholarship_filters in H |- *.
  set (cc := toLowerCase (trim (trim (param_or (q_country req) "")))) in *.
  set (lvl := trim (trim (param_or (q_level req) ""))) in *.
  set (dl := trim (param_or (q_deadline req) "")) in *.
  set (qq := toLowerCase (toLowerCase (trim (param_or (q_q req) "")))) in *.
  destruct (filter_if _ (country_pass cc) merged) as [m1|] eqn:E1; [|discriminate].
  destruct (filter_if_related _ _ _ _ _
              (fun x x' Hx => proj1 (passes_steps_blind cc lvl dl qq x x' Hx))
              Hmerged E1) as [m1' [-> H1]].
  cbn [bind] in H |- *.
  destruct (filter_if _ (level_pass lvl) m1) as [m2|] eqn:E2; [|discriminate].
  destruct (filter_if_related _ _ _ _ _
              (fun x x' Hx => proj1 (proj2 (passes_steps_blind cc lvl dl qq x x' Hx)))
              H1 E2) as [m2' [-> H2]].
  cbn [bind] in H |- *.
  destruct (filter_if _ (deadline_pass dl) m2) as [m3|] eqn:E3; [|discriminate].
  destruct (filter_if_related _ _ _ _ _
              (fun x x' Hx =>
                 proj1 (proj2 (proj2 (passes_steps_blind cc lvl dl qq x x' Hx))))
              H2 E3) as [m3' [-> H3]].
  cbn [bind] in H |- *.
  destruct (filter_if _ (text_pass qq) m3) as [m4|] eqn:E4; [|discriminate].
  destruct (filter_if_related _ _ _ _ _
              (fun x x' Hx =>
                 proj2 (proj2 (proj2 (passes_steps_blind cc lvl dl qq x x' Hx))))
              H3 E4) as [m4' [-> H4]].
  cbn [fst] in H |- *. injection H as <-.
  eexists. split; [reflexivity|].
  unfold page_body. cbn [total page pageSize data].
  repeat split.
  - symmetry. exact (Forall2_length H4).
  - now apply page_slice_related.
Qed.

Lemma scholarships_details_only_steps_witness :
  exists b',
    fst (scholarships sample_dir sample_fs_no_details msc_page_2) = Success b'
    /\ total b' = 2.
Proof.
  edestruct (scholarships_details_only_steps sample_dir sample_fs
               sample_fs_no_details msc_page_2) as [b' [Hb' [Htotal _]]].
  - reflexivity.
  - discriminate.
  - vm_compute. reflexivity.
  - exists b'. split; [exact Hb' | exact Htotal].
Defined.
